(** * Collective memory stores: a shallow embedding

    Embedding of the memory layer of the repository:
    [memory_systems/base_memory.py], [memory_systems/private_memory.py],
    [memory_systems/shared_memory.py] and the filter, domain router and
    federation classes of [enhanced_collective_memory.py].

    Conventions of the embedding.
    - A Python [str] is a [string] of ASCII characters; [str.lower] is the
      ASCII lower-casing, [a in b] is the substring test.
    - A [float] is a rational ([Q]); comparisons are the exact ones.  The
      code rounds where exact arithmetic does not: the statements on the
      filter are made for every computation of its scores, the others
      state what rounding keeps.  An [int] that reaches a float operation
      is within the range where a float holds it exactly.
    - A [datetime] is naive or aware.  A naive one is the count of
      microseconds of its wall clock ([Z]); an aware one carries that count
      and its offset from UTC.  Two naive datetimes, and two aware ones,
      are ordered; [<] between a naive and an aware one raises
      [TypeError].  The ISO-8601 text is abstracted to decimal numerals,
      which keeps the one property the stores rely on: [fromisoformat]
      inverts [isoformat].
    - A [dict] is an association list in insertion order with unique keys
      (Python dicts and the JSON file both keep insertion order, and the
      order decides ties of the stable sort in [retrieve]).
    - [list.sort] is the stable sort.  Where [<] on the keys can raise
      (the timestamps in the sort key of the Private Store), the sort
      raises on exactly the lists that hold two keys that cannot be
      compared.
    - The JSON file of a store is its [data] field: [_load_json] reads it,
      [_save_json] replaces it; [json.dump] followed by [json.load] is the
      identity on the values below.
    - A field of a persisted record, and a value of an [updates] dict, is
      a [value]: a [str], a [float], a list of [str] or a dict of scalars.
      [update] stores whatever value it is given.  A [retrieve] that meets
      a field whose value is not of the type the dataclass declares takes
      its [except] branch, with the class of the exception as its text;
      Python fails there only once the value is used, so the statements
      about the entries that [retrieve] returns are made over records that
      are entries, where the two agree.
    - [datetime.now()] is an argument of the operation that reads the
      clock; it is a naive datetime, given by its count.
    - An exception is a value of [exn]; every [try ... except Exception] of
      the source is a [match] on it. *)

From Stdlib Require Import QArith Qminmax DecimalString DecimalZ Decimal.
From Stdlib Require Import Permutation Sorted Ascii String Lqa.
From stdpp Require Import gmap strings list.

Local Open Scope string_scope.
Local Open Scope list_scope.

(** ** Python primitives *)

Module Py.

(** [c.lower()] on one ASCII character. *)
Definition lower_ascii (c : ascii) : ascii :=
  let n := N_of_ascii c in
  if ((65 <=? n) && (n <=? 90))%N then ascii_of_N (n + 32) else c.

(** [s.lower()] *)
Fixpoint lower (s : string) : string :=
  match s with
  | EmptyString => EmptyString
  | String c s' => String (lower_ascii c) (lower s')
  end.

(** [needle in hay] on strings. *)
Fixpoint str_in (needle hay : string) : bool :=
  String.prefix needle hay ||
  match hay with
  | EmptyString => false
  | String _ hay' => str_in needle hay'
  end.

(** [l[:limit]]: a negative bound counts from the end. *)
Definition slice_to {A} (limit : Z) (l : list A) : list A :=
  if (0 <=? limit)%Z then take (Z.to_nat limit) l
  else take (length l - Z.to_nat (- limit)) l.

(** [l.sort(key=..., reverse=True)], given the strict order [lt] on the
    keys: the sort is stable, so an element moves behind exactly those
    that are strictly greater and behind its equals that came first. *)
Fixpoint insert_desc {A} (lt : A -> A -> bool) (x : A) (l : list A) : list A :=
  match l with
  | [] => [x]
  | y :: l' => if lt x y then y :: insert_desc lt x l' else x :: y :: l'
  end.

Definition sort_desc {A} (lt : A -> A -> bool) (l : list A) : list A :=
  foldr (insert_desc lt) [] l.

(** [a < b] on floats. *)
Definition float_lt (a b : Q) : bool := negb (Qle_bool b a).

(** [str(n)] for an [int]. *)
Definition str_of_int (n : Z) : string := NilZero.string_of_int (Z.to_int n).

(** Exceptions. *)
Inductive exn (A : Type) : Type :=
| Ok (a : A)
| Raise (msg : string).
Arguments Ok {A} a.
Arguments Raise {A} msg.

Definition bind {A B} (m : exn A) (k : A -> exn B) : exn B :=
  match m with
  | Ok a => k a
  | Raise msg => Raise msg
  end.

(** Dictionaries in insertion order. *)
Definition dict (V : Type) : Type := list (string * V).

(** [d.get(k)] *)
Fixpoint dict_get {V} (k : string) (d : dict V) : option V :=
  match d with
  | [] => None
  | (k', v) :: d' => if String.eqb k k' then Some v else dict_get k d'
  end.

(** [k in d] *)
Definition dict_mem {V} (k : string) (d : dict V) : bool :=
  match dict_get k d with Some _ => true | None => false end.

(** [d[k] = v]: an existing key keeps its place, a new one goes last. *)
Fixpoint dict_set {V} (k : string) (v : V) (d : dict V) : dict V :=
  match d with
  | [] => [(k, v)]
  | (k', v') :: d' =>
      if String.eqb k k' then (k, v) :: d' else (k', v') :: dict_set k v d'
  end.

(** [del d[k]] *)
Fixpoint dict_del {V} (k : string) (d : dict V) : dict V :=
  match d with
  | [] => []
  | (k', v') :: d' =>
      if String.eqb k k' then d' else (k', v') :: dict_del k d'
  end.

(** [d[k]], raising [KeyError]. *)
Definition dict_item {V} (k : string) (d : dict V) : exn V :=
  match dict_get k d with
  | Some v => Ok v
  | None => Raise "KeyError"
  end.

End Py.

Notation "'get!' x ':=' m 'in' k" := (Py.bind m (fun x => k))
(at level 10, x name, m at level 100, k at level 200).

(** ** base_memory.py: entries, persisted records, the access log *)

Module Base.
Import Py.

(** A value of a [metadata] dict: a JSON scalar that is not a float. *)
Inductive scalar : Type :=
| SNone
| SBool (b : bool)
| SInt (n : Z)
| SStr (s : string).

(** [str(v)] *)
Definition py_str (v : scalar) : string :=
  match v with
  | SNone => "None"
  | SBool true => "True"
  | SBool false => "False"
  | SInt n => str_of_int n
  | SStr s => s
  end.

(** A value held by a field of a persisted record, or handed to [update]
    in its [updates] dict ([Dict[str, Any]]). *)
Inductive value : Type :=
| VStr (s : string)
| VFloat (q : Q)
| VList (l : list string)
| VDict (d : dict scalar).

(** [v == s] for a [str] [s]: values of another type are unequal to it. *)
Definition value_eq_str (v : value) (s : string) : bool :=
  match v with
  | VStr s' => String.eqb s' s
  | _ => false
  end.

(** A [datetime]: naive, or aware of its offset from UTC. *)
Inductive datetime : Type :=
| Naive (t : Z)
| Aware (t : Z) (utcoffset : Z).
Bind Scope Z_scope with datetime.

(** [datetime.now()] is called without a time zone and returns a naive
    datetime: a clock read [now : Z] is used as [Naive now]. *)
Coercion Naive : Z >-> datetime.

(** [t.tzinfo is not None] *)
Definition aware (t : datetime) : bool :=
  match t with
  | Naive _ => false
  | Aware _ _ => true
  end.

(** [a == b]: two aware datetimes are equal when they are the same
    instant, a naive and an aware one never are. *)
Definition datetime_eqb (a b : datetime) : bool :=
  match a, b with
  | Naive x, Naive y => (x =? y)%Z
  | Aware x o, Aware y o' => (x - o =? y - o')%Z
  | _, _ => false
  end.

(** [a < b], raising [TypeError] between a naive and an aware datetime. *)
Definition datetime_lt (a b : datetime) : exn bool :=
  match a, b with
  | Naive x, Naive y => Ok (x <? y)%Z
  | Aware x o, Aware y o' => Ok (x - o <? y - o')%Z
  | _, _ => Raise "can't compare offset-naive and offset-aware datetimes"
  end.

(** [t.isoformat()]: the offset of an aware datetime follows a ["+"]. *)
Definition isoformat (t : datetime) : string :=
  match t with
  | Naive t => str_of_int t
  | Aware t o => str_of_int t ++ "+" ++ str_of_int o
  end.

Arguments isoformat : simpl never.

(** The text before the first ["+"], and the text behind it if there is
    one. *)
Fixpoint split_offset (s : string) : string * option string :=
  match s with
  | EmptyString => (EmptyString, None)
  | String c s' =>
      if Ascii.eqb c "+" then (EmptyString, Some s')
      else (String c (split_offset s').1, (split_offset s').2)
  end.

Definition int_of_str (s : string) : exn Z :=
  match NilZero.int_of_string s with
  | Some d => Ok (Z.of_int d)
  | None => Raise "ValueError"
  end.

(** [datetime.fromisoformat(s)], raising [ValueError]. *)
Definition fromisoformat (s : string) : exn datetime :=
  match split_offset s with
  | (t, None) => get! t := int_of_str t in Ok (Naive t)
  | (t, Some o) =>
      get! t := int_of_str t in
      get! o := int_of_str o in
      Ok (Aware t o)
  end.

(** [@dataclass class MemoryEntry] *)
Record MemoryEntry : Type := {
  id : string;
  content : string;
  metadata : dict scalar;
  timestamp : datetime;
  agent_id : string;
  tags : list string;
  importance_score : Q
}.

(** A persisted record: the JSON object kept under an entry id. *)
Definition record : Type := dict value.

(** The dict literal that [store] writes under [entry.id]. *)
Definition record_of_entry (entry : MemoryEntry) : record :=
  [ ("content", VStr entry.(content));
    ("metadata", VDict entry.(metadata));
    ("timestamp", VStr (isoformat entry.(timestamp)));
    ("agent_id", VStr entry.(agent_id));
    ("tags", VList entry.(tags));
    ("importance_score", VFloat entry.(importance_score)) ].

(** Reading a field at the type the dataclass declares; a value of
    another type is a failure of the [try] block that reads it. *)
Definition as_str (v : value) : exn string :=
  match v with VStr s => Ok s | _ => Raise "AttributeError" end.
Definition as_float (v : value) : exn Q :=
  match v with VFloat q => Ok q | _ => Raise "TypeError" end.
Definition as_list (v : value) : exn (list string) :=
  match v with VList l => Ok l | _ => Raise "TypeError" end.
Definition as_dict (v : value) : exn (dict scalar) :=
  match v with VDict d => Ok d | _ => Raise "AttributeError" end.

(** The [MemoryEntry(id=entry_id, content=entry_data['content'], ...)]
    call of [retrieve]. *)
Definition entry_of_record (entry_id : string) (entry_data : record)
  : exn MemoryEntry :=
  get! c := bind (dict_item "content" entry_data) as_str in
  get! m := bind (dict_item "metadata" entry_data) as_dict in
  get! s := bind (dict_item "timestamp" entry_data) as_str in
  get! t := fromisoformat s in
  get! a := bind (dict_item "agent_id" entry_data) as_str in
  get! g := bind (dict_item "tags" entry_data) as_list in
  get! i := bind (dict_item "importance_score" entry_data) as_float in
  Ok {| id := entry_id; content := c; metadata := m; timestamp := t;
        agent_id := a; tags := g; importance_score := i |}.

(** A value of the [details] dict of a log record. *)
Inductive detail : Type :=
| DStr (s : string)
| DInt (n : Z)
| DBool (b : bool)
| DList (l : list string).

(** One element of [self.access_log]. *)
Record LogRecord : Type := {
  log_timestamp : datetime;
  operation : string;
  log_agent_id : value;
  details : dict detail
}.

(** [BaseMemorySystem.log_access]; [now] is its [datetime.now()]. *)
Definition log_access (now : Z) (operation : string) (agent_id : value)
    (details : dict detail) (access_log : list LogRecord) : list LogRecord :=
  access_log ++ [ {| log_timestamp := now; operation := operation;
                     log_agent_id := agent_id; details := details |} ].

(** The loop of [update] over [updates.items()]:
    [if key in data[entry_id]: data[entry_id][key] = value]. *)
Definition apply_updates (updates : dict value) (entry_data : record) : record :=
  foldl (fun r kv => if dict_mem kv.1 r then dict_set kv.1 kv.2 r else r)
        entry_data updates.

(** [len(s)] *)
Definition len (s : string) : Z := Z.of_nat (String.length s).

End Base.

(** ** private_memory.py: PrivateMemorySystem *)

Module Private.
Import Py Base.

(** The state of one store: its bound owner, its JSON file, its log. *)
Record PrivateMemorySystem : Type := {
  agent_id : string;
  data : dict record;
  access_log : list LogRecord
}.

Definition with_log (self : PrivateMemorySystem) (l : list LogRecord)
  : PrivateMemorySystem :=
  {| agent_id := self.(agent_id); data := self.(data); access_log := l |}.

(** [PrivateMemorySystem.store] *)
Definition store (now : Z) (entry : MemoryEntry)
    (self : PrivateMemorySystem) : bool * PrivateMemorySystem :=
  if negb (String.eqb entry.(Base.agent_id) self.(agent_id)) then
    (false,
     with_log self
       (log_access now "store_denied" (VStr entry.(Base.agent_id))
          [ ("entry_id", DStr entry.(id));
            ("reason", DStr "cross_agent_access_denied") ]
          self.(access_log)))
  else
    let data := dict_set entry.(id) (record_of_entry entry) self.(data) in
    (true,
     {| agent_id := self.(agent_id);
        data := data;
        access_log :=
          log_access now "store" (VStr entry.(Base.agent_id))
            [ ("entry_id", DStr entry.(id));
              ("content_length", DInt (len entry.(content)));
              ("tags", DList entry.(tags)) ]
            self.(access_log) |}).

(** The condition of the search loop of [retrieve]; [or] and [any] stop
    at the first operand that holds. *)
Definition matches (query_lower : string) (entry_data : record) : exn bool :=
  get! c := bind (dict_item "content" entry_data) as_str in
  let content_lower := lower c in
  if str_in query_lower content_lower then Ok true
  else
    get! g := bind (dict_item "tags" entry_data) as_list in
    if existsb (fun tag => str_in (lower tag) query_lower) g then Ok true
    else
      get! m := bind (dict_item "metadata" entry_data) as_dict in
      Ok (existsb (fun v => str_in query_lower (lower (py_str v)))
                  (map snd m)).

(** The search loop of [retrieve] over [data.items()]. *)
Fixpoint search (query_lower : string) (data : dict record)
  : exn (list MemoryEntry) :=
  match data with
  | [] => Ok []
  | (entry_id, entry_data) :: data' =>
      get! hit := matches query_lower entry_data in
      if hit then
        get! entry := entry_of_record entry_id entry_data in
        get! results := search query_lower data' in
        Ok (entry :: results)
      else search query_lower data'
  end.

(** [<] on the sort key [(x.importance_score, x.timestamp)]: tuples are
    compared at their first components that are not equal. *)
Definition key_lt (x y : MemoryEntry) : exn bool :=
  if Qeq_bool x.(importance_score) y.(importance_score) then
    if datetime_eqb x.(timestamp) y.(timestamp) then Ok false
    else datetime_lt x.(timestamp) y.(timestamp)
  else Ok (float_lt x.(importance_score) y.(importance_score)).

Definition comparable (x y : MemoryEntry) : bool :=
  match key_lt x y with
  | Ok _ => true
  | Raise _ => false
  end.

Fixpoint all_comparable (results : list MemoryEntry) : bool :=
  match results with
  | [] => true
  | x :: results' =>
      forallb (fun y => comparable x y && comparable y x) results'
      && all_comparable results'
  end.

(** [key_lt] where it does not raise. *)
Definition key_ltb (x y : MemoryEntry) : bool :=
  match key_lt x y with
  | Ok b => b
  | Raise _ => false
  end.

(** [results.sort(key=lambda x: (x.importance_score, x.timestamp),
    reverse=True)].  Two keys cannot be compared exactly when the scores
    are equal and one timestamp is naive, the other aware.  Among the
    results of one score every naive timestamp is then incomparable with
    every aware one, so no sequence of comparisons can order a list that
    holds such a pair: the sort raises the [TypeError] of the comparison.
    On a list without such a pair [<] is a strict weak order and the sort
    is the stable one. *)
Definition sort_by_key (results : list MemoryEntry) : exn (list MemoryEntry) :=
  if all_comparable results then Ok (sort_desc key_ltb results)
  else Raise "can't compare offset-naive and offset-aware datetimes".

(** [PrivateMemorySystem.retrieve] *)
Definition retrieve (now : Z) (query agent_id : string) (limit : Z)
    (self : PrivateMemorySystem) : list MemoryEntry * PrivateMemorySystem :=
  if negb (String.eqb agent_id self.(Private.agent_id)) then
    ([],
     with_log self
       (log_access now "retrieve_denied" (VStr agent_id)
          [ ("query", DStr query);
            ("reason", DStr "cross_agent_access_denied") ]
          self.(access_log)))
  else
    match (get! results := search (lower query) self.(data) in
           sort_by_key results) with
    | Ok results =>
        let results := slice_to limit results in
        (results,
         with_log self
           (log_access now "retrieve" (VStr agent_id)
              [ ("query", DStr query);
                ("results_found", DInt (Z.of_nat (length results)));
                ("cross_agent_access", DBool false);
                ("limit", DInt limit) ]
              self.(access_log)))
    | Raise e =>
        ([],
         with_log self
           (log_access now "retrieve_error" (VStr agent_id)
              [ ("query", DStr query); ("error", DStr e) ]
              self.(access_log)))
    end.

(** [PrivateMemorySystem.update]; [now] is the clock read for the new
    timestamp, [now_log] the one of [log_access]. *)
Definition update (now now_log : Z) (entry_id : string)
    (updates : dict value) (self : PrivateMemorySystem)
  : bool * PrivateMemorySystem :=
  match dict_get entry_id self.(data) with
  | None => (false, self)
  | Some entry_data =>
      match dict_item "agent_id" entry_data with
      | Raise _ => (false, self)
      | Ok writer =>
          if negb (value_eq_str writer self.(agent_id)) then (false, self)
          else
            let entry_data := apply_updates updates entry_data in
            let entry_data :=
              dict_set "timestamp" (VStr (isoformat now)) entry_data in
            (true,
             {| agent_id := self.(agent_id);
                data := dict_set entry_id entry_data self.(data);
                access_log :=
                  log_access now_log "update" (VStr self.(agent_id))
                    [ ("entry_id", DStr entry_id);
                      ("updates", DList (map fst updates)) ]
                    self.(access_log) |})
      end
  end.

(** [PrivateMemorySystem.delete] *)
Definition delete (now : Z) (entry_id : string)
    (self : PrivateMemorySystem) : bool * PrivateMemorySystem :=
  match dict_get entry_id self.(data) with
  | None => (false, self)
  | Some entry_data =>
      match dict_item "agent_id" entry_data with
      | Raise _ => (false, self)
      | Ok writer =>
          if negb (value_eq_str writer self.(agent_id)) then (false, self)
          else
            (true,
             {| agent_id := self.(agent_id);
                data := dict_del entry_id self.(data);
                access_log :=
                  log_access now "delete" (VStr self.(agent_id))
                    [ ("entry_id", DStr entry_id) ]
                    self.(access_log) |})
      end
  end.

End Private.

(** ** shared_memory.py: SharedMemorySystem

  The store is modelled with [self.collection = None], that is, without
  a ChromaDB server: the branches guarded by
  [self.collection is not None] are not taken and [retrieve] runs its
  keyword search. *)

Module Shared.
Import Py Base.

Record SharedMemorySystem : Type := {
  data : dict record;
  access_log : list LogRecord
}.

(** [SharedMemorySystem.store] *)
Definition store (now : Z) (entry : MemoryEntry)
    (self : SharedMemorySystem) : bool * SharedMemorySystem :=
  let data := dict_set entry.(id) (record_of_entry entry) self.(data) in
  (true,
   {| data := data;
      access_log :=
        log_access now "store" (VStr entry.(agent_id))
          [ ("entry_id", DStr entry.(id));
            ("content_length", DInt (len entry.(content)));
            ("tags", DList entry.(tags)) ]
          self.(access_log) |}).

(** The condition of the keyword search of [retrieve]. *)
Definition matches (query_lower : string) (entry_data : record) : exn bool :=
  get! c := bind (dict_item "content" entry_data) as_str in
  let content_lower := lower c in
  if str_in query_lower content_lower then Ok true
  else
    get! g := bind (dict_item "tags" entry_data) as_list in
    Ok (existsb (fun tag => str_in (lower tag) query_lower) g).

(** The keyword search of [retrieve] over [data.items()]. *)
Fixpoint search (query_lower : string) (data : dict record)
  : exn (list MemoryEntry) :=
  match data with
  | [] => Ok []
  | (entry_id, entry_data) :: data' =>
      get! hit := matches query_lower entry_data in
      if hit then
        get! entry := entry_of_record entry_id entry_data in
        get! results := search query_lower data' in
        Ok (entry :: results)
      else search query_lower data'
  end.

(** [<] on the sort key [x.importance_score]. *)
Definition key_lt (x y : MemoryEntry) : bool :=
  float_lt x.(importance_score) y.(importance_score).

(** [SharedMemorySystem.retrieve] *)
Definition retrieve (now : Z) (query agent_id : string) (limit : Z)
    (self : SharedMemorySystem) : list MemoryEntry * SharedMemorySystem :=
  match search (lower query) self.(data) with
  | Ok results =>
      let results := sort_desc key_lt results in
      let results := slice_to limit results in
      let cross_agent_access :=
        existsb (fun entry => negb (String.eqb entry.(Base.agent_id) agent_id))
                results in
      (results,
       {| data := self.(data);
          access_log :=
            log_access now "retrieve" (VStr agent_id)
              [ ("query", DStr query);
                ("results_found", DInt (Z.of_nat (length results)));
                ("cross_agent_access", DBool cross_agent_access);
                ("limit", DInt limit) ]
              self.(access_log) |})
  | Raise e =>
      ([],
       {| data := self.(data);
          access_log :=
            log_access now "retrieve_error" (VStr agent_id)
              [ ("query", DStr query); ("error", DStr e) ]
              self.(access_log) |})
  end.

(** [SharedMemorySystem.update]: the file is saved before the log
    record reads [data[entry_id]['agent_id']]. *)
Definition update (now now_log : Z) (entry_id : string)
    (updates : dict value) (self : SharedMemorySystem)
  : bool * SharedMemorySystem :=
  match dict_get entry_id self.(data) with
  | None => (false, self)
  | Some entry_data =>
      let entry_data := apply_updates updates entry_data in
      let entry_data :=
        dict_set "timestamp" (VStr (isoformat now)) entry_data in
      let data := dict_set entry_id entry_data self.(data) in
      match dict_item "agent_id" entry_data with
      | Ok writer =>
          (true,
           {| data := data;
              access_log :=
                log_access now_log "update" writer
                  [ ("entry_id", DStr entry_id);
                    ("updates", DList (map fst updates)) ]
                  self.(access_log) |})
      | Raise _ => (false, {| data := data; access_log := self.(access_log) |})
      end
  end.

(** [SharedMemorySystem.delete] *)
Definition delete (now : Z) (entry_id : string)
    (self : SharedMemorySystem) : bool * SharedMemorySystem :=
  match dict_get entry_id self.(data) with
  | None => (false, self)
  | Some entry_data =>
      match dict_item "agent_id" entry_data with
      | Raise _ => (false, self)
      | Ok writer =>
          (true,
           {| data := dict_del entry_id self.(data);
              access_log :=
                log_access now "delete" writer
                  [ ("entry_id", DStr entry_id) ]
                  self.(access_log) |})
      end
  end.

End Shared.


(** ** enhanced_collective_memory.py: IntelligentInsightFilter *)

Module Filter.
Import Py Base.
Local Open Scope Q_scope.

(** An object handed to the filter: a [MemoryEntry] (what the stores
    return) or an [EnhancedMemoryEntry].  [success_rate] and [usage_count]
    are read with [getattr(x, ..., default)] and are [None] on an object
    without the attribute; [quality_score] and [context_similarity] are
    assigned by [filter_insights] before it reads them. *)
Record Insight : Type := {
  entry : MemoryEntry;
  quality_score : Q;
  context_similarity : Q;
  success_rate : option Q;
  usage_count : option Z
}.

Record IntelligentInsightFilter : Type := {
  min_quality_score : Q;
  max_insights : Z
}.

(** [sum(1 for w in words if w.lower() in insight.lower())] *)
Definition count_present (words : list string) (insight : string) : Z :=
  Z.of_nat (length (List.filter (fun w => str_in (lower w) (lower insight)) words)).

Definition specific_terms : list string :=
  ["algorithm"; "pattern"; "optimization"; "error"; "solution"; "approach"].

Definition action_words : list string :=
  ["implement"; "use"; "apply"; "consider"; "avoid"; "ensure"; "check"].

(** The four quality factors of [calculate_insight_quality]. *)
Definition length_score (insight : string) : Q :=
  Qmin 1 (inject_Z (len insight) / 200)
  * (1 - Qmax 0 ((inject_Z (len insight) - 500) / 1000)).

Definition specificity_score (insight : string) : Q :=
  inject_Z (count_present specific_terms insight)
  / inject_Z (Z.of_nat (length specific_terms)).

Definition code_score (insight : string) : Q :=
  if str_in "```" insight || str_in "def " insight || str_in "class " insight
  then 1 else 0.5.

Definition action_score (insight : string) : Q :=
  Qmin 1 (inject_Z (count_present action_words insight) / 3).

(** [np.mean(quality_factors)] *)
Definition mean (l : list Q) : Q :=
  foldr Qplus 0 l / inject_Z (Z.of_nat (length l)).

(** [IntelligentInsightFilter.calculate_insight_quality] *)
Definition calculate_insight_quality (insight context : string) : Q :=
  let quality_factors :=
    [ length_score insight; specificity_score insight;
      code_score insight; action_score insight ] in
  mean quality_factors.

(** A character matched by [\w]. *)
Definition is_word (c : ascii) : bool :=
  let n := N_of_ascii c in
  ((48 <=? n) && (n <=? 57) || (65 <=? n) && (n <=? 90)
   || (97 <=? n) && (n <=? 122) || (n =? 95))%N.

(** [re.findall(r'\w+', s)]: the maximal runs of word characters; [cur]
    is the run being read. *)
Fixpoint findall_words (cur s : string) : list string :=
  match s with
  | EmptyString => if String.eqb cur "" then [] else [cur]
  | String c s' =>
      if is_word c then findall_words (cur ++ String c "") s'
      else if String.eqb cur "" then findall_words "" s'
      else cur :: findall_words "" s'
  end.

(** [set(re.findall(r'\w+', s.lower()))] *)
Definition word_set (s : string) : gset string :=
  list_to_set (findall_words "" (lower s)).

(** [IntelligentInsightFilter._calculate_context_similarity] *)
Definition _calculate_context_similarity (insight context : string) : Q :=
  let insight_words := word_set insight in
  let context_words := word_set context in
  if decide (insight_words = ∅ ∨ context_words = ∅) then 0
  else
    let intersection := insight_words ∩ context_words in
    let union := insight_words ∪ context_words in
    if decide (union = ∅) then 0
    else inject_Z (Z.of_nat (size intersection))
         / inject_Z (Z.of_nat (size union)).

(** The sort key of [filter_insights]. *)
Definition combined_score (x : Insight) : Q :=
  x.(quality_score) * 0.4
  + x.(context_similarity) * 0.3
  + default 1 x.(success_rate) * 0.2
  + Qmin 1 (inject_Z (default 0%Z x.(usage_count)) / 10) * 0.1.

(** The floats that the code computes are rationals, but not always the
    ones that exact arithmetic gives ([np.mean] and the sort key round).
    [rate_with] and [filter_insights_with] are the two loops, the filter,
    the sort and the slice of [filter_insights] over any computation of
    the quality score, of the context similarity and of the sort key;
    [rate] and [filter_insights] are their instances with the exact
    scores above. *)

(** The two assignments of the first loop of [filter_insights]. *)
Definition rate_with (quality similarity : string -> string -> Q)
    (context : string) (insight : Insight) : Insight :=
  {| entry := insight.(entry);
     quality_score := quality insight.(entry).(content) context;
     context_similarity := similarity insight.(entry).(content) context;
     success_rate := insight.(success_rate);
     usage_count := insight.(usage_count) |}.

Definition filter_insights_with (quality similarity : string -> string -> Q)
    (key : Insight -> Q) (self : IntelligentInsightFilter)
    (insights : list Insight) (context : string) : list Insight :=
  let insights := map (rate_with quality similarity context) insights in
  let filtered :=
    List.filter (fun i => Qle_bool self.(min_quality_score) i.(quality_score))
                insights in
  let filtered :=
    sort_desc (fun x y => float_lt (key x) (key y)) filtered in
  slice_to self.(max_insights) filtered.

Definition rate : string -> Insight -> Insight :=
  rate_with calculate_insight_quality _calculate_context_similarity.

(** [IntelligentInsightFilter.filter_insights] *)
Definition filter_insights : IntelligentInsightFilter -> list Insight ->
                             string -> list Insight :=
  filter_insights_with calculate_insight_quality _calculate_context_similarity
                       combined_score.

End Filter.

(** ** enhanced_collective_memory.py: DomainSpecificMemory *)

Module Domain.
Import Py Base.

(** [@dataclass class EnhancedMemoryEntry(MemoryEntry)] *)
Record EnhancedMemoryEntry : Type := {
  base : MemoryEntry;
  domain : string;
  quality_score : Q;
  usage_count : Z;
  success_rate : Q;
  context_similarity : Q;
  federation_source : option string
}.

(** [self.domain_patterns], in declaration order. *)
Definition domain_patterns : dict (list string) :=
  [ ("algorithms",
     ["sort"; "search"; "tree"; "graph"; "dynamic programming"; "recursion"]);
    ("data_structures", ["list"; "dict"; "array"; "stack"; "queue"; "heap"]);
    ("string_processing", ["string"; "text"; "parse"; "regex"; "format"]);
    ("mathematics",
     ["math"; "calculation"; "formula"; "number"; "factorial"; "prime"]);
    ("validation", ["validate"; "check"; "verify"; "test"; "assert"; "error"]);
    ("optimization",
     ["optimize"; "efficient"; "performance"; "speed"; "memory usage"]) ].

(** [sum(1 for pattern in patterns if pattern in content_lower)] *)
Definition pattern_score (patterns : list string) (content_lower : string) : Z :=
  Z.of_nat (length (List.filter (fun pattern => str_in pattern content_lower)
                                patterns)).

(** The loop of [classify_domain] that fills [domain_scores]. *)
Definition score_domains (content_lower : string) : dict Z :=
  foldl (fun domain_scores dp =>
           let score := pattern_score dp.2 content_lower in
           if (0 <? score)%Z then dict_set dp.1 score domain_scores
           else domain_scores)
        [] domain_patterns.

(** [max(items, key=lambda x: x[1])] over a non-empty sequence whose
    first item is [best]: a later item wins only with a greater key. *)
Fixpoint max_by_score (best : string * Z) (items : list (string * Z))
  : string * Z :=
  match items with
  | [] => best
  | x :: items' =>
      max_by_score (if (best.2 <? x.2)%Z then x else best) items'
  end.

(** [DomainSpecificMemory.classify_domain] *)
Definition classify_domain (content : string) : string :=
  let content_lower := lower content in
  match score_domains content_lower with
  | [] => "general"
  | x :: items => (max_by_score x items).1
  end.

(** The router: the JSON files found under [base_path], by domain, and
    the stores created so far. *)
Record DomainSpecificMemory : Type := {
  base_path : dict (dict record);
  domain_memories : dict Shared.SharedMemorySystem
}.

(** [DomainSpecificMemory.get_domain_memory]: a new store reads the file
    of its domain, or starts the file empty. *)
Definition get_domain_memory (domain : string) (self : DomainSpecificMemory)
  : Shared.SharedMemorySystem * DomainSpecificMemory :=
  match dict_get domain self.(domain_memories) with
  | Some m => (m, self)
  | None =>
      let m := {| Shared.data := default [] (dict_get domain self.(base_path));
                  Shared.access_log := [] |} in
      (m, {| base_path := self.(base_path);
             domain_memories := dict_set domain m self.(domain_memories) |})
  end.

(** [DomainSpecificMemory.store_domain_insight]; the second component is
    the insight after [insight.domain = domain]; [now] is the clock read
    by the store's log. *)
Definition store_domain_insight (now : Z) (insight : EnhancedMemoryEntry)
    (self : DomainSpecificMemory)
  : bool * EnhancedMemoryEntry * DomainSpecificMemory :=
  let domain := classify_domain insight.(base).(content) in
  let insight :=
    {| base := insight.(base); domain := domain;
       quality_score := insight.(quality_score);
       usage_count := insight.(usage_count);
       success_rate := insight.(success_rate);
       context_similarity := insight.(context_similarity);
       federation_source := insight.(federation_source) |} in
  let '(domain_memory, self) := get_domain_memory domain self in
  let '(ok, domain_memory) := Shared.store now insight.(base) domain_memory in
  (ok, insight,
   {| base_path := self.(base_path);
      domain_memories := dict_set domain domain_memory self.(domain_memories) |}).

End Domain.

(** ** enhanced_collective_memory.py: MemoryFederation *)

Module Federation.
Import Py Base Domain.

(** [self.federation_config]; only ["quality_threshold"] is read by the
    two operations below. *)
Record MemoryFederation : Type := {
  quality_threshold : Q
}.

(** One element of the ["insights"] list of a bundle. *)
Record InsightData : Type := {
  content : string;
  domain : string;
  quality_score : Q;
  success_rate : Q;
  tags : list string;
  metadata : dict scalar
}.

(** The JSON document written by [export_insights]. *)
Record ExportData : Type := {
  organization_id : string;
  timestamp : string;
  insights : list InsightData
}.

(** The dict appended to [export_data["insights"]]. *)
Definition insight_data (insight : EnhancedMemoryEntry) : InsightData :=
  {| content := insight.(base).(Base.content);
     domain := insight.(Domain.domain);
     quality_score := insight.(Domain.quality_score);
     success_rate := insight.(Domain.success_rate);
     tags := insight.(base).(Base.tags);
     metadata := insight.(base).(Base.metadata) |}.

(** [MemoryFederation.export_insights]: the document it writes. *)
Definition export_insights (now : Z) (self : MemoryFederation)
    (insights : list EnhancedMemoryEntry) (organization_id : string)
  : ExportData :=
  {| organization_id := organization_id;
     timestamp := isoformat now;
     insights :=
       map insight_data
         (List.filter
            (fun insight =>
               Qle_bool self.(quality_threshold) insight.(Domain.quality_score))
            insights) |}.

(** The [EnhancedMemoryEntry(...)] call of [import_insights]; the fields
    it does not name take the defaults of the dataclasses. *)
Definition federated_entry (uuid : string) (now : Z)
    (organization_id : string) (insight_data : InsightData)
  : EnhancedMemoryEntry :=
  {| base := {| Base.id := uuid;
                Base.content := insight_data.(content);
                Base.metadata := insight_data.(metadata);
                Base.timestamp := now;
                Base.agent_id := "federated";
                Base.tags := insight_data.(tags);
                Base.importance_score := 0 |};
     Domain.domain := insight_data.(domain);
     Domain.quality_score := insight_data.(quality_score);
     Domain.usage_count := 0;
     Domain.success_rate := insight_data.(success_rate);
     Domain.context_similarity := 0;
     Domain.federation_source := Some organization_id |}.

(** The loop of [import_insights] from its [n]-th round on.  Round [k]
    draws [uuid4 k] and reads the clock twice: [clock (2 * k)] for the
    entry, [clock (2 * k + 1)] in the store's log.  The code returns the
    count and changes the pool; the second component lists, round by
    round, the object that the round built, as [store_domain_insight]
    left it (the loop drops it at the end of the round). *)
Fixpoint import_loop (uuid4 : nat -> string) (clock : nat -> Z)
    (organization_id : string) (n : nat) (insights : list InsightData)
    (target_memory : DomainSpecificMemory) (imported_count : Z)
  : Z * list EnhancedMemoryEntry * DomainSpecificMemory :=
  match insights with
  | [] => (imported_count, [], target_memory)
  | insight_data :: insights' =>
      let insight :=
        federated_entry (uuid4 n) (clock (2 * n)%nat) organization_id
                        insight_data in
      let '(ok, insight, target_memory) :=
        store_domain_insight (clock (2 * n + 1)%nat) insight target_memory in
      let '(imported_count, built, target_memory) :=
        import_loop uuid4 clock organization_id (S n) insights' target_memory
          (if ok then (imported_count + 1)%Z else imported_count) in
      (imported_count, insight :: built, target_memory)
  end.

(** [MemoryFederation.import_insights] on the document read from
    [import_file]. *)
Definition import_insights (uuid4 : nat -> string) (clock : nat -> Z)
    (import_data : ExportData) (target_memory : DomainSpecificMemory)
  : Z * list EnhancedMemoryEntry * DomainSpecificMemory :=
  import_loop uuid4 clock import_data.(organization_id) 0
    import_data.(insights) target_memory 0%Z.

End Federation.

(** ** Vocabulary of the statements and the scenarios they are tried on *)

Module Scenario.
Import Py Base.

(** The writer recorded in the persisted record of [entry_id]. *)
Definition agent_id_of (entry_id : string) (data : dict record) : option value :=
  match dict_get entry_id data with
  | Some entry_data => dict_get "agent_id" entry_data
  | None => None
  end.

(** A sequence of [update(entry_id, updates)] calls, each with its two
    clock reads, on a Shared Store and on a Private Store. *)
Definition shared_updates (entry_id : string)
    (calls : list (Z * Z * dict value))
    (s : Shared.SharedMemorySystem) : Shared.SharedMemorySystem :=
  foldl (fun s c => (Shared.update c.1.1 c.1.2 entry_id c.2 s).2) s calls.

Definition private_updates (entry_id : string)
    (calls : list (Z * Z * dict value))
    (s : Private.PrivateMemorySystem) : Private.PrivateMemorySystem :=
  foldl (fun s c => (Private.update c.1.1 c.1.2 entry_id c.2 s).2) s calls.

(** What [update] at clock [now] with [updates] makes of a record [r]:
    the timestamp is the ISO text of [now]; any other key of [r] that
    [updates] binds takes the bound value; a key that [r] lacks stays
    absent; the remaining keys keep their values. *)
Definition updated_record (now : Z) (updates : dict value)
    (r r' : record) : Prop :=
  dict_get "timestamp" r' = Some (VStr (isoformat now))
  /\ map fst r' = map fst (dict_set "timestamp" (VStr (isoformat now)) r)
  /\ forall key, key <> "timestamp" ->
       dict_get key r' =
       match dict_get key updates with
       | Some v => if dict_mem key r then Some v else None
       | None => dict_get key r
       end.

(** A persisted record from which [retrieve] can rebuild an entry: it has
    the six fields, each of the type the dataclass declares. *)
Definition is_entry (r : record) : bool :=
  match entry_of_record "" r with
  | Ok _ => true
  | Raise _ => false
  end.

Definition all_entries (data : dict record) : Prop :=
  Forall (fun kv => is_entry kv.2 = true) data.

(** Whether the timestamp kept in a persisted record is that of an
    aware datetime; [None] when the record holds no readable timestamp. *)
Definition record_aware (r : record) : option bool :=
  match bind (bind (dict_item "timestamp" r) as_str) fromisoformat with
  | Ok t => Some (aware t)
  | Raise _ => None
  end.

(** The count by which two datetimes of one kind are ordered: the wall
    clock of a naive one, the UTC instant of an aware one. *)
Definition instant (t : datetime) : Z :=
  match t with
  | Naive t => t
  | Aware t o => (t - o)%Z
  end.

(** [<] on [(importance_score, timestamp)] between entries whose
    timestamps are of one kind. *)
Definition newer_key_lt (x y : MemoryEntry) : bool :=
  float_lt x.(importance_score) y.(importance_score)
  || (Qeq_bool x.(importance_score) y.(importance_score)
      && (instant x.(timestamp) <? instant y.(timestamp))%Z).

(** The timestamps of the records are all naive ([a] false), or all
    aware ([a] true). *)
Definition timestamps_are (a : bool) (data : dict record) : bool :=
  forallb (fun kv => match record_aware kv.2 with
                     | Some b => Bool.eqb a b
                     | None => false
                     end) data.

(** The timestamps of the records can be compared with one another:
    they are all naive, or all aware. *)
Definition uniform_timestamps (data : dict record) : bool :=
  timestamps_are false data || timestamps_are true data.

(** The query matches the entry: it occurs in the content, or a tag
    occurs in it, both up to case (so a query equal to a tag up to case
    matches). *)
Definition query_matches (query : string) (e : MemoryEntry) : Prop :=
  str_in (lower query) (lower e.(content)) = true
  \/ exists tag, In tag e.(tags) /\ str_in (lower tag) (lower query) = true.

(** The search loop of [retrieve], with its condition as a parameter. *)
Fixpoint search_with (matches : string -> record -> exn bool)
    (query_lower : string) (data : dict record) : exn (list MemoryEntry) :=
  match data with
  | [] => Ok []
  | (entry_id, entry_data) :: data' =>
      get! hit := matches query_lower entry_data in
      if hit then
        get! entry := entry_of_record entry_id entry_data in
        get! results := search_with matches query_lower data' in
        Ok (entry :: results)
      else search_with matches query_lower data'
  end.

(** The entry [X] of the isolation scenario and the store of its owner. *)
Definition entry_X : MemoryEntry :=
  {| id := "X";
     content := "validate input before processing";
     metadata := [("task", SStr "review"); ("round", SInt 2)];
     timestamp := 1000%Z;
     agent_id := "qa_engineer";
     tags := ["validation"];
     importance_score := 0.5 |}.

Definition qa_store : Private.PrivateMemorySystem :=
  {| Private.agent_id := "qa_engineer"; Private.data := [];
     Private.access_log := [] |}.

(** The owner's store after [store(X)]. *)
Definition qa_store_X : Private.PrivateMemorySystem :=
  (Private.store 1001%Z entry_X qa_store).2.

(** The same store after [update("X", {"agent_id": "engineer"})]: the
    record of [X] now names a writer other than the owner. *)
Definition qa_store_foreign : Private.PrivateMemorySystem :=
  (Private.update 1002%Z 1003%Z "X" [("agent_id", VStr "engineer")]
     qa_store_X).2.

Definition shared_store : Shared.SharedMemorySystem :=
  {| Shared.data := []; Shared.access_log := [] |}.

Definition shared_store_X : Shared.SharedMemorySystem :=
  (Shared.store 1001%Z entry_X shared_store).2.

(** Two entries of equal importance, the second one newer. *)
Definition entry_old : MemoryEntry :=
  {| id := "old"; content := "cache results"; metadata := [];
     timestamp := 10%Z; agent_id := "qa_engineer"; tags := [];
     importance_score := 0.5 |}.

Definition entry_new : MemoryEntry :=
  {| id := "new"; content := "cache keys"; metadata := [];
     timestamp := 20%Z; agent_id := "qa_engineer"; tags := [];
     importance_score := 0.5 |}.

Definition records_old_new : dict record :=
  [ ("old", record_of_entry entry_old); ("new", record_of_entry entry_new) ].

(** An entry of the same importance whose timestamp is aware (UTC). *)
Definition entry_utc : MemoryEntry :=
  {| id := "utc"; content := "cache headers"; metadata := [];
     timestamp := Aware 30 0; agent_id := "qa_engineer"; tags := [];
     importance_score := 0.5 |}.

(** Four entries about caching: the first two of equal importance and
    equal timestamps, the first one with a metadata value. *)
Definition entry_a : MemoryEntry :=
  {| id := "a"; content := "cache results";
     metadata := [("task", SStr "caching review")];
     timestamp := 10%Z; agent_id := "qa_engineer"; tags := ["speed"];
     importance_score := 0.5 |}.

Definition entry_b : MemoryEntry :=
  {| id := "b"; content := "Cache keys"; metadata := [];
     timestamp := 10%Z; agent_id := "qa_engineer"; tags := [];
     importance_score := 0.5 |}.

Definition entry_c : MemoryEntry :=
  {| id := "c"; content := "evict the cache"; metadata := [];
     timestamp := 5%Z; agent_id := "qa_engineer"; tags := [];
     importance_score := 0.9 |}.

Definition entry_d : MemoryEntry :=
  {| id := "d"; content := "warm up early"; metadata := [];
     timestamp := 99%Z; agent_id := "qa_engineer"; tags := ["cache"];
     importance_score := 0.2 |}.

Definition records_tied : dict record :=
  [ ("a", record_of_entry entry_a); ("b", record_of_entry entry_b);
    ("c", record_of_entry entry_c); ("d", record_of_entry entry_d) ].

(** A pool without files and without stores. *)
Definition fresh_pool : Domain.DomainSpecificMemory :=
  {| Domain.base_path := []; Domain.domain_memories := [] |}.

(** The record kept under [entry_id] in the partition of [domain]: in
    the store of the domain, or in its file while no store is open. *)
Definition pool_record (domain entry_id : string)
    (pool : Domain.DomainSpecificMemory) : option record :=
  match dict_get domain pool.(Domain.domain_memories) with
  | Some m => dict_get entry_id m.(Shared.data)
  | None =>
      match dict_get domain pool.(Domain.base_path) with
      | Some file => dict_get entry_id file
      | None => None
      end
  end.

(** An id generator and a clock for the federation scenario. *)
Definition uuid4 (n : nat) : string := "uuid-" ++ str_of_int (Z.of_nat n).
Definition clock (n : nat) : Z := (5000 + Z.of_nat n)%Z.

(** Two entries of an exporting organization: one that was never routed
    (its domain is the default one), one below the export threshold. *)
Definition insight_search : Domain.EnhancedMemoryEntry :=
  {| Domain.base :=
       {| id := "i1"; content := "binary search on sorted arrays";
          metadata := [("source_task", SStr "lookup")]; timestamp := 100%Z;
          agent_id := "engineer"; tags := ["algorithms"];
          importance_score := 0.5 |};
     Domain.domain := "general";
     Domain.quality_score := 0.9;
     Domain.usage_count := 2%Z;
     Domain.success_rate := 0.5;
     Domain.context_similarity := 0;
     Domain.federation_source := None |}.

Definition insight_weak : Domain.EnhancedMemoryEntry :=
  {| Domain.base :=
       {| id := "i2"; content := "validate input before processing";
          metadata := []; timestamp := 101%Z;
          agent_id := "engineer"; tags := ["validation"];
          importance_score := 0.5 |};
     Domain.domain := "validation";
     Domain.quality_score := 0.3;
     Domain.usage_count := 0%Z;
     Domain.success_rate := 0;
     Domain.context_similarity := 0;
     Domain.federation_source := None |}.

(** An entry that no domain claims, found through its tag. *)
Definition insight_halve : Domain.EnhancedMemoryEntry :=
  {| Domain.base :=
       {| id := "i3"; content := "halve the interval at each step";
          metadata := []; timestamp := 102%Z;
          agent_id := "engineer"; tags := ["binary"];
          importance_score := 0.9 |};
     Domain.domain := "general";
     Domain.quality_score := 0.8;
     Domain.usage_count := 0%Z;
     Domain.success_rate := 0;
     Domain.context_similarity := 0;
     Domain.federation_source := None |}.

Definition federation : Federation.MemoryFederation :=
  {| Federation.quality_threshold := 0.7 |}.

(** Four candidates for the filter: a short note, the entry [X], a
    hint with specific terms and action words, and one with code. *)
Definition candidates : list Filter.Insight :=
  [ {| Filter.entry := entry_old;
       Filter.quality_score := 0%Q; Filter.context_similarity := 0%Q;
       Filter.success_rate := None; Filter.usage_count := None |};
    {| Filter.entry := entry_X;
       Filter.quality_score := 0%Q; Filter.context_similarity := 0%Q;
       Filter.success_rate := Some 0.5%Q; Filter.usage_count := Some 3%Z |};
    {| Filter.entry :=
         {| id := "hint";
            content := "use the algorithm pattern to check the error";
            metadata := []; timestamp := 30%Z; agent_id := "engineer";
            tags := []; importance_score := 0.5%Q |};
       Filter.quality_score := 0%Q; Filter.context_similarity := 0%Q;
       Filter.success_rate := None; Filter.usage_count := None |};
    {| Filter.entry :=
         {| id := "code";
            content :=
              "def solve(): apply the optimization approach and ensure the solution";
            metadata := []; timestamp := 40%Z; agent_id := "engineer";
            tags := []; importance_score := 0.5%Q |};
       Filter.quality_score := 0%Q; Filter.context_similarity := 0%Q;
       Filter.success_rate := Some 1%Q; Filter.usage_count := Some 20%Z |} ].

(** An insight of 2500 characters. *)
Definition long_insight : string :=
  string_of_list_ascii (replicate 2500 "a"%char).

End Scenario.

(** ** base_memory.py: NoMemorySystem *)

Module NoMemory.
Import Py Base.

(** The baseline store keeps a log and nothing else. *)
Record NoMemorySystem : Type := {
  access_log : list LogRecord
}.

(** [NoMemorySystem.store] *)
Definition store (now : Z) (entry : MemoryEntry) (self : NoMemorySystem)
  : bool * NoMemorySystem :=
  (true,
   {| access_log :=
        log_access now "store_attempted" (VStr entry.(agent_id))
          [ ("entry_id", DStr entry.(id)) ] self.(access_log) |}).

(** [NoMemorySystem.retrieve] *)
Definition retrieve (now : Z) (query agent_id : string) (limit : Z)
    (self : NoMemorySystem) : list MemoryEntry * NoMemorySystem :=
  ([],
   {| access_log :=
        log_access now "retrieve" (VStr agent_id)
          [ ("query", DStr query); ("limit", DInt limit) ]
          self.(access_log) |}).

(** [NoMemorySystem.update] *)
Definition update (entry_id : string) (updates : dict value)
    (self : NoMemorySystem) : bool * NoMemorySystem :=
  (true, self).

(** [NoMemorySystem.delete] *)
Definition delete (entry_id : string) (self : NoMemorySystem)
  : bool * NoMemorySystem :=
  (true, self).

End NoMemory.

(** ** base_memory.py: get_access_stats and MemoryMetrics *)

Module Metrics.
Import Py Base.
Local Open Scope Q_scope.

(** A dict key must be hashable: a list or a dict raises [TypeError]. *)
Definition hashable (v : value) : bool :=
  match v with
  | VStr _ | VFloat _ => true
  | VList _ | VDict _ => false
  end.

(** [a == b] on two keys. *)
Definition key_eqb (a b : value) : bool :=
  match a, b with
  | VStr s, VStr t => String.eqb s t
  | VFloat p, VFloat q => Qeq_bool p q
  | _, _ => false
  end.

(** [agents[agent] = agents.get(agent, 0) + 1] on a dict whose keys are
    values: a key that is present keeps its place, a new one goes last. *)
Fixpoint bump (agent : value) (agents : list (value * Z)) : list (value * Z) :=
  match agents with
  | [] => [(agent, 1%Z)]
  | (a, n) :: agents' =>
      if key_eqb agent a then (a, (n + 1)%Z) :: agents'
      else (a, n) :: bump agent agents'
  end.

(** The dict returned by [get_access_stats]. *)
Record AccessStats : Type := {
  total_accesses : Z;
  operations : dict Z;
  agents : list (value * Z);
  access_log : list LogRecord
}.

(** The loop of [get_access_stats] over [self.access_log]. *)
Fixpoint tally (logs : list LogRecord) (operations : dict Z)
    (agents : list (value * Z)) : exn (dict Z * list (value * Z)) :=
  match logs with
  | [] => Ok (operations, agents)
  | log :: logs' =>
      let op := log.(operation) in
      let agent := log.(log_agent_id) in
      let operations :=
        dict_set op (default 0%Z (dict_get op operations) + 1)%Z operations in
      if hashable agent then tally logs' operations (bump agent agents)
      else Raise "TypeError"
  end.

(** [BaseMemorySystem.get_access_stats] *)
Definition get_access_stats (access_log : list LogRecord) : exn AccessStats :=
  get! counts := tally access_log [] [] in
  Ok {| total_accesses := Z.of_nat (length access_log);
        operations := counts.1;
        agents := counts.2;
        access_log := access_log |}.

(** [d > 0] for a value of a [details] dict. *)
Definition positive (d : detail) : exn bool :=
  match d with
  | DInt n => Ok (0 <? n)%Z
  | DBool b => Ok b
  | DStr _ | DList _ => Raise "TypeError"
  end.

(** The truth value of a value of a [details] dict. *)
Definition truthy (d : detail) : bool :=
  match d with
  | DInt n => negb (n =? 0)%Z
  | DBool b => b
  | DStr s => negb (String.eqb s "")
  | DList l => match l with [] => false | _ => true end
  end.

(** [sum(1 for log in logs if log['details'].get('results_found', 0) > 0)] *)
Fixpoint count_successful (logs : list LogRecord) : exn Z :=
  match logs with
  | [] => Ok 0%Z
  | log :: logs' =>
      get! hit := positive (default (DInt 0) (dict_get "results_found"
                                                       log.(details))) in
      get! n := count_successful logs' in
      Ok (if hit then n + 1 else n)%Z
  end.

(** [MemoryMetrics.calculate_redundancy_reduction] *)
Definition calculate_redundancy_reduction (access_logs : list LogRecord)
  : exn Q :=
  let retrieval_queries :=
    List.filter (fun log => String.eqb log.(operation) "retrieve")
                access_logs in
  match retrieval_queries with
  | [] => Ok 0
  | _ =>
      get! successful_retrievals := count_successful retrieval_queries in
      Ok (inject_Z successful_retrievals
          / inject_Z (Z.of_nat (length retrieval_queries)) * 100)
  end.

(** The loop of [calculate_knowledge_reuse_rate]: the pair
    [(cross_agent_retrievals, total_retrievals)]. *)
Fixpoint count_cross_agent (logs : list LogRecord) (cross total : Z) : Z * Z :=
  match logs with
  | [] => (cross, total)
  | log :: logs' =>
      if String.eqb log.(operation) "retrieve" then
        let total := (total + 1)%Z in
        if truthy (default (DBool false)
                           (dict_get "cross_agent_access" log.(details)))
        then count_cross_agent logs' (cross + 1)%Z total
        else count_cross_agent logs' cross total
      else count_cross_agent logs' cross total
  end.

(** [MemoryMetrics.calculate_knowledge_reuse_rate] *)
Definition calculate_knowledge_reuse_rate (access_logs : list LogRecord) : Q :=
  let '(cross_agent_retrievals, total_retrievals) :=
    count_cross_agent access_logs 0 0 in
  if (0 <? total_retrievals)%Z
  then inject_Z cross_agent_retrievals / inject_Z total_retrievals * 100
  else 0.

(** The dict returned by [calculate_memory_utilization]. *)
Record Utilization : Type := {
  read_write_ratio : Q;
  total_operations : Z;
  unique_agents : Z;
  avg_ops_per_agent : Q
}.

(** [MemoryMetrics.calculate_memory_utilization], on the log of the
    memory system. *)
Definition calculate_memory_utilization (access_log : list LogRecord)
  : exn Utilization :=
  get! stats := get_access_stats access_log in
  let reads := default 0%Z (dict_get "retrieve" stats.(operations)) in
  let writes := default 0%Z (dict_get "store" stats.(operations)) in
  let total_ops := (reads + writes)%Z in
  Ok {| read_write_ratio :=
          if (0 <? writes)%Z then inject_Z reads / inject_Z writes else 0;
        total_operations := total_ops;
        unique_agents := Z.of_nat (length stats.(agents));
        avg_ops_per_agent :=
          match stats.(agents) with
          | [] => 0
          | _ => inject_Z total_ops
                 / inject_Z (Z.of_nat (length stats.(agents)))
          end |}.

End Metrics.

(** ** private_memory.py: share_knowledge and PrivateMemoryManager *)

Module Sharing.
Import Py Base.

(** The [MemoryEntry(...)] call of [share_knowledge]: [uuid8] is
    [uuid.uuid4().hex[:8]], [now] its [datetime.now()]. *)
Definition shared_entry (uuid8 : string) (now : Z)
    (self_agent target_agent entry_id : string) (entry_data : record)
  : exn MemoryEntry :=
  get! c := bind (dict_item "content" entry_data) as_str in
  get! m := bind (dict_item "metadata" entry_data) as_dict in
  get! g := bind (dict_item "tags" entry_data) as_list in
  get! i := bind (dict_item "importance_score" entry_data) as_float in
  Ok {| id := "shared_" ++ uuid8 ++ "_" ++ entry_id;
        content := "[SHARED FROM " ++ self_agent ++ "] " ++ c;
        metadata :=
          dict_set "original_id" (SStr entry_id)
            (dict_set "shared_from" (SStr self_agent) m);
        timestamp := now;
        agent_id := target_agent;
        tags := g ++ ["shared_knowledge"];
        importance_score := (i * 0.8)%Q |}.

(** The loop of [share_knowledge] over [entry_ids], from its [n]-th round
    on.  Round [k] draws [uuid8 k], reads [clock (2 * k)] for the entry
    and [clock (2 * k + 1)] in the target's log.  The target is returned
    as the loop left it, also when a round raises. *)
Fixpoint share_loop (uuid8 : nat -> string) (clock : nat -> Z)
    (self_agent : string) (data : dict record) (n : nat)
    (entry_ids : list string) (target : Private.PrivateMemorySystem)
    (shared_count : Z) : exn Z * Private.PrivateMemorySystem :=
  match entry_ids with
  | [] => (Ok shared_count, target)
  | entry_id :: entry_ids' =>
      match dict_get entry_id data with
      | None =>
          share_loop uuid8 clock self_agent data (S n) entry_ids' target
                     shared_count
      | Some entry_data =>
          match shared_entry (uuid8 n) (clock (2 * n)%nat) self_agent
                             target.(Private.agent_id) entry_id entry_data with
          | Raise e => (Raise e, target)
          | Ok entry =>
              let '(ok, target) :=
                Private.store (clock (2 * n + 1)%nat) entry target in
              share_loop uuid8 clock self_agent data (S n) entry_ids' target
                         (if ok then (shared_count + 1)%Z else shared_count)
          end
      end
  end.

(** [PrivateMemorySystem.share_knowledge], for a target that is another
    store than [self]; [now_log] is the clock read of the final
    [log_access].  The result is the returned flag, [self] and the
    target. *)
Definition share_knowledge (uuid8 : nat -> string) (clock : nat -> Z)
    (now_log : Z) (entry_ids : list string)
    (self target_agent_memory : Private.PrivateMemorySystem)
  : bool * Private.PrivateMemorySystem * Private.PrivateMemorySystem :=
  match share_loop uuid8 clock self.(Private.agent_id) self.(Private.data)
                   0 entry_ids target_agent_memory 0%Z with
  | (Ok shared_count, target) =>
      ((0 <? shared_count)%Z,
       Private.with_log self
         (log_access now_log "share_knowledge" (VStr self.(Private.agent_id))
            [ ("target_agent", DStr target_agent_memory.(Private.agent_id));
              ("entries_shared", DInt shared_count);
              ("total_requested", DInt (Z.of_nat (length entry_ids))) ]
            self.(Private.access_log)),
       target)
  | (Raise _, target) => (false, self, target)
  end.

(** [class PrivateMemoryManager]: the JSON files found under
    [storage_path], by agent, and the stores created so far. *)
Record PrivateMemoryManager : Type := {
  storage_path : dict (dict record);
  agent_memories : dict Private.PrivateMemorySystem
}.

(** [PrivateMemoryManager.get_agent_memory]: a new store reads the file
    of its agent, or starts the file empty. *)
Definition get_agent_memory (agent_id : string) (self : PrivateMemoryManager)
  : Private.PrivateMemorySystem * PrivateMemoryManager :=
  match dict_get agent_id self.(agent_memories) with
  | Some m => (m, self)
  | None =>
      let m := {| Private.agent_id := agent_id;
                  Private.data :=
                    default [] (dict_get agent_id self.(storage_path));
                  Private.access_log := [] |} in
      (m, {| storage_path := self.(storage_path);
             agent_memories := dict_set agent_id m self.(agent_memories) |})
  end.

End Sharing.

(** ** enhanced_collective_memory.py: retrieve_domain_insights and the
    usage bookkeeping of the agent *)

Module Router.
Import Py Base Domain.

(** [DomainSpecificMemory.retrieve_domain_insights]; [now] and [now']
    are the clock reads of the two stores' logs.  Neither [try] block can
    fail: [get_domain_memory] and [SharedMemorySystem.retrieve] return in
    every case. *)
Definition retrieve_domain_insights (now now' : Z)
    (query agent_id : string) (limit : Z) (self : DomainSpecificMemory)
  : list MemoryEntry * DomainSpecificMemory :=
  let query_domain := classify_domain query in
  let '(primary_memory, self) := get_domain_memory query_domain self in
  let '(primary_insights, primary_memory) :=
    Shared.retrieve now query agent_id limit primary_memory in
  let self :=
    {| base_path := self.(base_path);
       domain_memories :=
         dict_set query_domain primary_memory self.(domain_memories) |} in
  let all_insights := primary_insights in
  if negb (String.eqb query_domain "general") then
    let '(general_memory, self) := get_domain_memory "general" self in
    let '(general_insights, general_memory) :=
      Shared.retrieve now' query agent_id (limit / 2)%Z general_memory in
    let self :=
      {| base_path := self.(base_path);
         domain_memories :=
           dict_set "general" general_memory self.(domain_memories) |} in
    (slice_to limit (all_insights ++ general_insights), self)
  else (slice_to limit all_insights, self).

(** One round of the last loop of [_extract_and_store_insights], on one
    used insight: [hasattr] is the presence of the attribute. *)
Definition record_use (insight : Filter.Insight) : exn Filter.Insight :=
  match insight.(Filter.usage_count) with
  | None => Ok insight
  | Some n =>
      let usage_count := (n + 1)%Z in
      match insight.(Filter.success_rate) with
      | None =>
          Ok {| Filter.entry := insight.(Filter.entry);
                Filter.quality_score := insight.(Filter.quality_score);
                Filter.context_similarity := insight.(Filter.context_similarity);
                Filter.success_rate := None;
                Filter.usage_count := Some usage_count |}
      | Some r =>
          if (usage_count =? 0)%Z then Raise "ZeroDivisionError"
          else
            Ok {| Filter.entry := insight.(Filter.entry);
                  Filter.quality_score := insight.(Filter.quality_score);
                  Filter.context_similarity :=
                    insight.(Filter.context_similarity);
                  Filter.success_rate :=
                    Some ((r * inject_Z (usage_count - 1) + 1)
                          / inject_Z usage_count)%Q;
                  Filter.usage_count := Some usage_count |}
      end
  end.

End Router.

(** ** Sequences of calls on a store *)

Module Trace.
Import Py Base.

(** One call of the store interface, with its clock reads. *)
Inductive call : Type :=
| Store (now : Z) (entry : MemoryEntry)
| Retrieve (now : Z) (query agent_id : string) (limit : Z)
| Update (now now_log : Z) (entry_id : string) (updates : dict value)
| Delete (now : Z) (entry_id : string).

Definition private_step (s : Private.PrivateMemorySystem) (c : call)
  : Private.PrivateMemorySystem :=
  match c with
  | Store now entry => (Private.store now entry s).2
  | Retrieve now query agent_id limit =>
      (Private.retrieve now query agent_id limit s).2
  | Update now now_log entry_id updates =>
      (Private.update now now_log entry_id updates s).2
  | Delete now entry_id => (Private.delete now entry_id s).2
  end.

Definition shared_step (s : Shared.SharedMemorySystem) (c : call)
  : Shared.SharedMemorySystem :=
  match c with
  | Store now entry => (Shared.store now entry s).2
  | Retrieve now query agent_id limit =>
      (Shared.retrieve now query agent_id limit s).2
  | Update now now_log entry_id updates =>
      (Shared.update now now_log entry_id updates s).2
  | Delete now entry_id => (Shared.delete now entry_id s).2
  end.

Definition nomemory_step (s : NoMemory.NoMemorySystem) (c : call)
  : NoMemory.NoMemorySystem :=
  match c with
  | Store now entry => (NoMemory.store now entry s).2
  | Retrieve now query agent_id limit =>
      (NoMemory.retrieve now query agent_id limit s).2
  | Update _ _ entry_id updates => (NoMemory.update entry_id updates s).2
  | Delete _ entry_id => (NoMemory.delete entry_id s).2
  end.

Definition private_run (calls : list call) (s : Private.PrivateMemorySystem)
  : Private.PrivateMemorySystem := foldl private_step s calls.

Definition shared_run (calls : list call) (s : Shared.SharedMemorySystem)
  : Shared.SharedMemorySystem := foldl shared_step s calls.

Definition nomemory_run (calls : list call) (s : NoMemory.NoMemorySystem)
  : NoMemory.NoMemorySystem := foldl nomemory_step s calls.

(** An update that leaves the writer alone. *)
Definition keeps_writer (c : call) : Prop :=
  match c with
  | Update _ _ _ updates => dict_mem "agent_id" updates = false
  | _ => True
  end.

(** Every record names [owner] as its writer. *)
Definition owned_by (owner : string) (data : dict record) : Prop :=
  forall entry_id r, In (entry_id, r) data ->
    dict_get "agent_id" r = Some (VStr owner).

(** The ids of the stored records are pairwise distinct. *)
Definition unique_ids (data : dict record) : Prop := NoDup (map fst data).

(** The records of the partition of [domain]: those of its store, or
    of its file while no store is open. *)
Definition partition (domain : string) (pool : Domain.DomainSpecificMemory)
  : dict record :=
  match dict_get domain pool.(Domain.domain_memories) with
  | Some m => m.(Shared.data)
  | None => default [] (dict_get domain pool.(Domain.base_path))
  end.

(** Every store of the manager is kept under the identity it is bound
    to. *)
Definition bound_stores (m : Sharing.PrivateMemoryManager) : Prop :=
  forall a s, dict_get a m.(Sharing.agent_memories) = Some s ->
    s.(Private.agent_id) = a.

(** The id that round [i] of [share_knowledge] gives the copy of
    [entry_id]. *)
Definition shared_id (uuid8 : nat -> string) (i : nat) (entry_id : string)
  : string := "shared_" ++ uuid8 i ++ "_" ++ entry_id.

(** The number of requested ids that the records hold. *)
Definition present_count (data : dict record) (entry_ids : list string) : Z :=
  Z.of_nat (length (List.filter (fun entry_id => dict_mem entry_id data)
                                entry_ids)).

(** The number of log records of one operation. *)
Definition count_operation (op : string) (logs : list LogRecord) : Z :=
  Z.of_nat (length (List.filter (fun log => String.eqb log.(operation) op)
                                logs)).

(** The sum of the counts of a tally. *)
Definition total_count {K} (counts : list (K * Z)) : Z :=
  foldr (fun kv acc => (kv.2 + acc)%Z) 0%Z counts.

(** A log record as the baseline store writes them: an attempted store
    or a retrieve under a string identity, with neither a result count nor
    a cross-agent flag in its details. *)
Definition baseline_record (r : LogRecord) : Prop :=
  (r.(operation) = "store_attempted" \/ r.(operation) = "retrieve")
  /\ (exists a, r.(log_agent_id) = VStr a)
  /\ dict_get "results_found" r.(details) = None
  /\ dict_get "cross_agent_access" r.(details) = None.

(** A log record whose retrieve, if it is one, crossed no agent
    boundary. *)
Definition no_cross_agent (r : LogRecord) : Prop :=
  r.(operation) = "retrieve" ->
  dict_get "cross_agent_access" r.(details) = Some (DBool false).

Definition is_retrieve (c : call) : bool :=
  match c with
  | Retrieve _ _ _ _ => true
  | _ => false
  end.

(** A fresh baseline store, a generator of 8-digit ids, and the store of
    a second agent. *)
Definition baseline : NoMemory.NoMemorySystem :=
  {| NoMemory.access_log := [] |}.

Definition uuid8 (n : nat) : string := "0000000" ++ str_of_int (Z.of_nat n).

Definition engineer_store : Private.PrivateMemorySystem :=
  {| Private.agent_id := "engineer"; Private.data := [];
     Private.access_log := [] |}.

End Trace.

(** * Properties *)

Import Py Base.

(** ** Dictionaries *)

Lemma dict_get_set_eq {V} (k : string) (v : V) (d : dict V) :
  dict_get k (dict_set k v d) = Some v.
Proof.
  induction d as [|[k' v'] d IH]; simpl.
  - now rewrite String.eqb_refl.
  - destruct (String.eqb k k') eqn:E; simpl.
    + now rewrite String.eqb_refl.
    + now rewrite E.
Qed.

Lemma dict_get_set_ne {V} (k k' : string) (v : V) (d : dict V) :
  k <> k' -> dict_get k' (dict_set k v d) = dict_get k' d.
Proof.
  intros Hne. induction d as [|[k0 v0] d IH]; simpl.
  - destruct (String.eqb_spec k' k); congruence.
  - destruct (String.eqb_spec k k0) as [->|Hk]; simpl.
    + destruct (String.eqb_spec k' k0); congruence.
    + destruct (String.eqb_spec k' k0); congruence.
Qed.

Lemma dict_get_set {V} (k k' : string) (v : V) (d : dict V) :
  dict_get k' (dict_set k v d) = if String.eqb k' k then Some v else dict_get k' d.
Proof.
  destruct (String.eqb_spec k' k) as [->|Hne].
  - apply dict_get_set_eq.
  - apply dict_get_set_ne. congruence.
Qed.

Lemma dict_mem_set {V} (k k' : string) (v : V) (d : dict V) :
  dict_mem k' (dict_set k v d) = String.eqb k' k || dict_mem k' d.
Proof.
  unfold dict_mem. rewrite dict_get_set.
  destruct (String.eqb k' k); reflexivity.
Qed.

Lemma dict_set_keys {V} (k : string) (v : V) (d : dict V) :
  dict_mem k d = true -> map fst (dict_set k v d) = map fst d.
Proof.
  unfold dict_mem. induction d as [|[k' v'] d IH]; simpl; [discriminate|].
  destruct (String.eqb_spec k k') as [->|Hne]; simpl; [reflexivity|].
  intros H. now rewrite IH.
Qed.

Lemma dict_set_keys_new {V} (k : string) (v : V) (d : dict V) :
  dict_mem k d = false -> map fst (dict_set k v d) = map fst d ++ [k].
Proof.
  unfold dict_mem. induction d as [|[k' v'] d IH]; simpl; [reflexivity|].
  destruct (String.eqb_spec k k') as [->|Hne]; simpl; [discriminate|].
  intros H. now rewrite IH.
Qed.

Lemma dict_set_In {V} (k : string) (v : V) (d : dict V) :
  In (k, v) (dict_set k v d).
Proof.
  induction d as [|[k' v'] d IH]; simpl; [now left|].
  destruct (String.eqb k k'); simpl; auto.
Qed.

Lemma dict_set_length {V} (k : string) (v : V) (d : dict V) :
  (length (dict_set k v d) <= S (length d))%nat.
Proof.
  induction d as [|[k' v'] d IH]; simpl; [lia|].
  destruct (String.eqb k k'); simpl; lia.
Qed.

(** ** Private Store: the ownership gate of retrieve *)

(** C1.  A [retrieve] issued on a Private Store by an identity other than
    its owner returns the empty list, leaves the owner and the persisted
    records as they are, and appends exactly one log record, whose
    operation is ["retrieve_denied"], whose caller is the requester and
    whose details give the query and the reason
    ["cross_agent_access_denied"].  The call is a total function of its
    arguments: there is no exception to raise. *)
Theorem private_retrieve_cross_agent_denied
    (self : Private.PrivateMemorySystem) (now : Z)
    (query requester : string) (limit : Z) :
  requester <> self.(Private.agent_id) ->
  exists r : LogRecord,
    Private.retrieve now query requester limit self
    = ([], {| Private.agent_id := self.(Private.agent_id);
              Private.data := self.(Private.data);
              Private.access_log := self.(Private.access_log) ++ [r] |})
    /\ r.(operation) = "retrieve_denied"
    /\ r.(log_agent_id) = VStr requester
    /\ dict_get "reason" r.(details) = Some (DStr "cross_agent_access_denied")
    /\ dict_get "query" r.(details) = Some (DStr query).
Proof.
  intros Hne. unfold Private.retrieve.
  destruct (String.eqb_spec requester self.(Private.agent_id)) as [Heq|_];
    [contradiction|]. simpl.
  eexists. split; [reflexivity|]. simpl. auto.
Qed.

Lemma private_retrieve_cross_agent_denied_witness :
  "engineer" <> Scenario.qa_store_X.(Private.agent_id)
  /\ (Private.retrieve 2000%Z "validate" "engineer" 10%Z Scenario.qa_store_X).1 = []
  /\ (Private.retrieve 2000%Z "validate" "qa_engineer" 10%Z Scenario.qa_store_X).1
     = [Scenario.entry_X].
Proof.
  assert (Hne : "engineer" <> Scenario.qa_store_X.(Private.agent_id))
    by (vm_compute; discriminate).
  split; [exact Hne|]. split.
  - destruct (private_retrieve_cross_agent_denied
                Scenario.qa_store_X 2000%Z "validate" "engineer" 10%Z Hne)
      as (r & Hr & _).
    now rewrite Hr.
  - vm_compute. reflexivity.
Defined.

(** ** The loop of update *)

Lemma apply_updates_cons (k : string) (v : value) (u : dict value) (r : record) :
  apply_updates ((k, v) :: u) r
  = apply_updates u (if dict_mem k r then dict_set k v r else r).
Proof. reflexivity. Qed.

Lemma apply_updates_mem (u : dict value) (r : record) (key : string) :
  dict_mem key (apply_updates u r) = dict_mem key r.
Proof.
  revert r. induction u as [|[k v] u IH]; intros r; [reflexivity|].
  rewrite apply_updates_cons, IH.
  destruct (dict_mem k r) eqn:Hk; [|reflexivity].
  rewrite dict_mem_set.
  destruct (String.eqb_spec key k) as [->|_]; simpl; congruence.
Qed.

Lemma apply_updates_keys (u : dict value) (r : record) :
  map fst (apply_updates u r) = map fst r.
Proof.
  revert r. induction u as [|[k v] u IH]; intros r; [reflexivity|].
  rewrite apply_updates_cons, IH.
  destruct (dict_mem k r) eqn:Hk; [|reflexivity].
  now apply dict_set_keys.
Qed.

Lemma apply_updates_unbound (u : dict value) (r : record) (key : string) :
  dict_get key u = None ->
  dict_get key (apply_updates u r) = dict_get key r.
Proof.
  revert r. induction u as [|[k v] u IH]; intros r Hu; [reflexivity|].
  simpl in Hu. destruct (String.eqb_spec key k) as [->|Hne]; [discriminate|].
  rewrite apply_updates_cons, IH by assumption.
  destruct (dict_mem k r); [|reflexivity].
  apply dict_get_set_ne. congruence.
Qed.

Lemma dict_get_None_notin {V} (k : string) (d : dict V) :
  k ∉ map fst d -> dict_get k d = None.
Proof.
  induction d as [|[k' v'] d IH]; simpl; [reflexivity|].
  intros Hn. destruct (String.eqb_spec k k') as [->|_].
  - exfalso. apply Hn. left.
  - apply IH. intros Hin. apply Hn. now right.
Qed.

Lemma apply_updates_get (u : dict value) (r : record) (key : string) :
  NoDup (map fst u) ->
  dict_get key (apply_updates u r) =
  match dict_get key u with
  | Some v => if dict_mem key r then Some v else None
  | None => dict_get key r
  end.
Proof.
  revert r. induction u as [|[k v] u IH]; intros r Hnd; [reflexivity|].
  simpl in Hnd. apply NoDup_cons in Hnd as [Hk Hnd].
  simpl dict_get at 2.
  destruct (String.eqb_spec key k) as [->|Hne].
  - rewrite apply_updates_cons.
    rewrite apply_updates_unbound by now apply dict_get_None_notin.
    unfold dict_mem. destruct (dict_get k r) eqn:Hr.
    + apply dict_get_set_eq.
    + assumption.
  - rewrite apply_updates_cons, IH by assumption.
    destruct (dict_mem k r) eqn:Hk'; [|reflexivity].
    rewrite dict_mem_set, dict_get_set_ne by congruence.
    destruct (String.eqb_spec key k); [contradiction|reflexivity].
Qed.

Lemma updated_record_intro (now : Z) (u : dict value) (r : record) :
  NoDup (map fst u) ->
  Scenario.updated_record now u r
    (dict_set "timestamp" (VStr (isoformat now)) (apply_updates u r)).
Proof.
  intros Hnd. split; [apply dict_get_set_eq|]. split.
  - destruct (dict_mem "timestamp" r) eqn:Hm.
    + rewrite !dict_set_keys, apply_updates_keys;
        [reflexivity|assumption|now rewrite apply_updates_mem].
    + rewrite !dict_set_keys_new, apply_updates_keys;
        [reflexivity|assumption|now rewrite apply_updates_mem].
  - intros key Hne. rewrite dict_get_set_ne by congruence.
    now apply apply_updates_get.
Qed.

(** ** update: what changes and what does not *)

Lemma dict_set_other {V} (k : string) (v : V) (d : dict V) (other : string) :
  other <> k -> dict_get other (dict_set k v d) = dict_get other d.
Proof. intros H. apply dict_get_set_ne. congruence. Qed.

Lemma dict_get_mem {V} (k : string) (d : dict V) (v : V) :
  dict_get k d = Some v -> dict_mem k d = true.
Proof. unfold dict_mem. now intros ->. Qed.

(** C10.  [update(entry_id, updates)] on an existing record (written by
    the owner, for a Private Store) returns [True] whatever [updates]
    holds, and the record it leaves has the timestamp of the call, the
    bound value under every key of [updates] that the record already
    had, no key that the record lacked, and the old value under every
    other key; the other records, and the order of the records, are
    unchanged. *)
Theorem update_applies_existing_keys_only
    (now now_log : Z) (entry_id : string) (updates : dict value)
    (entry_data : record) :
  NoDup (map fst updates) ->
  (forall s : Shared.SharedMemorySystem,
      dict_get entry_id s.(Shared.data) = Some entry_data ->
      dict_mem "agent_id" entry_data = true ->
      exists entry_data' s',
        Shared.update now now_log entry_id updates s = (true, s')
        /\ dict_get entry_id s'.(Shared.data) = Some entry_data'
        /\ Scenario.updated_record now updates entry_data entry_data'
        /\ map fst s'.(Shared.data) = map fst s.(Shared.data)
        /\ forall other, other <> entry_id ->
             dict_get other s'.(Shared.data) = dict_get other s.(Shared.data))
  /\ (forall s : Private.PrivateMemorySystem,
      dict_get entry_id s.(Private.data) = Some entry_data ->
      dict_get "agent_id" entry_data = Some (VStr s.(Private.agent_id)) ->
      exists entry_data' s',
        Private.update now now_log entry_id updates s = (true, s')
        /\ dict_get entry_id s'.(Private.data) = Some entry_data'
        /\ Scenario.updated_record now updates entry_data entry_data'
        /\ map fst s'.(Private.data) = map fst s.(Private.data)
        /\ forall other, other <> entry_id ->
             dict_get other s'.(Private.data) = dict_get other s.(Private.data)).
Proof.
  intros Hnd. split.
  - intros s Hget Hmem. unfold Shared.update. rewrite Hget.
    set (r' := dict_set "timestamp" (VStr (isoformat now))
                        (apply_updates updates entry_data)).
    assert (Hm : dict_mem "agent_id" r' = true).
    { unfold r'. now rewrite dict_mem_set, apply_updates_mem, Hmem. }
    unfold dict_item. unfold dict_mem in Hm.
    destruct (dict_get "agent_id" r') as [w|]; [|discriminate].
    exists r'. eexists. split; [reflexivity|]. simpl.
    split; [apply dict_get_set_eq|].
    split; [now apply updated_record_intro|].
    split; [apply dict_set_keys; eapply dict_get_mem; eassumption|].
    intros other Hne. now apply dict_set_other.
  - intros s Hget Hown. unfold Private.update. rewrite Hget.
    unfold dict_item. rewrite Hown. simpl. rewrite String.eqb_refl. simpl.
    eexists. eexists. split; [reflexivity|]. simpl.
    split; [apply dict_get_set_eq|].
    split; [now apply updated_record_intro|].
    split; [apply dict_set_keys; eapply dict_get_mem; eassumption|].
    intros other Hne. now apply dict_set_other.
Qed.

Lemma update_applies_existing_keys_only_witness :
  (Shared.update 1002 1003 "X"
     [("content", VStr "check input first"); ("reviewer", VStr "qa")]
     Scenario.shared_store_X).1 = true
  /\ (Private.update 1002 1003 "X"
        [("content", VStr "check input first"); ("reviewer", VStr "qa")]
        Scenario.qa_store_X).1 = true.
Proof.
  assert (Hnd : NoDup (map fst [("content", VStr "check input first");
                                ("reviewer", VStr "qa")])).
  { apply (bool_decide_unpack _). vm_compute. reflexivity. }
  destruct (update_applies_existing_keys_only 1002 1003 "X" _
              (record_of_entry Scenario.entry_X) Hnd) as [Hs Hp].
  split.
  - destruct (Hs Scenario.shared_store_X) as (r' & s' & Hu & _);
      [vm_compute; reflexivity | vm_compute; reflexivity |].
    now rewrite Hu.
  - destruct (Hp Scenario.qa_store_X) as (r' & s' & Hu & _);
      [vm_compute; reflexivity | vm_compute; reflexivity |].
    now rewrite Hu.
Defined.

(** ** The agent_id of a persisted record *)

Lemma agent_id_of_set (entry_id any_id : string) (r r' : record)
    (data : dict record) :
  dict_get entry_id data = Some r ->
  dict_get "agent_id" r' = dict_get "agent_id" r ->
  Scenario.agent_id_of any_id (dict_set entry_id r' data)
  = Scenario.agent_id_of any_id data.
Proof.
  intros Hget Hsame. unfold Scenario.agent_id_of. rewrite dict_get_set.
  destruct (String.eqb_spec any_id entry_id) as [->|_]; [|reflexivity].
  now rewrite Hget.
Qed.

Lemma updated_agent_id (now : Z) (updates : dict value) (r : record) :
  dict_mem "agent_id" updates = false ->
  dict_get "agent_id"
    (dict_set "timestamp" (VStr (isoformat now)) (apply_updates updates r))
  = dict_get "agent_id" r.
Proof.
  intros Hu. rewrite dict_get_set_ne by discriminate.
  apply apply_updates_unbound. unfold dict_mem in Hu.
  now destruct (dict_get "agent_id" updates).
Qed.

Lemma shared_update_keeps_agent_id (now now_log : Z)
    (entry_id any_id : string) (updates : dict value)
    (s : Shared.SharedMemorySystem) :
  dict_mem "agent_id" updates = false ->
  Scenario.agent_id_of any_id
    (Shared.update now now_log entry_id updates s).2.(Shared.data)
  = Scenario.agent_id_of any_id s.(Shared.data).
Proof.
  intros Hu. unfold Shared.update.
  destruct (dict_get entry_id s.(Shared.data)) as [r|] eqn:Hget; [|reflexivity].
  destruct (dict_item "agent_id" _); simpl;
    (eapply agent_id_of_set; [eassumption|now apply updated_agent_id]).
Qed.

Lemma private_update_keeps_agent_id (now now_log : Z)
    (entry_id any_id : string) (updates : dict value)
    (s : Private.PrivateMemorySystem) :
  dict_mem "agent_id" updates = false ->
  Scenario.agent_id_of any_id
    (Private.update now now_log entry_id updates s).2.(Private.data)
  = Scenario.agent_id_of any_id s.(Private.data).
Proof.
  intros Hu. unfold Private.update.
  destruct (dict_get entry_id s.(Private.data)) as [r|] eqn:Hget; [|reflexivity].
  destruct (dict_item "agent_id" r) as [w|]; [|reflexivity].
  destruct (negb (value_eq_str w _)); [reflexivity|]. simpl.
  eapply agent_id_of_set; [eassumption|now apply updated_agent_id].
Qed.

(** C4, as the code has it.  Over any sequence of [update(entry_id, _)]
    calls none of whose [updates] dicts has the key ["agent_id"], the
    persisted [agent_id] of every record of a Shared or Private Store is
    the one it had before the calls. *)
Theorem agent_id_kept_when_updates_lack_agent_id
    (entry_id : string) (calls : list (Z * Z * dict value)) :
  Forall (fun c => dict_mem "agent_id" c.2 = false) calls ->
  (forall (s : Shared.SharedMemorySystem) (any_id : string),
      Scenario.agent_id_of any_id
        (Scenario.shared_updates entry_id calls s).(Shared.data)
      = Scenario.agent_id_of any_id s.(Shared.data))
  /\ (forall (s : Private.PrivateMemorySystem) (any_id : string),
      Scenario.agent_id_of any_id
        (Scenario.private_updates entry_id calls s).(Private.data)
      = Scenario.agent_id_of any_id s.(Private.data)).
Proof.
  intros Hcalls. split.
  - induction Hcalls as [|c calls Hc _ IH]; intros s any_id; [reflexivity|].
    unfold Scenario.shared_updates in *. simpl. rewrite IH.
    now apply shared_update_keeps_agent_id.
  - induction Hcalls as [|c calls Hc _ IH]; intros s any_id; [reflexivity|].
    unfold Scenario.private_updates in *. simpl. rewrite IH.
    now apply private_update_keeps_agent_id.
Qed.

Lemma agent_id_kept_when_updates_lack_agent_id_witness :
  Scenario.agent_id_of "X"
    (Scenario.shared_updates "X"
       [ (1002, 1003, [("content", VStr "check input first")]);
         (1004, 1005, [("tags", VList ["validation"; "input"])]) ]%Z
       Scenario.shared_store_X).(Shared.data)
  = Some (VStr "qa_engineer").
Proof.
  destruct (agent_id_kept_when_updates_lack_agent_id "X"
       [ (1002, 1003, [("content", VStr "check input first")]);
         (1004, 1005, [("tags", VList ["validation"; "input"])]) ]%Z)
    as [Hs _].
  - repeat constructor.
  - rewrite Hs. reflexivity.
Defined.

(** C4, as stated, fails: one [update] whose dict binds ["agent_id"]
    replaces the persisted writer, in a Shared and in a Private Store. *)
Lemma update_rewrites_agent_id :
  Scenario.agent_id_of "X" Scenario.shared_store_X.(Shared.data)
    = Some (VStr "qa_engineer")
  /\ Scenario.agent_id_of "X"
       (Scenario.shared_updates "X"
          [ (1002, 1003, [("agent_id", VStr "engineer")]) ]%Z
          Scenario.shared_store_X).(Shared.data)
     = Some (VStr "engineer")
  /\ Scenario.agent_id_of "X" Scenario.qa_store_X.(Private.data)
     = Some (VStr "qa_engineer")
  /\ Scenario.agent_id_of "X"
       (Scenario.private_updates "X"
          [ (1002, 1003, [("agent_id", VStr "engineer")]) ]%Z
          Scenario.qa_store_X).(Private.data)
     = Some (VStr "engineer").
Proof. vm_compute. auto. Qed.

(** ** Private Store: update and delete of a record of another writer *)

Lemma private_update_foreign_record (now now_log : Z)
    (entry_id : string) (updates : dict value)
    (s : Private.PrivateMemorySystem) (r : record) (writer : value) :
  dict_get entry_id s.(Private.data) = Some r ->
  dict_get "agent_id" r = Some writer ->
  value_eq_str writer s.(Private.agent_id) = false ->
  Private.update now now_log entry_id updates s = (false, s).
Proof.
  intros Hget Hw Hne. unfold Private.update, dict_item.
  now rewrite Hget, Hw, Hne.
Qed.

Lemma private_delete_foreign_record (now : Z)
    (entry_id : string) (s : Private.PrivateMemorySystem) (r : record)
    (writer : value) :
  dict_get entry_id s.(Private.data) = Some r ->
  dict_get "agent_id" r = Some writer ->
  value_eq_str writer s.(Private.agent_id) = false ->
  Private.delete now entry_id s = (false, s).
Proof.
  intros Hget Hw Hne. unfold Private.delete, dict_item.
  now rewrite Hget, Hw, Hne.
Qed.

(** C3, on the code.  In the store of [qa_engineer] whose record [X]
    names the writer [engineer], [update] and [delete] of [X] return
    [False] and leave the whole store as it was: the records, and also
    the access log, to which no record is appended. *)
Theorem private_update_delete_denied_without_log_record :
  Scenario.agent_id_of "X" Scenario.qa_store_foreign.(Private.data)
    = Some (VStr "engineer")
  /\ Scenario.qa_store_foreign.(Private.agent_id) = "qa_engineer"
  /\ Private.update 1004 1005 "X" [("content", VStr "changed")]
       Scenario.qa_store_foreign
     = (false, Scenario.qa_store_foreign)
  /\ Private.delete 1004 "X" Scenario.qa_store_foreign
     = (false, Scenario.qa_store_foreign)
  /\ map operation Scenario.qa_store_foreign.(Private.access_log)
     = ["store"; "update"].
Proof. vm_compute. auto 6. Qed.

(** ** Sorting and slicing *)

Lemma insert_desc_Permutation {A} (lt : A -> A -> bool) (x : A) (l : list A) :
  Permutation (insert_desc lt x l) (x :: l).
Proof.
  induction l as [|y l IH]; simpl; [reflexivity|].
  destruct (lt x y); [|reflexivity].
  rewrite IH. apply perm_swap.
Qed.

Lemma sort_desc_Permutation {A} (lt : A -> A -> bool) (l : list A) :
  Permutation (sort_desc lt l) l.
Proof.
  induction l as [|x l IH]; simpl; [reflexivity|].
  rewrite insert_desc_Permutation. now apply perm_skip.
Qed.

Lemma sort_desc_In {A} (lt : A -> A -> bool) (l : list A) (x : A) :
  In x (sort_desc lt l) <-> In x l.
Proof.
  split; apply Permutation_in;
    [|symmetry]; apply sort_desc_Permutation.
Qed.

Lemma sort_desc_length {A} (lt : A -> A -> bool) (l : list A) :
  length (sort_desc lt l) = length l.
Proof. apply Permutation_length, sort_desc_Permutation. Qed.

Lemma insert_desc_ext {A} (lt1 lt2 : A -> A -> bool) (x : A) (l : list A) :
  (forall y, In y l -> lt1 x y = lt2 x y) ->
  insert_desc lt1 x l = insert_desc lt2 x l.
Proof.
  induction l as [|y l IH]; intros H; simpl; [reflexivity|].
  rewrite (H y) by now left.
  destruct (lt2 x y); [|reflexivity].
  f_equal. apply IH. intros z Hz. apply H. now right.
Qed.

Lemma sort_desc_ext {A} (lt1 lt2 : A -> A -> bool) (l : list A) :
  (forall x y, In x l -> In y l -> lt1 x y = lt2 x y) ->
  sort_desc lt1 l = sort_desc lt2 l.
Proof.
  induction l as [|x l IH]; intros H; simpl; [reflexivity|].
  fold (sort_desc lt1 l). fold (sort_desc lt2 l).
  rewrite IH by (intros; apply H; now right).
  apply insert_desc_ext. intros y Hy. apply H; [now left|].
  right. now apply (sort_desc_In lt2).
Qed.

Lemma slice_to_all {A} (limit : Z) (l : list A) :
  (Z.of_nat (length l) <= limit)%Z -> slice_to limit l = l.
Proof.
  intros H. unfold slice_to.
  destruct (Z.leb_spec 0 limit); [|lia].
  apply firstn_all2. lia.
Qed.

Lemma slice_to_length {A} (limit : Z) (l : list A) :
  (0 <= limit)%Z -> (Z.of_nat (length (slice_to limit l)) <= limit)%Z.
Proof.
  intros H. unfold slice_to.
  destruct (Z.leb_spec 0 limit); [|lia].
  rewrite length_take. lia.
Qed.

Lemma slice_to_prefix {A} (limit : Z) (l : list A) :
  exists rest, l = slice_to limit l ++ rest.
Proof.
  unfold slice_to. destruct (0 <=? limit)%Z;
    eexists; symmetry; apply firstn_skipn.
Qed.

(** ** Substrings *)

Lemma prefix_refl (s : string) : String.prefix s s = true.
Proof.
  induction s as [|c s IH]; simpl; [reflexivity|].
  destruct (ascii_dec c c); [assumption|contradiction].
Qed.

Lemma str_in_refl (s : string) : str_in s s = true.
Proof.
  destruct s as [|c s]; [reflexivity|].
  cbn [str_in]. now rewrite prefix_refl.
Qed.

(** ** Persisted records and the entries read back from them *)

Lemma int_of_str_of_int (t : Z) : int_of_str (str_of_int t) = Ok t.
Proof.
  unfold int_of_str, str_of_int.
  rewrite NilZero.isi.
  - now rewrite DecimalZ.of_to.
  - destruct t; simpl; try discriminate.
    intros [= H]. now apply DecimalPos.Unsigned.to_uint_nonnil in H.
  - destruct t; simpl; try discriminate.
    intros [= H]. now apply DecimalPos.Unsigned.to_uint_nonnil in H.
Qed.

Lemma string_of_uint_digits (d : Decimal.uint) :
  Forall (fun c => c <> "+"%char)
         (list_ascii_of_string (NilEmpty.string_of_uint d)).
Proof. induction d; simpl; constructor; (discriminate || assumption). Qed.

Lemma str_of_int_digits (t : Z) :
  Forall (fun c => c <> "+"%char) (list_ascii_of_string (str_of_int t)).
Proof.
  unfold str_of_int, NilZero.string_of_int, NilZero.string_of_uint.
  destruct (Z.to_int t) as [d|d]; [|simpl; constructor; [discriminate|]];
    destruct d; try apply string_of_uint_digits;
    simpl; repeat constructor; discriminate.
Qed.

Lemma split_offset_none (s : string) :
  Forall (fun c => c <> "+"%char) (list_ascii_of_string s) ->
  split_offset s = (s, None).
Proof.
  induction s as [|c s IH]; simpl; [reflexivity|].
  intros H. apply Forall_cons in H as [Hc Hs].
  destruct (Ascii.eqb_spec c "+"); [contradiction|].
  now rewrite (IH Hs).
Qed.

Lemma split_offset_some (s rest : string) :
  Forall (fun c => c <> "+"%char) (list_ascii_of_string s) ->
  split_offset (s ++ String "+" rest) = (s, Some rest).
Proof.
  induction s as [|c s IH]; simpl; [reflexivity|].
  intros H. apply Forall_cons in H as [Hc Hs].
  destruct (Ascii.eqb_spec c "+"); [contradiction|].
  now rewrite (IH Hs).
Qed.

Lemma fromisoformat_isoformat (t : datetime) : fromisoformat (isoformat t) = Ok t.
Proof.
  unfold fromisoformat, isoformat. destruct t as [t|t o].
  - rewrite split_offset_none by apply str_of_int_digits.
    now rewrite int_of_str_of_int.
  - change ("+" ++ str_of_int o)%string with (String "+" (str_of_int o)).
    rewrite split_offset_some by apply str_of_int_digits.
    now rewrite !int_of_str_of_int.
Qed.

Lemma entry_of_record_of_entry (e : MemoryEntry) :
  entry_of_record e.(id) (record_of_entry e) = Ok e.
Proof.
  destruct e. unfold entry_of_record, record_of_entry. simpl.
  now rewrite fromisoformat_isoformat.
Qed.

Lemma is_entry_fields (r : record) (entry_id : string) :
  Scenario.is_entry r = true ->
  exists e, entry_of_record entry_id r = Ok e
    /\ dict_get "content" r = Some (VStr e.(content))
    /\ dict_get "tags" r = Some (VList e.(tags))
    /\ dict_get "metadata" r = Some (VDict e.(metadata)).
Proof.
  unfold Scenario.is_entry, entry_of_record, dict_item.
  destruct (dict_get "content" r) as [[c| | |]|]; simpl; try discriminate.
  destruct (dict_get "metadata" r) as [[| | |m]|]; simpl; try discriminate.
  destruct (dict_get "timestamp" r) as [[t| | |]|]; simpl; try discriminate.
  destruct (fromisoformat t) as [t'|]; simpl; try discriminate.
  destruct (dict_get "agent_id" r) as [[a| | |]|]; simpl; try discriminate.
  destruct (dict_get "tags" r) as [[| |g|]|]; simpl; try discriminate.
  destruct (dict_get "importance_score" r) as [[|i| |]|]; simpl;
    try discriminate.
  intros _. eexists. split; [reflexivity|]. simpl. auto.
Qed.

Lemma is_entry_record_of_entry (e : MemoryEntry) :
  Scenario.is_entry (record_of_entry e) = true.
Proof.
  destruct e. unfold Scenario.is_entry, entry_of_record, record_of_entry.
  simpl. now rewrite fromisoformat_isoformat.
Qed.

Lemma all_entries_set (k : string) (r : record) (data : dict record) :
  Scenario.is_entry r = true ->
  Scenario.all_entries data -> Scenario.all_entries (dict_set k r data).
Proof.
  intros Hr. unfold Scenario.all_entries.
  induction 1 as [|[k' r'] data Hr' Hdata IH]; simpl.
  - now constructor.
  - destruct (String.eqb k k'); constructor; assumption.
Qed.

(** ** The search loop *)

Lemma shared_search_with (q : string) (data : dict record) :
  Shared.search q data = Scenario.search_with Shared.matches q data.
Proof.
  induction data as [|[k r] data IH]; simpl; [reflexivity|]. now rewrite IH.
Qed.

Lemma private_search_with (q : string) (data : dict record) :
  Private.search q data = Scenario.search_with Private.matches q data.
Proof.
  induction data as [|[k r] data IH]; simpl; [reflexivity|]. now rewrite IH.
Qed.

Lemma shared_matches_entry (q : string) (r : record) :
  Scenario.is_entry r = true -> exists b, Shared.matches q r = Ok b.
Proof.
  intros H. destruct (is_entry_fields r "" H) as (e & _ & Hc & Hg & _).
  unfold Shared.matches, dict_item. rewrite Hc, Hg. simpl.
  destruct (str_in q _); eauto.
Qed.

Lemma private_matches_entry (q : string) (r : record) :
  Scenario.is_entry r = true -> exists b, Private.matches q r = Ok b.
Proof.
  intros H. destruct (is_entry_fields r "" H) as (e & _ & Hc & Hg & Hm).
  unfold Private.matches, dict_item. rewrite Hc, Hg, Hm. simpl.
  destruct (str_in q _); eauto.
  destruct (existsb _ _); eauto.
Qed.

Lemma search_with_entries (matches : string -> record -> exn bool)
    (q : string) (data : dict record) :
  (forall r, Scenario.is_entry r = true -> exists b, matches q r = Ok b) ->
  Scenario.all_entries data ->
  exists results,
    Scenario.search_with matches q data = Ok results
    /\ (length results <= length data)%nat
    /\ forall entry_id r e,
         In (entry_id, r) data -> matches q r = Ok true ->
         entry_of_record entry_id r = Ok e -> In e results.
Proof.
  intros Hm. induction 1 as [|[k r] data Hr _ IH]; simpl.
  - exists []. split; [reflexivity|]. split; [simpl; lia|].
    intros ? ? ? [].
  - destruct IH as (results & Hs & Hlen & Hin). simpl in Hr.
    destruct (Hm r Hr) as [b Hb]. rewrite Hb. simpl.
    destruct (is_entry_fields r k Hr) as (e0 & He0 & _).
    destruct b.
    + rewrite He0, Hs. simpl. exists (e0 :: results).
      split; [reflexivity|]. split; [simpl; lia|].
      intros entry_id r' e [[= <- <-]|Hin'] Hhit He.
      * left. congruence.
      * right. eauto.
    + rewrite Hs. exists results. split; [reflexivity|]. split; [lia|].
      intros entry_id r' e [[= <- <-]|Hin'] Hhit He.
      * congruence.
      * eauto.
Qed.

Lemma existsb_In {A} (f : A -> bool) (l : list A) (x : A) :
  In x l -> f x = true -> existsb f l = true.
Proof. intros Hin Hf. apply existsb_exists. eauto. Qed.

Lemma shared_matches_stored (query : string) (e : MemoryEntry) :
  Scenario.query_matches query e ->
  Shared.matches (lower query) (record_of_entry e) = Ok true.
Proof.
  intros Hq. unfold Shared.matches, record_of_entry, dict_item. simpl.
  destruct (str_in (lower query) (lower e.(content))) eqn:Hc; [reflexivity|].
  destruct Hq as [Hq|(tag & Hin & Ht)]; [congruence|].
  f_equal. now apply (existsb_In _ _ tag).
Qed.

Lemma private_matches_stored (query : string) (e : MemoryEntry) :
  Scenario.query_matches query e ->
  Private.matches (lower query) (record_of_entry e) = Ok true.
Proof.
  intros Hq. unfold Private.matches, record_of_entry, dict_item. simpl.
  destruct (str_in (lower query) (lower e.(content))) eqn:Hc; [reflexivity|].
  destruct Hq as [Hq|(tag & Hin & Ht)]; [congruence|].
  now rewrite (existsb_In _ _ tag Hin Ht).
Qed.

(** ** What the search loop returns *)

Lemma search_with_ext (m1 m2 : string -> record -> exn bool) (q : string)
    (data : dict record) :
  (forall entry_id r, In (entry_id, r) data -> m1 q r = m2 q r) ->
  Scenario.search_with m1 q data = Scenario.search_with m2 q data.
Proof.
  induction data as [|[k r] data IH]; intros H; simpl; [reflexivity|].
  rewrite (H k r) by now left.
  rewrite IH by (intros; eapply H; right; eassumption).
  reflexivity.
Qed.

Lemma search_with_sound (m : string -> record -> exn bool) (q : string)
    (data : dict record) (results : list MemoryEntry) :
  Scenario.search_with m q data = Ok results ->
  forall e, In e results ->
    exists entry_id r, In (entry_id, r) data /\ entry_of_record entry_id r = Ok e.
Proof.
  revert results. induction data as [|[k r] data IH]; simpl; intros results.
  - intros [= <-] e [].
  - destruct (m q r) as [[|]|]; simpl; try discriminate.
    + destruct (entry_of_record k r) as [e0|] eqn:He0; simpl; try discriminate.
      destruct (Scenario.search_with m q data) as [rs|]; simpl;
        try discriminate.
      intros [= <-] e [<-|Hin].
      * exists k, r. auto.
      * destruct (IH rs eq_refl e Hin) as (k' & r' & Hin' & He).
        exists k', r'. auto.
    + intros Hs e Hin.
      destruct (IH results Hs e Hin) as (k' & r' & Hin' & He).
      exists k', r'. auto.
Qed.

(** ** The sort of the Private Store *)

Lemma datetime_eqb_refl (t : datetime) : datetime_eqb t t = true.
Proof. destruct t; simpl; apply Z.eqb_refl. Qed.

Lemma key_lt_same_awareness (x y : MemoryEntry) :
  aware x.(timestamp) = aware y.(timestamp) ->
  Private.key_lt x y = Ok (Private.key_ltb x y).
Proof.
  unfold Private.key_ltb, Private.key_lt. intros H.
  destruct (Qeq_bool _ _); [|reflexivity].
  destruct (datetime_eqb _ _); [reflexivity|].
  destruct x.(timestamp), y.(timestamp); simpl in *;
    (reflexivity || discriminate).
Qed.

Lemma all_comparable_intro (l : list MemoryEntry) :
  (forall x y, In x l -> In y l -> Private.comparable x y = true) ->
  Private.all_comparable l = true.
Proof.
  induction l as [|x l IH]; intros H; simpl; [reflexivity|].
  apply andb_true_iff. split.
  - apply forallb_forall. intros y Hy. apply andb_true_iff.
    split; apply H; simpl; auto.
  - apply IH. intros y z Hy Hz. apply H; simpl; auto.
Qed.

Lemma sort_by_key_total (l : list MemoryEntry) :
  (forall x y, In x l -> In y l -> Private.comparable x y = true) ->
  Private.sort_by_key l = Ok (sort_desc Private.key_ltb l).
Proof.
  intros H. unfold Private.sort_by_key.
  now rewrite all_comparable_intro.
Qed.

Lemma record_aware_entry (entry_id : string) (r : record) (e : MemoryEntry) :
  entry_of_record entry_id r = Ok e ->
  Scenario.record_aware r = Some (aware e.(timestamp)).
Proof.
  unfold entry_of_record, Scenario.record_aware, dict_item.
  destruct (dict_get "content" r) as [[c| | |]|]; simpl; try discriminate.
  destruct (dict_get "metadata" r) as [[| | |m]|]; simpl; try discriminate.
  destruct (dict_get "timestamp" r) as [[t| | |]|]; simpl; try discriminate.
  destruct (fromisoformat t) as [t'|]; simpl; try discriminate.
  destruct (dict_get "agent_id" r) as [[a| | |]|]; simpl; try discriminate.
  destruct (dict_get "tags" r) as [[| |g|]|]; simpl; try discriminate.
  destruct (dict_get "importance_score" r) as [[|i| |]|]; simpl;
    try discriminate.
  now intros [= <-].
Qed.

Lemma timestamps_are_entry (a : bool) (data : dict record)
    (entry_id : string) (r : record) (e : MemoryEntry) :
  Scenario.timestamps_are a data = true ->
  In (entry_id, r) data -> entry_of_record entry_id r = Ok e ->
  aware e.(timestamp) = a.
Proof.
  unfold Scenario.timestamps_are. rewrite forallb_forall.
  intros Hall Hin He. specialize (Hall _ Hin). simpl in Hall.
  rewrite (record_aware_entry _ _ _ He) in Hall.
  symmetry. now apply Bool.eqb_prop.
Qed.

Lemma uniform_results (m : string -> record -> exn bool) (q : string)
    (data : dict record) (results : list MemoryEntry) :
  Scenario.uniform_timestamps data = true ->
  Scenario.search_with m q data = Ok results ->
  forall x y, In x results -> In y results -> Private.comparable x y = true.
Proof.
  intros Hu Hs x y Hx Hy.
  destruct (search_with_sound _ _ _ _ Hs x Hx) as (kx & rx & Hinx & Hex).
  destruct (search_with_sound _ _ _ _ Hs y Hy) as (ky & ry & Hiny & Hey).
  unfold Private.comparable. rewrite key_lt_same_awareness; [reflexivity|].
  apply orb_true_iff in Hu as [Hu|Hu];
    rewrite (timestamps_are_entry _ _ _ _ _ Hu Hinx Hex),
            (timestamps_are_entry _ _ _ _ _ Hu Hiny Hey); reflexivity.
Qed.

(** ** Store, then retrieve *)

(** The end of both halves of the statement below: the limit keeps the
    whole sorted list, sorting keeps the members, and the search found
    the stored entry ([Hin]) because its record matches ([Hmatch]). *)
Ltac stored_entry_found Hin Hmatch :=
  rewrite slice_to_all by (rewrite sort_desc_length; lia);
  apply sort_desc_In;
  match goal with
  | |- In ?e _ =>
      apply (Hin (id e) (record_of_entry e) e);
      [apply dict_set_In | now apply Hmatch | apply entry_of_record_of_entry]
  end.

(** C2, as the code has it.  [store] reads the seven fields of
    [MemoryEntry] (of an [EnhancedMemoryEntry], those of its base) and
    persists a record of exactly six keys under the id; none of the
    extended attributes is written.  After [store(e)] (by the owner, for
    a Private Store) on a store whose records are entries, a [retrieve]
    (by any identity on a Shared Store without index, by the owner on a
    Private Store) whose query matches the content or a tag of [e], with a
    limit of at least the number of stored records, returns [e]: the
    entry read back has the id, content, metadata, timestamp, agent_id,
    tags and importance_score that were stored.  On a Private Store this
    needs the timestamps of the records, the one of [e] included, to be
    all naive or all aware: its sort compares the timestamps of entries
    of equal importance. *)
Theorem store_then_retrieve_returns_entry
    (e : MemoryEntry) (query : string) (limit : Z) (now now' : Z) :
  Scenario.query_matches query e ->
  map fst (record_of_entry e)
  = ["content"; "metadata"; "timestamp"; "agent_id"; "tags";
     "importance_score"]
  /\ (forall (s : Shared.SharedMemorySystem) (requester : string),
      Scenario.all_entries s.(Shared.data) ->
      exists s1,
        Shared.store now e s = (true, s1)
        /\ dict_get e.(id) s1.(Shared.data) = Some (record_of_entry e)
        /\ ((Z.of_nat (length s1.(Shared.data)) <= limit)%Z ->
            In e (Shared.retrieve now' query requester limit s1).1))
  /\ (forall s : Private.PrivateMemorySystem,
      e.(agent_id) = s.(Private.agent_id) ->
      Scenario.all_entries s.(Private.data) ->
      exists s1,
        Private.store now e s = (true, s1)
        /\ dict_get e.(id) s1.(Private.data) = Some (record_of_entry e)
        /\ ((Z.of_nat (length s1.(Private.data)) <= limit)%Z ->
            Scenario.uniform_timestamps s1.(Private.data) = true ->
            In e (Private.retrieve now' query s.(Private.agent_id) limit s1).1)).
Proof.
  intros Hq. split; [reflexivity|]. split.
  - intros s requester Hall. unfold Shared.store.
    eexists. split; [reflexivity|]. simpl.
    split; [apply dict_get_set_eq|]. intros Hlim.
    unfold Shared.retrieve. simpl. rewrite shared_search_with.
    destruct (search_with_entries Shared.matches (lower query)
                (dict_set e.(id) (record_of_entry e) s.(Shared.data))
                (shared_matches_entry (lower query)))
      as (results & Hs & Hlen & Hin).
    { apply all_entries_set; [apply is_entry_record_of_entry|assumption]. }
    rewrite Hs. simpl. stored_entry_found Hin shared_matches_stored.
  - intros s Hown Hall. unfold Private.store.
    rewrite Hown, String.eqb_refl. simpl.
    eexists. split; [reflexivity|]. simpl.
    split; [apply dict_get_set_eq|]. intros Hlim Hu.
    unfold Private.retrieve. simpl. rewrite String.eqb_refl. simpl.
    rewrite private_search_with.
    destruct (search_with_entries Private.matches (lower query)
                (dict_set e.(id) (record_of_entry e) s.(Private.data))
                (private_matches_entry (lower query)))
      as (results & Hs & Hlen & Hin).
    { apply all_entries_set; [apply is_entry_record_of_entry|assumption]. }
    rewrite Hs. simpl.
    rewrite (sort_by_key_total results (uniform_results _ _ _ _ Hu Hs)).
    simpl. stored_entry_found Hin private_matches_stored.
Qed.

Lemma store_then_retrieve_returns_entry_witness :
  let shared :=
    {| Shared.data := Scenario.records_old_new; Shared.access_log := [] |} in
  let private :=
    {| Private.agent_id := "qa_engineer";
       Private.data := Scenario.records_old_new;
       Private.access_log := [] |} in
  In Scenario.entry_X
     (Shared.retrieve 1002 "A" "engineer" 10
        (Shared.store 1001 Scenario.entry_X shared).2).1
  /\ In Scenario.entry_X
       (Private.retrieve 1002 "A" "qa_engineer" 10
          (Private.store 1001 Scenario.entry_X private).2).1.
Proof.
  intros shared private.
  assert (Hq : Scenario.query_matches "A" Scenario.entry_X).
  { left. vm_compute. reflexivity. }
  assert (Hall : Scenario.all_entries Scenario.records_old_new).
  { repeat constructor. }
  destruct (store_then_retrieve_returns_entry
              Scenario.entry_X "A" 10 1001 1002 Hq) as (_ & Hs & Hp).
  split.
  - destruct (Hs shared "engineer" Hall) as (s1 & Hst & _ & Hret).
    rewrite Hst. simpl. apply Hret.
    injection Hst as <-. vm_compute. discriminate.
  - destruct (Hp private eq_refl Hall) as (s1 & Hst & _ & Hret).
    rewrite Hst. simpl. injection Hst as <-. apply Hret.
    + vm_compute. discriminate.
    + vm_compute. reflexivity.
Defined.

(** C2, as stated, fails twice.  The fields that are lost: for an
    enhanced entry with [domain] ["general"], [quality_score] [0.9],
    [usage_count] [2] and [success_rate] [0.5], the record that [store]
    persists has the six keys of a plain entry and none of
    ["domain"], ["quality_score"], ["usage_count"], ["success_rate"],
    ["federation_source"]; [retrieve] rebuilds the plain entry alone.
    And the entry itself: in a Private Store that holds a matching entry
    of the same importance with a naive timestamp, an entry with an aware
    timestamp is stored, but the owner's [retrieve] then fails in its sort,
    logs ["retrieve_error"] and returns nothing. *)
Lemma store_then_retrieve_loses_attributes_or_entry :
  let s1 :=
    (Shared.store 1001 Scenario.insight_search.(Domain.base)
       Scenario.shared_store).2 in
  let p1 :=
    (Private.store 1001 Scenario.entry_utc
       (Private.store 1000 Scenario.entry_old Scenario.qa_store).2) in
  Scenario.insight_search.(Domain.domain) = "general"
  /\ Scenario.insight_search.(Domain.quality_score) = 0.9%Q
  /\ Scenario.insight_search.(Domain.usage_count) = 2%Z
  /\ Scenario.insight_search.(Domain.success_rate) = 0.5%Q
  /\ (exists r,
        dict_get "i1" s1.(Shared.data) = Some r
        /\ map fst r = ["content"; "metadata"; "timestamp"; "agent_id";
                        "tags"; "importance_score"]
        /\ dict_get "domain" r = None
        /\ dict_get "quality_score" r = None
        /\ dict_get "usage_count" r = None
        /\ dict_get "success_rate" r = None
        /\ dict_get "federation_source" r = None)
  /\ (Shared.retrieve 1002 "binary search" "engineer" 10 s1).1
     = [Scenario.insight_search.(Domain.base)]
  /\ p1.1 = true
  /\ Scenario.query_matches "cache" Scenario.entry_utc
  /\ Scenario.all_entries p1.2.(Private.data)
  /\ (Private.retrieve 1002 "cache" "qa_engineer" 10 p1.2).1 = []
  /\ (Private.retrieve 1002 "cache" "qa_engineer" 10 p1.2).2.(Private.access_log)
     = p1.2.(Private.access_log)
       ++ [ {| log_timestamp := 1002%Z;
                     operation := "retrieve_error";
                     log_agent_id := VStr "qa_engineer";
                     details :=
                       [ ("query", DStr "cache");
                         ("error",
                          DStr "can't compare offset-naive and offset-aware datetimes") ] |} ].
Proof.
  cbv zeta.
  split; [reflexivity|]. split; [reflexivity|]. split; [reflexivity|].
  split; [reflexivity|]. split.
  { eexists. vm_compute. repeat split; reflexivity. }
  split; [vm_compute; reflexivity|]. split; [reflexivity|]. split.
  { left. vm_compute. reflexivity. }
  split; [repeat constructor|]. split; vm_compute; reflexivity.
Qed.

(** ** Private retrieve against the Shared Store's keyword search *)

Lemma matches_private_shared (q : string) (r : record) :
  Scenario.is_entry r = true ->
  exists bs bm, Shared.matches q r = Ok bs /\ Private.matches q r = Ok (bs || bm).
Proof.
  intros H. destruct (is_entry_fields r "" H) as (e & _ & Hc & Hg & Hm).
  unfold Shared.matches, Private.matches, dict_item. rewrite Hc, Hg, Hm. simpl.
  destruct (str_in q _); [exists true, false; auto|].
  destruct (existsb _ e.(tags)); [exists true, false; auto|].
  eexists false, _. split; reflexivity.
Qed.

Lemma key_lt_tied (x y : MemoryEntry) :
  ((x.(importance_score) == y.(importance_score))%Q ->
   x.(timestamp) = y.(timestamp)) ->
  Private.key_lt x y = Ok (Shared.key_lt x y).
Proof.
  intros H. unfold Private.key_lt, Shared.key_lt.
  destruct (Qeq_bool x.(importance_score) y.(importance_score)) eqn:Heq;
    [|reflexivity].
  apply Qeq_bool_iff in Heq. rewrite (H Heq), datetime_eqb_refl.
  f_equal. symmetry. unfold float_lt.
  apply negb_false_iff, Qle_bool_iff. rewrite Heq. apply Qle_refl.
Qed.

(** C9, as the code has it.  Over records that are entries, the owner's
    [retrieve] on a Private Store returns the same entries in the same
    order as the keyword search of a Shared Store over the same records
    provided that no record is accepted through a metadata value alone
    and that records of equal importance have equal timestamps.  (The
    Private Store also looks for the query in the metadata values, and
    sorts by importance and then by timestamp.) *)
Theorem private_retrieve_agrees_with_shared_search
    (data : dict record) (owner query : string) (limit : Z)
    (now now' : Z) (log log' : list LogRecord) :
  Scenario.all_entries data ->
  (forall entry_id r,
      In (entry_id, r) data ->
      Private.matches (lower query) r = Ok true ->
      Shared.matches (lower query) r = Ok true) ->
  (forall id1 r1 e1 id2 r2 e2,
      In (id1, r1) data -> In (id2, r2) data ->
      entry_of_record id1 r1 = Ok e1 -> entry_of_record id2 r2 = Ok e2 ->
      (e1.(importance_score) == e2.(importance_score))%Q ->
      e1.(timestamp) = e2.(timestamp)) ->
  (Private.retrieve now query owner limit
     {| Private.agent_id := owner; Private.data := data;
        Private.access_log := log |}).1
  = (Shared.retrieve now' query owner limit
       {| Shared.data := data; Shared.access_log := log' |}).1.
Proof.
  intros Hall Hmeta Hties.
  unfold Private.retrieve, Shared.retrieve. simpl.
  rewrite String.eqb_refl. simpl.
  rewrite private_search_with, shared_search_with.
  rewrite (search_with_ext Private.matches Shared.matches).
  - destruct (Scenario.search_with Shared.matches (lower query) data)
      as [results|] eqn:Hs; simpl; [|reflexivity].
    assert (Hkey : forall x y, In x results -> In y results ->
                     Private.key_lt x y = Ok (Shared.key_lt x y)).
    { intros x y Hx Hy. apply key_lt_tied.
      destruct (search_with_sound _ _ _ _ Hs x Hx) as (kx & rx & Hinx & Hex).
      destruct (search_with_sound _ _ _ _ Hs y Hy) as (ky & ry & Hiny & Hey).
      eauto. }
    rewrite sort_by_key_total.
    + simpl. f_equal. apply sort_desc_ext. intros x y Hx Hy.
      unfold Private.key_ltb. now rewrite Hkey.
    + intros x y Hx Hy. unfold Private.comparable. now rewrite Hkey.
  - intros k r Hin.
    assert (Hr : Scenario.is_entry r = true).
    { unfold Scenario.all_entries in Hall. rewrite Forall_forall in Hall.
      apply (Hall (k, r)). now apply list_elem_of_In. }
    destruct (matches_private_shared (lower query) r Hr)
      as (bs & bm & Hs & Hp).
    rewrite Hs, Hp. destruct bs; [reflexivity|]. simpl in *.
    destruct bm; [|reflexivity].
    specialize (Hmeta k r Hin Hp). congruence.
Qed.

Lemma private_retrieve_agrees_with_shared_search_witness :
  (Private.retrieve 2000 "CACHE" "qa_engineer" 3
     {| Private.agent_id := "qa_engineer";
        Private.data := Scenario.records_tied;
        Private.access_log := [] |}).1
  = (Shared.retrieve 2001 "CACHE" "qa_engineer" 3
       {| Shared.data := Scenario.records_tied;
          Shared.access_log := [] |}).1
  /\ (Shared.retrieve 2001 "CACHE" "qa_engineer" 3
        {| Shared.data := Scenario.records_tied;
           Shared.access_log := [] |}).1
     = [Scenario.entry_c; Scenario.entry_a; Scenario.entry_b].
Proof.
  split; [|vm_compute; reflexivity].
  apply private_retrieve_agrees_with_shared_search.
  - repeat constructor.
  - intros k r Hin _.
    repeat (destruct Hin as [[= <- <-]|Hin]; [vm_compute; reflexivity|]).
    destruct Hin.
  - intros id1 r1 e1 id2 r2 e2 H1 H2.
    repeat (destruct H1 as [[= <- <-]|H1];
            [repeat (destruct H2 as [[= <- <-]|H2];
                     [vm_compute; intros [= <-] [= <-] Hq;
                      first [reflexivity | discriminate Hq]|]);
             destruct H2|]).
    destruct H1.
Defined.

(** C9, as stated, fails on both counts: a query found only in a
    metadata value is answered by the Private Store and not by the
    Shared Store's search, and two entries of equal importance come back
    newest first from the Private Store and in stored order from the
    Shared Store. *)
Lemma private_retrieve_differs_from_shared_search :
  (Private.retrieve 2000 "review" "qa_engineer" 10
     {| Private.agent_id := "qa_engineer";
        Private.data := [("X", record_of_entry Scenario.entry_X)];
        Private.access_log := [] |}).1 = [Scenario.entry_X]
  /\ (Shared.retrieve 2000 "review" "qa_engineer" 10
        {| Shared.data := [("X", record_of_entry Scenario.entry_X)];
           Shared.access_log := [] |}).1 = []
  /\ (Private.retrieve 2000 "cache" "qa_engineer" 10
        {| Private.agent_id := "qa_engineer";
           Private.data := Scenario.records_old_new;
           Private.access_log := [] |}).1
     = [Scenario.entry_new; Scenario.entry_old]
  /\ (Shared.retrieve 2000 "cache" "qa_engineer" 10
        {| Shared.data := Scenario.records_old_new;
           Shared.access_log := [] |}).1
     = [Scenario.entry_old; Scenario.entry_new].
Proof. vm_compute. auto. Qed.

(** ** Insight quality and context similarity *)

Section Scores.
Local Open Scope Q_scope.

Lemma ratio_bounds (c n : Z) :
  (0 <= c <= n)%Z -> (0 < n)%Z -> 0 <= inject_Z c / inject_Z n <= 1.
Proof.
  intros [H0 H1] Hn.
  assert (Hn' : 0 < inject_Z n)
    by (change 0 with (inject_Z 0); now rewrite <- Zlt_Qlt).
  split.
  - apply Qle_shift_div_l; [assumption|]. rewrite Qmult_0_l.
    change 0 with (inject_Z 0). now rewrite <- Zle_Qle.
  - apply Qle_shift_div_r; [assumption|]. rewrite Qmult_1_l.
    now rewrite <- Zle_Qle.
Qed.

Lemma min1_bounds (x : Q) : 0 <= x -> 0 <= Qmin 1 x <= 1.
Proof.
  intros H. split.
  - apply Q.min_glb; [lra|assumption].
  - apply Q.le_min_l.
Qed.

Lemma count_present_bounds (words : list string) (insight : string) :
  (0 <= Filter.count_present words insight <= Z.of_nat (length words))%Z.
Proof.
  unfold Filter.count_present. split; [lia|].
  apply inj_le, List.filter_length_le.
Qed.

Lemma len_nonneg (s : string) : 0 <= inject_Z (len s).
Proof.
  unfold len. change 0 with (inject_Z 0). rewrite <- Zle_Qle. lia.
Qed.

Lemma specificity_score_bounds (insight : string) :
  0 <= Filter.specificity_score insight <= 1.
Proof.
  unfold Filter.specificity_score. apply ratio_bounds.
  - apply count_present_bounds.
  - reflexivity.
Qed.

Lemma code_score_bounds (insight : string) :
  0 <= Filter.code_score insight <= 1.
Proof. unfold Filter.code_score. destruct (_ || _)%bool; lra. Qed.

Lemma action_score_bounds (insight : string) :
  0 <= Filter.action_score insight <= 1.
Proof.
  unfold Filter.action_score. apply min1_bounds.
  pose proof (count_present_bounds Filter.action_words insight) as [H _].
  apply Qle_shift_div_l; [lra|]. rewrite Qmult_0_l.
  change 0 with (inject_Z 0). now rewrite <- Zle_Qle.
Qed.

Lemma length_score_le_1 (insight : string) : Filter.length_score insight <= 1.
Proof.
  unfold Filter.length_score. set (n := inject_Z (len insight)).
  pose proof (len_nonneg insight) as Hn. fold n in Hn.
  assert (H200 : 0 <= n / 200) by (apply Qle_shift_div_l; lra).
  pose proof (min1_bounds (n / 200) H200) as [Ha Hb].
  pose proof (Q.le_max_l 0 ((n - 500) / 1000)).
  nra.
Qed.

(** The length factor is non-negative up to 1500 characters. *)
Lemma length_score_nonneg (insight : string) :
  (len insight <= 1500)%Z -> 0 <= Filter.length_score insight.
Proof.
  intros Hlen. unfold Filter.length_score. set (n := inject_Z (len insight)).
  pose proof (len_nonneg insight) as Hn. fold n in Hn.
  assert (Hn' : n <= 1500).
  { unfold n. change 1500 with (inject_Z 1500). now rewrite <- Zle_Qle. }
  assert (H200 : 0 <= n / 200) by (apply Qle_shift_div_l; lra).
  pose proof (min1_bounds (n / 200) H200) as [Ha Hb].
  assert (Hmax : Qmax 0 ((n - 500) / 1000) <= 1).
  { apply Q.max_lub; [lra|]. apply Qle_shift_div_r; lra. }
  nra.
Qed.

(** ... and negative beyond. *)
Lemma length_score_negative (insight : string) :
  (1500 < len insight)%Z -> Filter.length_score insight < 0.
Proof.
  intros Hlen. unfold Filter.length_score. set (n := inject_Z (len insight)).
  assert (Hn' : 1500 < n).
  { unfold n. change 1500 with (inject_Z 1500). now rewrite <- Zlt_Qlt. }
  assert (Hmin : Qmin 1 (n / 200) == 1).
  { apply Q.min_l. apply Qle_shift_div_l; lra. }
  assert (Hmax : 1 < Qmax 0 ((n - 500) / 1000)).
  { eapply Qlt_le_trans; [|apply Q.le_max_r].
    apply Qlt_shift_div_l; lra. }
  rewrite Hmin. lra.
Qed.

Lemma calculate_insight_quality_mean (insight context : string) :
  Filter.calculate_insight_quality insight context
  == (Filter.length_score insight + Filter.specificity_score insight
      + Filter.code_score insight + Filter.action_score insight) / 4.
Proof.
  unfold Filter.calculate_insight_quality, Filter.mean. simpl.
  change (inject_Z 4) with 4. field.
Qed.

Lemma calculate_insight_quality_bounds (insight context : string) :
  (len insight <= 1500)%Z ->
  0 <= Filter.calculate_insight_quality insight context <= 1.
Proof.
  intros Hlen. rewrite calculate_insight_quality_mean.
  pose proof (length_score_nonneg insight Hlen).
  pose proof (length_score_le_1 insight).
  pose proof (specificity_score_bounds insight) as [? ?].
  pose proof (code_score_bounds insight) as [? ?].
  pose proof (action_score_bounds insight) as [? ?].
  split.
  - apply Qle_shift_div_l; lra.
  - apply Qle_shift_div_r; lra.
Qed.

Lemma context_similarity_bounds (insight context : string) :
  0 <= Filter._calculate_context_similarity insight context <= 1.
Proof.
  unfold Filter._calculate_context_similarity.
  destruct (decide _) as [_|_]; [lra|].
  destruct (decide _) as [_|Hne]; [lra|].
  apply ratio_bounds.
  - split; [lia|]. apply inj_le, subseteq_size.
    transitivity (Filter.word_set insight);
      [apply intersection_subseteq_l | apply union_subseteq_l].
  - assert (Hsz : size (Filter.word_set insight ∪ Filter.word_set context)
                 <> 0%nat).
    { apply size_non_empty_iff. intros He. apply Hne.
      now apply leibniz_equiv. }
    lia.
Qed.

(** C5, on the code.  For the insight of 2500 characters ["aaa..."] the
    length factor is [-1] and the quality score, the mean of the four
    factors [-1], [0], [0.5] and [0], is [-1/8]: below the interval
    [[0,1]]. *)
Theorem insight_quality_negative_for_long_insight :
  len Scenario.long_insight = 2500%Z
  /\ Filter.length_score Scenario.long_insight == -1
  /\ Filter.specificity_score Scenario.long_insight == 0
  /\ Filter.code_score Scenario.long_insight == 0.5
  /\ Filter.action_score Scenario.long_insight == 0
  /\ Filter.calculate_insight_quality Scenario.long_insight "" == - (1 # 8)
  /\ Filter.calculate_insight_quality Scenario.long_insight "" < 0.
Proof. vm_compute. auto 10. Qed.

End Scores.

(** ** The insight filter *)

Section Ranking.
Local Open Scope Q_scope.

Lemma float_lt_spec (a b : Q) : float_lt a b = true <-> a < b.
Proof.
  unfold float_lt. rewrite negb_true_iff. split.
  - intros H. apply Qnot_le_lt. intros Hle.
    apply Qle_bool_iff in Hle. congruence.
  - intros H. destruct (Qle_bool b a) eqn:E; [|reflexivity].
    apply Qle_bool_iff in E. lra.
Qed.

Lemma float_lt_false (a b : Q) : float_lt a b = false <-> b <= a.
Proof.
  unfold float_lt. rewrite negb_false_iff. apply Qle_bool_iff.
Qed.

Lemma insert_desc_In {A} (lt : A -> A -> bool) (x y : A) (l : list A) :
  In y (insert_desc lt x l) <-> y = x \/ In y l.
Proof.
  split.
  - intros H. apply (Permutation_in _ (insert_desc_Permutation lt x l)) in H.
    destruct H; auto.
  - intros H. apply (Permutation_in _ (Permutation_sym
                                         (insert_desc_Permutation lt x l))).
    destruct H; [now left|now right].
Qed.

Lemma insert_desc_sorted {A} (key : A -> Q) (x : A) (l : list A) :
  StronglySorted (fun a b => key b <= key a) l ->
  StronglySorted (fun a b => key b <= key a)
    (insert_desc (fun a b => float_lt (key a) (key b)) x l).
Proof.
  induction 1 as [|y l Hl IH Hy]; simpl.
  - repeat constructor.
  - destruct (float_lt (key x) (key y)) eqn:E.
    + apply float_lt_spec in E. constructor; [assumption|].
      apply Forall_forall. intros b Hb.
      apply list_elem_of_In, insert_desc_In in Hb. destruct Hb as [->|Hb]; [lra|].
      rewrite Forall_forall in Hy. apply Hy. now apply list_elem_of_In.
    + apply float_lt_false in E. constructor; [now constructor|].
      constructor; [assumption|].
      eapply Forall_impl; [eassumption|]. simpl. intros b Hb. lra.
Qed.

Lemma sort_desc_sorted {A} (key : A -> Q) (l : list A) :
  StronglySorted (fun a b => key b <= key a)
    (sort_desc (fun a b => float_lt (key a) (key b)) l).
Proof.
  induction l as [|x l IH]; simpl; [constructor|].
  now apply insert_desc_sorted.
Qed.

Lemma StronglySorted_app_cross {A} (R : A -> A -> Prop) (l1 l2 : list A) :
  StronglySorted R (l1 ++ l2) ->
  forall a b, In a l1 -> In b l2 -> R a b.
Proof.
  induction l1 as [|x l1 IH]; simpl; intros H a b Ha Hb; [destruct Ha|].
  apply StronglySorted_inv in H as [Hs Hx].
  destruct Ha as [<-|Ha]; [|now apply IH].
  rewrite Forall_forall in Hx. apply Hx, list_elem_of_In, in_or_app. now right.
Qed.

(** C6.  Whatever floats the quality score, the context similarity and
    the sort key are computed to, with a non-negative [max_insights]:
    [filter_insights] rates every candidate, keeping its entry, its
    [success_rate] and its [usage_count] and assigning it the quality
    score and the context similarity computed from its content; it
    returns the first [max_insights] entries of a list [ranked] that (1)
    is a rearrangement of exactly those rated candidates whose quality
    score is not below [min_quality_score] and (2) is in descending order
    of the sort key; so (3) it returns at most [max_insights] entries, and
    no entry of [ranked] that it leaves out has a greater key than one it
    returns.  The sort key of the code is
    [0.4 * quality_score + 0.3 * context_similarity + 0.2 * success_rate
    + 0.1 * min(1, usage_count / 10)], with [success_rate] read as [1] and
    [usage_count] as [0] where the attribute is absent. *)
Theorem filter_insights_drops_ranks_truncates
    (quality similarity : string -> string -> Q) (key : Filter.Insight -> Q)
    (self : Filter.IntelligentInsightFilter) (insights : list Filter.Insight)
    (context : string) :
  (0 <= self.(Filter.max_insights))%Z ->
  let rated := map (Filter.rate_with quality similarity context) insights in
  let result :=
    Filter.filter_insights_with quality similarity key self insights context in
  Forall2
    (fun i r =>
       r.(Filter.entry) = i.(Filter.entry)
       /\ r.(Filter.success_rate) = i.(Filter.success_rate)
       /\ r.(Filter.usage_count) = i.(Filter.usage_count)
       /\ r.(Filter.quality_score) = quality i.(Filter.entry).(content) context
       /\ r.(Filter.context_similarity)
          = similarity i.(Filter.entry).(content) context)
    insights rated
  /\ (exists ranked : list Filter.Insight,
        result = take (Z.to_nat self.(Filter.max_insights)) ranked
        /\ Permutation ranked
             (List.filter
                (fun r => Qle_bool self.(Filter.min_quality_score)
                                   r.(Filter.quality_score)) rated)
        /\ (forall r, In r ranked <->
              In r rated
              /\ ~ r.(Filter.quality_score) < self.(Filter.min_quality_score))
        /\ StronglySorted (fun a b => key b <= key a) ranked
        /\ (forall a b,
              In a result ->
              In b (drop (Z.to_nat self.(Filter.max_insights)) ranked) ->
              key b <= key a))
  /\ (Z.of_nat (length result) <= self.(Filter.max_insights))%Z
  /\ Filter.filter_insights self insights context
     = Filter.filter_insights_with Filter.calculate_insight_quality
         Filter._calculate_context_similarity Filter.combined_score
         self insights context
  /\ (forall i,
        Filter.combined_score i
        == 0.4 * i.(Filter.quality_score)
           + 0.3 * i.(Filter.context_similarity)
           + 0.2 * match i.(Filter.success_rate) with
                   | Some r => r
                   | None => 1
                   end
           + 0.1 * Qmin 1 (inject_Z match i.(Filter.usage_count) with
                                    | Some n => n
                                    | None => 0%Z
                                    end / 10)).
Proof.
  intros Hmax rated result.
  set (keep := fun r : Filter.Insight =>
                 Qle_bool self.(Filter.min_quality_score)
                          r.(Filter.quality_score)).
  set (ranked := sort_desc (fun x y => float_lt (key x) (key y))
                           (List.filter keep rated)).
  assert (Hres : result = take (Z.to_nat self.(Filter.max_insights)) ranked).
  { unfold result, Filter.filter_insights_with, slice_to.
    fold rated. fold keep. fold ranked.
    destruct (Z.leb_spec 0 self.(Filter.max_insights)); [reflexivity|lia]. }
  assert (Hsorted : StronglySorted (fun a b => key b <= key a) ranked)
    by apply sort_desc_sorted.
  split; [|split; [|split; [|split]]].
  - unfold rated. clear. induction insights as [|i insights IH]; simpl;
      constructor; [repeat split|exact IH].
  - exists ranked. split; [exact Hres|]. split; [apply sort_desc_Permutation|].
    split; [|split; [exact Hsorted|]].
    + intros r. unfold ranked. rewrite sort_desc_In, filter_In. unfold keep.
      split; intros [Hin Hq]; (split; [assumption|]).
      * apply Qle_bool_iff in Hq. lra.
      * apply Qle_bool_iff. lra.
    + intros a b Ha Hb. rewrite Hres in Ha.
      rewrite <- (take_drop (Z.to_nat self.(Filter.max_insights)) ranked)
        in Hsorted.
      exact (StronglySorted_app_cross _ _ _ Hsorted a b Ha Hb).
  - unfold result, Filter.filter_insights_with. now apply slice_to_length.
  - reflexivity.
  - intros i. unfold Filter.combined_score.
    destruct i.(Filter.success_rate), i.(Filter.usage_count); simpl; ring.
Qed.

Lemma filter_insights_drops_ranks_truncates_witness :
  let self := {| Filter.min_quality_score := 0.15;
                 Filter.max_insights := 2 |} in
  map (fun r => r.(Filter.entry).(id))
      (Filter.filter_insights self Scenario.candidates
         "check the error pattern")
  = ["code"; "hint"]
  /\ (Z.of_nat (length (Filter.filter_insights self Scenario.candidates
                          "check the error pattern")) <= 2)%Z
  /\ Forall (fun r => ~ r.(Filter.quality_score) < 0.15)
            (Filter.filter_insights self Scenario.candidates
               "check the error pattern").
Proof.
  intros self.
  pose proof (filter_insights_drops_ranks_truncates
                Filter.calculate_insight_quality
                Filter._calculate_context_similarity Filter.combined_score
                self Scenario.candidates "check the error pattern") as H.
  cbv zeta in H.
  destruct H as (_ & (ranked & Hres & _ & Hin & _) & Hlen & Hinst & _);
    [cbn; lia|].
  split; [vm_compute; reflexivity|]. rewrite Hinst.
  split; [exact Hlen|].
  apply Forall_forall. intros r Hr. apply list_elem_of_In in Hr.
  apply Hin. rewrite <- (take_drop (Z.to_nat self.(Filter.max_insights)) ranked).
  apply in_or_app. left. rewrite <- Hres. exact Hr.
Defined.

End Ranking.

(** ** Domain classification *)

Lemma dict_set_new {V} (k : string) (v : V) (d : dict V) :
  dict_mem k d = false -> dict_set k v d = d ++ [(k, v)].
Proof.
  unfold dict_mem. induction d as [|[k' v'] d IH]; simpl; [reflexivity|].
  destruct (String.eqb k k'); [discriminate|].
  intros H. now rewrite IH.
Qed.

Lemma dict_mem_app_new {V} (k k' : string) (v : V) (d : dict V) :
  dict_mem k d = false -> k <> k' -> dict_mem k (d ++ [(k', v)]) = false.
Proof.
  unfold dict_mem. intros Hd Hne.
  induction d as [|[k0 v0] d IH]; simpl in *.
  - destruct (String.eqb_spec k k'); [contradiction|reflexivity].
  - destruct (String.eqb k k0); [discriminate|]. now apply IH.
Qed.

(** The scores kept by the loop of [classify_domain]: those of the
    domains with a positive score, in declaration order. *)
Lemma score_loop (content_lower : string) (table : dict (list string))
    (acc : dict Z) :
  NoDup (map fst table) ->
  (forall k, In k (map fst table) -> dict_mem k acc = false) ->
  foldl (fun domain_scores dp =>
           let score := Domain.pattern_score dp.2 content_lower in
           if (0 <? score)%Z then dict_set dp.1 score domain_scores
           else domain_scores)
        acc table
  = acc ++ List.filter (fun kv => (0 <? kv.2)%Z)
             (map (fun dp => (dp.1, Domain.pattern_score dp.2 content_lower))
                  table).
Proof.
  revert acc. induction table as [|[k ps] table IH]; intros acc Hnd Hacc; simpl.
  - now rewrite app_nil_r.
  - simpl in Hnd. apply NoDup_cons in Hnd as [Hk Hnd].
    destruct (0 <? Domain.pattern_score ps content_lower)%Z eqn:Hs.
    + rewrite dict_set_new by (apply Hacc; now left).
      rewrite IH; [now rewrite <- app_assoc|assumption|].
      intros k' Hk'. apply dict_mem_app_new; [apply Hacc; now right|].
      intros ->. apply Hk. now apply list_elem_of_In.
    + apply IH; [assumption|]. intros k' Hk'. apply Hacc. now right.
Qed.

Lemma max_by_score_split (items pre mid : list (string * Z)) (best : string * Z) :
  Forall (fun x => (x.2 < best.2)%Z) pre ->
  Forall (fun x => (x.2 <= best.2)%Z) mid ->
  exists l1 l2 r,
    pre ++ best :: mid ++ items = l1 ++ r :: l2
    /\ Domain.max_by_score best items = r
    /\ Forall (fun x => (x.2 < r.2)%Z) l1
    /\ Forall (fun x => (x.2 <= r.2)%Z) l2.
Proof.
  revert pre mid best.
  induction items as [|x items IH]; intros pre mid best Hpre Hmid; simpl.
  - exists pre, mid, best. now rewrite app_nil_r.
  - destruct (Z.ltb_spec best.2 x.2) as [Hlt|Hge].
    + destruct (IH (pre ++ best :: mid) [] x) as (l1 & l2 & r & Heq & Hr & H1 & H2).
      * apply Forall_app. split; [|constructor].
        -- eapply Forall_impl; [exact Hpre|]. simpl. intros; lia.
        -- assumption.
        -- eapply Forall_impl; [exact Hmid|]. simpl. intros; lia.
      * constructor.
      * exists l1, l2, r. split; [|auto].
        rewrite <- Heq. simpl. now rewrite <- app_assoc.
    + destruct (IH pre (mid ++ [x]) best) as (l1 & l2 & r & Heq & Hr & H1 & H2).
      * assumption.
      * apply Forall_app. split; [assumption|]. now repeat constructor.
      * exists l1, l2, r. split; [|auto].
        rewrite <- Heq. now rewrite <- app_assoc.
Qed.

Lemma filter_split {A} (P : A -> bool) (l l1 l2 : list A) (r : A) :
  List.filter P l = l1 ++ r :: l2 ->
  exists a b, l = a ++ r :: b /\ List.filter P a = l1 /\ List.filter P b = l2.
Proof.
  revert l1. induction l as [|x l IH]; intros l1; simpl.
  - destruct l1; discriminate.
  - destruct (P x) eqn:Hx.
    + destruct l1 as [|y l1]; simpl.
      * intros [= <- Hl]. exists [], l. simpl. auto.
      * intros [= <- Hl]. destruct (IH l1 Hl) as (a & b & -> & Ha & Hb).
        exists (x :: a), b. simpl. rewrite Hx, Ha. auto.
    + intros Hl. destruct (IH l1 Hl) as (a & b & -> & Ha & Hb).
      exists (x :: a), b. simpl. rewrite Hx. auto.
Qed.

Lemma filter_nil_Forall {A} (P : A -> bool) (l : list A) :
  List.filter P l = [] -> Forall (fun x => P x = false) l.
Proof.
  induction l as [|x l IH]; simpl; [constructor|].
  destruct (P x) eqn:Hx; [discriminate|]. intros H. constructor; auto.
Qed.

Lemma pattern_score_nonneg (patterns : list string) (content_lower : string) :
  (0 <= Domain.pattern_score patterns content_lower)%Z.
Proof. unfold Domain.pattern_score. lia. Qed.

Lemma classify_table (table : dict (list string)) (content_lower : string) :
  NoDup (map fst table) ->
  let score := fun dp : string * list string =>
                 Domain.pattern_score dp.2 content_lower in
  let chosen :=
    match foldl (fun domain_scores dp =>
                   let score := Domain.pattern_score dp.2 content_lower in
                   if (0 <? score)%Z then dict_set dp.1 score domain_scores
                   else domain_scores)
                [] table with
    | [] => "general"
    | x :: items => (Domain.max_by_score x items).1
    end in
  (chosen = "general" /\ Forall (fun dp => score dp = 0%Z) table)
  \/ (exists before d patterns after,
         table = before ++ (d, patterns) :: after
         /\ chosen = d
         /\ (0 < score (d, patterns))%Z
         /\ Forall (fun dp => (score dp < score (d, patterns))%Z) before
         /\ Forall (fun dp => (score dp <= score (d, patterns))%Z) after).
Proof.
  intros Hnd score chosen. unfold chosen.
  rewrite score_loop; [|assumption|reflexivity].
  rewrite app_nil_l.
  set (scored := map (fun dp => (dp.1, Domain.pattern_score dp.2 content_lower))
                     table).
  destruct (List.filter (fun kv => (0 <? kv.2)%Z) scored)
    as [|x items] eqn:Hf.
  - left. split; [reflexivity|].
    apply filter_nil_Forall in Hf. unfold scored in Hf.
    rewrite Forall_map in Hf.
    eapply Forall_impl; [exact Hf|]. simpl. intros dp Hdp. unfold score.
    pose proof (pattern_score_nonneg dp.2 content_lower).
    apply Z.ltb_ge in Hdp. lia.
  - right.
    destruct (max_by_score_split items [] [] x)
      as (l1 & l2 & r & Heq & Hr & H1 & H2); [constructor|constructor|].
    simpl in Heq. rewrite Heq in Hf.
    assert (Hpos : (0 < r.2)%Z).
    { assert (Hin : In r (List.filter (fun kv => (0 <? kv.2)%Z) scored)).
      { rewrite Hf. apply in_elt. }
      apply filter_In in Hin as [_ Hin]. now apply Z.ltb_lt. }
    destruct (filter_split _ _ _ _ _ Hf) as (a & b & Hab & Ha & Hb).
    unfold scored in Hab.
    apply map_eq_app in Hab as (ta & tb' & Ht & Hta & Htb').
    apply map_eq_cons in Htb' as ([d ps] & tb & -> & Hd & Htb).
    exists ta, d, ps, tb. rewrite Hr. clear Hr Heq Hf.
    rewrite <- Hd in Hpos, H1, H2 |- *. simpl in Hpos. simpl.
    split; [assumption|]. split; [reflexivity|]. split; [assumption|].
    rewrite Forall_forall in H1. rewrite Forall_forall in H2. simpl in H1, H2.
    split.
    + subst a. apply Forall_forall. intros dp Hdp. unfold score. simpl.
      destruct (Z.ltb_spec 0 (Domain.pattern_score dp.2 content_lower))
        as [Hp|Hp]; [|lia].
      apply (H1 (dp.1, Domain.pattern_score dp.2 content_lower)).
      apply list_elem_of_In. rewrite <- Ha. apply filter_In. split.
      * apply in_map_iff. exists dp. split; [reflexivity|].
        now apply list_elem_of_In.
      * now apply Z.ltb_lt.
    + subst b. apply Forall_forall. intros dp Hdp. unfold score. simpl.
      destruct (Z.ltb_spec 0 (Domain.pattern_score dp.2 content_lower))
        as [Hp|Hp]; [|lia].
      apply (H2 (dp.1, Domain.pattern_score dp.2 content_lower)).
      apply list_elem_of_In. rewrite <- Hb. apply filter_In. split.
      * apply in_map_iff. exists dp. split; [reflexivity|].
        now apply list_elem_of_In.
      * now apply Z.ltb_lt.
Qed.

(** C7.  With the score of a domain being the number of its keywords
    that occur in the lower-cased text, [classify_domain] returns
    ["general"] when every domain scores 0, and otherwise the first
    domain, in declaration order, whose score is the highest: the score
    is positive, every domain declared earlier scores strictly less and
    every domain declared later scores at most as much.  It is a function
    of the text, and on ["binary search implementation"] its value is
    ["algorithms"]. *)
Theorem classify_domain_first_highest_score (text : string) :
  let score := fun dp : string * list string =>
                 Domain.pattern_score dp.2 (lower text) in
  (forall dp, score dp
              = Z.of_nat (length (List.filter
                                    (fun pattern => str_in pattern (lower text))
                                    dp.2)))
  /\ ((Domain.classify_domain text = "general"
       /\ Forall (fun dp => score dp = 0%Z) Domain.domain_patterns)
      \/ (exists before d patterns after,
             Domain.domain_patterns = before ++ (d, patterns) :: after
             /\ Domain.classify_domain text = d
             /\ (0 < score (d, patterns))%Z
             /\ Forall (fun dp => (score dp < score (d, patterns))%Z) before
             /\ Forall (fun dp => (score dp <= score (d, patterns))%Z) after))
  /\ Domain.classify_domain "binary search implementation" = "algorithms".
Proof.
  intros score. split; [reflexivity|]. split; [|vm_compute; reflexivity].
  apply (classify_table Domain.domain_patterns (lower text)).
  apply (bool_decide_unpack _). vm_compute. reflexivity.
Qed.

(** ** Federation: export, then import *)

Lemma store_domain_insight_spec (now : Z)
    (insight : Domain.EnhancedMemoryEntry) (pool : Domain.DomainSpecificMemory) :
  let d := Domain.classify_domain insight.(Domain.base).(content) in
  exists stamped pool',
    Domain.store_domain_insight now insight pool = (true, stamped, pool')
    /\ stamped.(Domain.base) = insight.(Domain.base)
    /\ stamped.(Domain.domain) = d
    /\ stamped.(Domain.federation_source) = insight.(Domain.federation_source)
    /\ Scenario.pool_record d insight.(Domain.base).(id) pool'
       = Some (record_of_entry insight.(Domain.base))
    /\ forall d' id',
         (d' <> d \/ id' <> insight.(Domain.base).(id)) ->
         Scenario.pool_record d' id' pool' = Scenario.pool_record d' id' pool.
Proof.
  intros d. unfold Domain.store_domain_insight, Domain.get_domain_memory.
  fold d.
  destruct (dict_get d pool.(Domain.domain_memories)) as [m|] eqn:Hm; simpl.
  - eexists _, _. split; [reflexivity|]. simpl.
    repeat split; try reflexivity.
    + unfold Scenario.pool_record. simpl.
      rewrite dict_get_set_eq. simpl. apply dict_get_set_eq.
    + intros d' id' Hne. unfold Scenario.pool_record. simpl.
      rewrite dict_get_set.
      destruct (String.eqb_spec d' d) as [->|_]; [|reflexivity].
      rewrite Hm. simpl. apply dict_get_set_ne.
      destruct Hne; congruence.
  - eexists _, _. split; [reflexivity|]. simpl.
    repeat split; try reflexivity.
    + unfold Scenario.pool_record. simpl.
      rewrite dict_get_set_eq. simpl. apply dict_get_set_eq.
    + intros d' id' Hne. unfold Scenario.pool_record. simpl.
      rewrite !dict_get_set.
      destruct (String.eqb_spec d' d) as [->|_]; [|reflexivity].
      rewrite Hm. simpl. rewrite dict_get_set_ne by (destruct Hne; congruence).
      now destruct (dict_get d pool.(Domain.base_path)).
Qed.

Lemma import_loop_spec (uuid4 : nat -> string) (clock : nat -> Z)
    (org : string) (l : list Federation.InsightData) :
  forall (n : nat) (pool : Domain.DomainSpecificMemory) (c : Z),
    NoDup (map uuid4 (seq n (length l))) ->
    exists built pool',
      Federation.import_loop uuid4 clock org n l pool c
      = ((c + Z.of_nat (length l))%Z, built, pool')
      /\ length built = length l
      /\ (forall i b,
            nth_error l i = Some b ->
            exists stamped,
              nth_error built i = Some stamped
              /\ stamped.(Domain.base)
                 = (Federation.federated_entry (uuid4 (n + i)%nat)
                      (clock (2 * (n + i))%nat) org b).(Domain.base)
              /\ stamped.(Domain.domain)
                 = Domain.classify_domain b.(Federation.content)
              /\ stamped.(Domain.federation_source) = Some org
              /\ stamped.(Domain.quality_score) = b.(Federation.quality_score)
              /\ stamped.(Domain.success_rate) = b.(Federation.success_rate)
              /\ Scenario.pool_record
                   (Domain.classify_domain b.(Federation.content))
                   (uuid4 (n + i)%nat) pool'
                 = Some (record_of_entry stamped.(Domain.base)))
      /\ (forall d id',
            (forall i, (i < length l)%nat -> id' <> uuid4 (n + i)%nat) ->
            Scenario.pool_record d id' pool' = Scenario.pool_record d id' pool).
Proof.
  induction l as [|b l IH]; intros n pool c Hnd.
  - exists [], pool. simpl. split; [do 2 f_equal; lia|].
    split; [reflexivity|]. split.
    + intros [|i] b'; discriminate.
    + reflexivity.
  - simpl in Hnd. apply NoDup_cons in Hnd as [Hn Hnd].
    cbn [Federation.import_loop].
    pose proof (store_domain_insight_spec (clock (2 * n + 1)%nat)
                  (Federation.federated_entry (uuid4 n) (clock (2 * n)%nat)
                     org b) pool) as Hspec.
    cbv zeta in Hspec.
    destruct Hspec as (stamped & pool1 & Hst & Hbase & Hdom & Hsrc & Hrec
                       & Hother).
    rewrite Hst.
    assert (Hq : stamped.(Domain.quality_score) = b.(Federation.quality_score)
                 /\ stamped.(Domain.success_rate)
                    = b.(Federation.success_rate)).
    { unfold Domain.store_domain_insight, Shared.store in Hst.
      destruct (Domain.get_domain_memory _ _) as [m p1]. simpl in Hst.
      injection Hst as <- _. split; reflexivity. }
    destruct (IH (S n) pool1 (c + 1)%Z Hnd)
      as (built & pool' & Hloop & Hlen & Hnew & Hold).
    rewrite Hloop. exists (stamped :: built), pool'.
    split; [do 2 f_equal; simpl length; lia|].
    split; [simpl; now rewrite Hlen|]. split.
    + intros [|i] b' Hb; simpl in Hb.
      * injection Hb as <-. rewrite Nat.add_0_r. exists stamped.
        split; [reflexivity|]. split; [exact Hbase|]. split; [exact Hdom|].
        split; [exact Hsrc|]. split; [apply Hq|]. split; [apply Hq|].
        rewrite Hold.
        -- rewrite Hbase. exact Hrec.
        -- intros i Hi Heq. apply Hn. rewrite Heq.
           apply list_elem_of_In, in_map, in_seq. lia.
      * replace (n + S i)%nat with (S n + i)%nat by lia.
        destruct (Hnew i b' Hb) as (st & Hnth & Hrest).
        exists st. split; [exact Hnth|exact Hrest].
    + intros d id' Hid. rewrite Hold.
      * apply Hother. right. simpl.
        specialize (Hid 0%nat). rewrite Nat.add_0_r in Hid.
        apply Hid. simpl. lia.
      * intros i Hi. replace (S n + i)%nat with (n + S i)%nat by lia.
        apply Hid. simpl. lia.
Qed.

(** C8, as the code has it.  [export_insights] writes the bundle of the
    exporting organization holding exactly the entries whose
    [quality_score] is not below the threshold, in their order.  With
    fresh ids, importing the bundle into a pool returns the number of
    bundled records and builds one entry for each: the [i]-th one has the
    [i]-th generated id, [agent_id] ["federated"], [federation_source]
    the exporting organization, the content, tags, metadata,
    [quality_score] and [success_rate] of the original, the time of the
    import and the default importance; its [domain] is the one that
    [classify_domain] gives its content (the router overwrites the
    bundled domain), and the partition of that domain keeps its record,
    the six fields of a plain entry, under the new id.  Records under
    other ids are untouched. *)
Theorem federation_export_then_import
    (fed : Federation.MemoryFederation) (now : Z)
    (insights : list Domain.EnhancedMemoryEntry) (org : string)
    (uuid4 : nat -> string) (clock : nat -> Z)
    (pool0 : Domain.DomainSpecificMemory) :
  let kept :=
    List.filter (fun e => Qle_bool fed.(Federation.quality_threshold)
                                   e.(Domain.quality_score)) insights in
  let bundle := Federation.export_insights now fed insights org in
  let imported := Federation.import_insights uuid4 clock bundle pool0 in
  let built := imported.1.2 in
  let pool := imported.2 in
  NoDup (map uuid4 (seq 0 (length kept))) ->
  bundle.(Federation.organization_id) = org
  /\ bundle.(Federation.insights) = map Federation.insight_data kept
  /\ (forall e, In e kept <->
        In e insights
        /\ ~ (e.(Domain.quality_score) < fed.(Federation.quality_threshold))%Q)
  /\ imported.1.1 = Z.of_nat (length kept)
  /\ length built = length kept
  /\ (forall i e,
        nth_error kept i = Some e ->
        exists b,
          nth_error built i = Some b
          /\ b.(Domain.base).(id) = uuid4 i
          /\ b.(Domain.base).(agent_id) = "federated"
          /\ b.(Domain.federation_source) = Some org
          /\ b.(Domain.base).(content) = e.(Domain.base).(content)
          /\ b.(Domain.base).(tags) = e.(Domain.base).(tags)
          /\ b.(Domain.base).(metadata) = e.(Domain.base).(metadata)
          /\ b.(Domain.quality_score) = e.(Domain.quality_score)
          /\ b.(Domain.success_rate) = e.(Domain.success_rate)
          /\ b.(Domain.base).(timestamp) = Naive (clock (2 * i)%nat)
          /\ b.(Domain.base).(importance_score) = 0%Q
          /\ b.(Domain.domain)
             = Domain.classify_domain e.(Domain.base).(content)
          /\ Scenario.pool_record
               (Domain.classify_domain e.(Domain.base).(content))
               (uuid4 i) pool
             = Some (record_of_entry b.(Domain.base))
          /\ map fst (record_of_entry b.(Domain.base))
             = ["content"; "metadata"; "timestamp"; "agent_id"; "tags";
                "importance_score"])
  /\ (forall d id',
        (forall i, (i < length kept)%nat -> id' <> uuid4 i) ->
        Scenario.pool_record d id' pool = Scenario.pool_record d id' pool0).
Proof.
  intros kept bundle imported built pool Hnd.
  split; [reflexivity|]. split; [reflexivity|]. split.
  { intros e. unfold kept. rewrite filter_In.
    split; intros [Hin Hq]; (split; [assumption|]).
    - apply Qle_bool_iff in Hq. lra.
    - apply Qle_bool_iff. lra. }
  destruct (import_loop_spec uuid4 clock org
              (map Federation.insight_data kept) 0 pool0 0)
    as (built' & pool' & Hloop & Hlen & Hnew & Hold).
  { now rewrite length_map. }
  rewrite length_map in Hloop, Hlen, Hold.
  assert (Himp : imported = (Z.of_nat (length kept), built', pool'))
    by exact Hloop.
  unfold built, pool. rewrite Himp. simpl.
  split; [reflexivity|]. split; [exact Hlen|]. split.
  - intros i e He.
    destruct (Hnew i (Federation.insight_data e))
      as (b & Hnth & Hbase & Hdom & Hsrc & Hq & Hs & Hrec).
    { rewrite nth_error_map, He. reflexivity. }
    exists b. split; [exact Hnth|]. rewrite Hbase in Hrec |- *.
    repeat split; first [reflexivity | assumption].
  - exact Hold.
Qed.

Lemma federation_export_then_import_witness :
  let imported :=
    Federation.import_insights Scenario.uuid4 Scenario.clock
      (Federation.export_insights 3000 Scenario.federation
         [Scenario.insight_search; Scenario.insight_weak] "org_a")
      Scenario.fresh_pool in
  imported.1.1 = 1%Z
  /\ exists b,
       imported.1.2 = [b]
       /\ b.(Domain.federation_source) = Some "org_a"
       /\ b.(Domain.domain) = "algorithms"
       /\ Scenario.pool_record "algorithms" (Scenario.uuid4 0) imported.2
          = Some (record_of_entry b.(Domain.base)).
Proof.
  intros imported.
  pose proof (federation_export_then_import Scenario.federation 3000
                [Scenario.insight_search; Scenario.insight_weak] "org_a"
                Scenario.uuid4 Scenario.clock Scenario.fresh_pool) as H.
  cbv zeta in H.
  destruct H as (_ & _ & _ & Hcount & Hlen & Hnew & _).
  { apply (bool_decide_unpack _). vm_compute. reflexivity. }
  split; [exact Hcount|].
  destruct (Hnew 0%nat Scenario.insight_search eq_refl)
    as (b & Hnth & _ & _ & Hsrc & _ & _ & _ & _ & _ & _ & _ & Hdom & Hrec & _).
  exists b. split.
  - fold imported in Hnth, Hlen.
    destruct imported.1.2 as [|b0 [|b1 rest]]; try discriminate Hlen.
    now injection Hnth as ->.
  - split; [exact Hsrc|]. split; [exact Hdom|exact Hrec].
Defined.

(** C8, as stated, fails on the domain: an exported entry whose domain
    is ["general"] and whose content speaks of searching and sorting is
    imported into the ["algorithms"] partition, its entry stamped
    ["algorithms"]; the ["general"] partition does not receive it. *)
Lemma federation_import_reclassifies_domain :
  let bundle :=
    Federation.export_insights 3000 Scenario.federation
      [Scenario.insight_search; Scenario.insight_weak] "org_a" in
  let imported :=
    Federation.import_insights Scenario.uuid4 Scenario.clock bundle
      Scenario.fresh_pool in
  bundle.(Federation.insights)
    = [Federation.insight_data Scenario.insight_search]
  /\ Scenario.insight_search.(Domain.domain) = "general"
  /\ map Federation.domain bundle.(Federation.insights) = ["general"]
  /\ map Domain.domain imported.1.2 = ["algorithms"]
  /\ Scenario.pool_record "algorithms" (Scenario.uuid4 0) imported.2
     = Some (record_of_entry
               (Federation.federated_entry (Scenario.uuid4 0)
                  (Scenario.clock 0) "org_a"
                  (Federation.insight_data Scenario.insight_search))
                 .(Domain.base))
  /\ Scenario.pool_record "general" (Scenario.uuid4 0) imported.2 = None.
Proof. vm_compute. auto 10. Qed.

(** * Further properties of the stores *)

(** ** More on dictionaries *)

Lemma dict_get_In {V} (k : string) (v : V) (d : dict V) :
  dict_get k d = Some v -> In (k, v) d.
Proof.
  induction d as [|[k' v'] d IH]; simpl; [discriminate|].
  destruct (String.eqb_spec k k') as [->|_].
  - intros [= ->]. now left.
  - intros H. right. now apply IH.
Qed.

Lemma dict_set_In_inv {V} (k k' : string) (v v' : V) (d : dict V) :
  In (k', v') (dict_set k v d) -> (k', v') = (k, v) \/ In (k', v') d.
Proof.
  induction d as [|[k0 v0] d IH]; simpl.
  - intros [H|[]]. left. congruence.
  - destruct (String.eqb k k0); simpl.
    + intros [H|H]; [left; congruence|right; now right].
    + intros [H|H]; [right; now left|].
      destruct (IH H); [now left|right; now right].
Qed.

Lemma dict_del_In {V} (k k' : string) (v' : V) (d : dict V) :
  In (k', v') (dict_del k d) -> In (k', v') d.
Proof.
  induction d as [|[k0 v0] d IH]; simpl; [tauto|].
  destruct (String.eqb k k0); simpl; [now right|].
  intros [H|H]; [now left|right; now apply IH].
Qed.

Lemma dict_get_notin {V} (k : string) (d : dict V) :
  dict_get k d = None -> ~ In k (map fst d).
Proof.
  induction d as [|[k' v'] d IH]; simpl; [tauto|].
  destruct (String.eqb_spec k k') as [->|Hne]; [discriminate|].
  intros H [Heq|Hin]; [congruence|]. now apply IH.
Qed.

Lemma dict_del_keys_notin {V} (k k' : string) (d : dict V) :
  ~ In k' (map fst d) -> ~ In k' (map fst (dict_del k d)).
Proof.
  induction d as [|[k0 v0] d IH]; simpl; [tauto|].
  destruct (String.eqb k k0); simpl; tauto.
Qed.

Lemma dict_del_NoDup {V} (k : string) (d : dict V) :
  NoDup (map fst d) -> NoDup (map fst (dict_del k d)).
Proof.
  induction d as [|[k0 v0] d IH]; simpl; [trivial|].
  intros Hnd. apply NoDup_cons in Hnd as [Hk Hd].
  destruct (String.eqb k k0); simpl; [assumption|].
  apply NoDup_cons. split; [|now apply IH].
  intros Hin. apply list_elem_of_In in Hin.
  revert Hin. apply dict_del_keys_notin. intros Hin. apply Hk.
  now apply list_elem_of_In.
Qed.

Lemma dict_get_del_eq {V} (k : string) (d : dict V) :
  NoDup (map fst d) -> dict_get k (dict_del k d) = None.
Proof.
  induction d as [|[k0 v0] d IH]; simpl; [reflexivity|].
  intros Hnd. apply NoDup_cons in Hnd as [Hk Hd].
  destruct (String.eqb_spec k k0) as [->|Hne]; simpl.
  - now apply dict_get_None_notin.
  - destruct (String.eqb_spec k k0); [contradiction|]. now apply IH.
Qed.

Lemma dict_get_del_ne {V} (k other : string) (d : dict V) :
  other <> k -> dict_get other (dict_del k d) = dict_get other d.
Proof.
  intros Hne. induction d as [|[k0 v0] d IH]; simpl; [reflexivity|].
  destruct (String.eqb_spec k k0) as [->|Hk]; simpl.
  - destruct (String.eqb_spec other k0); [contradiction|reflexivity].
  - now rewrite IH.
Qed.

Lemma dict_set_keys_In {V} (k k' : string) (v : V) (d : dict V) :
  In k' (map fst (dict_set k v d)) -> k' = k \/ In k' (map fst d).
Proof.
  induction d as [|[k0 v0] d IH]; simpl.
  - intros [H|[]]. now left.
  - destruct (String.eqb_spec k k0) as [->|Hne]; simpl; [tauto|].
    intros [H|H]; [right; now left|].
    destruct (IH H); [now left|right; now right].
Qed.

Lemma dict_set_NoDup {V} (k : string) (v : V) (d : dict V) :
  NoDup (map fst d) -> NoDup (map fst (dict_set k v d)).
Proof.
  induction d as [|[k0 v0] d IH]; simpl.
  - intros _. apply NoDup_singleton.
  - intros Hnd. apply NoDup_cons in Hnd as [Hk Hd].
    destruct (String.eqb_spec k k0) as [->|Hne]; simpl.
    + apply NoDup_cons. now split.
    + apply NoDup_cons. split; [|now apply IH].
      intros Hin. apply list_elem_of_In, dict_set_keys_In in Hin.
      destruct Hin as [->|Hin]; [congruence|].
      apply Hk. now apply list_elem_of_In.
Qed.

(** ** Private Store: the gate of store and the ownership invariant *)

(** X1.  [store] on a Private Store succeeds exactly for entries written
    by the owner.  An entry of another writer is refused: the call
    returns [False], the records are unchanged and one ["store_denied"]
    record naming the entry and the reason is logged; an entry of the
    owner is persisted under its id. *)
Theorem private_store_accepts_owner_only
    (self : Private.PrivateMemorySystem) (now : Z) (entry : MemoryEntry) :
  ((Private.store now entry self).1 = true
   <-> entry.(agent_id) = self.(Private.agent_id))
  /\ (entry.(agent_id) <> self.(Private.agent_id) ->
      exists r,
        Private.store now entry self
        = (false, {| Private.agent_id := self.(Private.agent_id);
                     Private.data := self.(Private.data);
                     Private.access_log := self.(Private.access_log) ++ [r] |})
        /\ r.(operation) = "store_denied"
        /\ r.(log_agent_id) = VStr entry.(agent_id)
        /\ dict_get "entry_id" r.(details) = Some (DStr entry.(id))
        /\ dict_get "reason" r.(details)
           = Some (DStr "cross_agent_access_denied"))
  /\ (entry.(agent_id) = self.(Private.agent_id) ->
      dict_get entry.(id) (Private.store now entry self).2.(Private.data)
      = Some (record_of_entry entry)).
Proof.
  unfold Private.store.
  destruct (String.eqb_spec entry.(agent_id) self.(Private.agent_id))
    as [Heq|Hne]; simpl.
  - split; [tauto|]. split; [contradiction|].
    intros _. apply dict_get_set_eq.
  - split; [split; [discriminate|contradiction]|].
    split; [|contradiction].
    intros _. eexists. split; [reflexivity|]. simpl. auto.
Qed.

Lemma private_step_owner (s : Private.PrivateMemorySystem) (c : Trace.call) :
  (Trace.private_step s c).(Private.agent_id) = s.(Private.agent_id).
Proof.
  destruct c; simpl.
  - unfold Private.store. now destruct (negb _).
  - unfold Private.retrieve. destruct (negb _); [reflexivity|].
    destruct (Private.search _ _) as [results|]; simpl; [|reflexivity].
    now destruct (Private.sort_by_key results).
  - unfold Private.update.
    destruct (dict_get _ _); [|reflexivity].
    destruct (dict_item _ _); [|reflexivity].
    now destruct (negb _).
  - unfold Private.delete.
    destruct (dict_get _ _); [|reflexivity].
    destruct (dict_item _ _); [|reflexivity].
    now destruct (negb _).
Qed.

Lemma private_retrieve_data (now : Z) (query agent : string) (limit : Z)
    (s : Private.PrivateMemorySystem) :
  (Private.retrieve now query agent limit s).2.(Private.data) = s.(Private.data).
Proof.
  unfold Private.retrieve. destruct (negb _); [reflexivity|].
  destruct (Private.search _ _) as [results|]; simpl; [|reflexivity].
  now destruct (Private.sort_by_key results).
Qed.

Lemma private_step_owned (s : Private.PrivateMemorySystem) (c : Trace.call) :
  Trace.keeps_writer c ->
  Trace.owned_by s.(Private.agent_id) s.(Private.data) ->
  Trace.owned_by s.(Private.agent_id) (Trace.private_step s c).(Private.data).
Proof.
  intros Hc Hown. destruct c as [now e|now q a lim|now nl k u|now k]; simpl.
  - unfold Private.store.
    destruct (String.eqb_spec e.(agent_id) s.(Private.agent_id)) as [Heq|Hne];
      simpl; [|assumption].
    intros k r Hin. apply dict_set_In_inv in Hin as [[= -> ->]|Hin].
    + simpl. now rewrite Heq.
    + eapply Hown. eassumption.
  - now rewrite private_retrieve_data.
  - unfold Private.update.
    destruct (dict_get k s.(Private.data)) as [r|] eqn:Hget; [|assumption].
    destruct (dict_item "agent_id" r) as [w|]; [|assumption].
    destruct (negb _); [assumption|]. simpl.
    intros k' r' Hin. apply dict_set_In_inv in Hin as [[= -> ->]|Hin].
    + rewrite updated_agent_id by exact Hc.
      eapply Hown. apply dict_get_In. eassumption.
    + eapply Hown. eassumption.
  - unfold Private.delete.
    destruct (dict_get k s.(Private.data)) as [r|] eqn:Hget; [|assumption].
    destruct (dict_item "agent_id" r) as [w|]; [|assumption].
    destruct (negb _); [assumption|]. simpl.
    intros k' r' Hin. eapply Hown. eapply dict_del_In. eassumption.
Qed.

(** X2.  A Private Store whose records all name its owner as writer
    keeps that property through every sequence of [store], [retrieve],
    [update] and [delete] calls in which no [update] binds ["agent_id"],
    whatever the entries, identities and ids of the calls; its owner
    never changes. *)
Theorem private_store_holds_owner_records_only
    (calls : list Trace.call) (s : Private.PrivateMemorySystem) :
  Forall Trace.keeps_writer calls ->
  Trace.owned_by s.(Private.agent_id) s.(Private.data) ->
  (Trace.private_run calls s).(Private.agent_id) = s.(Private.agent_id)
  /\ Trace.owned_by s.(Private.agent_id)
       (Trace.private_run calls s).(Private.data).
Proof.
  intros Hcalls. revert s.
  induction Hcalls as [|c calls Hc _ IH]; intros s Hown; [now split|].
  unfold Trace.private_run in *. simpl.
  destruct (IH (Trace.private_step s c)) as [Ha Hd].
  - rewrite private_step_owner. now apply private_step_owned.
  - rewrite private_step_owner in Ha, Hd. now split.
Qed.

Lemma private_store_holds_owner_records_only_witness :
  Trace.owned_by "qa_engineer"
    (Trace.private_run
       [ Trace.Store 1 Scenario.entry_old;
         Trace.Store 2 Scenario.insight_search.(Domain.base);
         Trace.Update 3 4 "old" [("content", VStr "cache the results")];
         Trace.Retrieve 5 "cache" "engineer" 10;
         Trace.Delete 6 "missing";
         Trace.Store 7 Scenario.entry_new ]
       Scenario.qa_store).(Private.data).
Proof.
  apply (private_store_holds_owner_records_only _ Scenario.qa_store).
  - repeat constructor.
  - intros k r [].
Defined.

Lemma private_store_accepts_owner_only_witness :
  (Private.store 1 Scenario.entry_X Trace.engineer_store).1 = false
  /\ (Private.store 1 Scenario.entry_X Scenario.qa_store).1 = true.
Proof.
  destruct (private_store_accepts_owner_only Trace.engineer_store 1
              Scenario.entry_X) as (_ & Hden & _).
  destruct (private_store_accepts_owner_only Scenario.qa_store 1
              Scenario.entry_X) as (Hiff & _ & _).
  split.
  - destruct Hden as (r & Hr & _); [vm_compute; discriminate|].
    now rewrite Hr.
  - apply Hiff. reflexivity.
Defined.

(** ** Ids stay unique; store replaces or appends; delete removes *)

Lemma shared_retrieve_data (now : Z) (query agent : string) (limit : Z)
    (s : Shared.SharedMemorySystem) :
  (Shared.retrieve now query agent limit s).2.(Shared.data) = s.(Shared.data).
Proof. unfold Shared.retrieve. now destruct (Shared.search _ _). Qed.

Lemma shared_step_unique (s : Shared.SharedMemorySystem) (c : Trace.call) :
  Trace.unique_ids s.(Shared.data) ->
  Trace.unique_ids (Trace.shared_step s c).(Shared.data).
Proof.
  unfold Trace.unique_ids. intros Hnd.
  destruct c as [now e|now q a lim|now nl k u|now k]; simpl.
  - now apply dict_set_NoDup.
  - now rewrite shared_retrieve_data.
  - unfold Shared.update.
    destruct (dict_get k s.(Shared.data)); [|assumption].
    destruct (dict_item _ _); simpl; now apply dict_set_NoDup.
  - unfold Shared.delete.
    destruct (dict_get k s.(Shared.data)) as [r|]; [|assumption].
    destruct (dict_item _ _); simpl; [now apply dict_del_NoDup|assumption].
Qed.

Lemma private_step_unique (s : Private.PrivateMemorySystem) (c : Trace.call) :
  Trace.unique_ids s.(Private.data) ->
  Trace.unique_ids (Trace.private_step s c).(Private.data).
Proof.
  unfold Trace.unique_ids. intros Hnd.
  destruct c as [now e|now q a lim|now nl k u|now k]; simpl.
  - unfold Private.store. destruct (negb _); simpl;
      [assumption|now apply dict_set_NoDup].
  - now rewrite private_retrieve_data.
  - unfold Private.update.
    destruct (dict_get k s.(Private.data)); [|assumption].
    destruct (dict_item _ _); [|assumption].
    destruct (negb _); simpl; [assumption|now apply dict_set_NoDup].
  - unfold Private.delete.
    destruct (dict_get k s.(Private.data)); [|assumption].
    destruct (dict_item _ _); [|assumption].
    destruct (negb _); simpl; [assumption|now apply dict_del_NoDup].
Qed.

(** X3.  The ids of the records of a store stay pairwise distinct
    through every sequence of [store], [retrieve], [update] and [delete]
    calls, on a Shared Store and on a Private Store: no call ever leaves
    two records under one id. *)
Theorem stores_keep_ids_unique (calls : list Trace.call) :
  (forall s : Shared.SharedMemorySystem,
      Trace.unique_ids s.(Shared.data) ->
      Trace.unique_ids (Trace.shared_run calls s).(Shared.data))
  /\ (forall s : Private.PrivateMemorySystem,
      Trace.unique_ids s.(Private.data) ->
      Trace.unique_ids (Trace.private_run calls s).(Private.data)).
Proof.
  split.
  - induction calls as [|c calls IH]; intros s Hs; [assumption|].
    unfold Trace.shared_run in *. simpl. apply IH.
    now apply shared_step_unique.
  - induction calls as [|c calls IH]; intros s Hs; [assumption|].
    unfold Trace.private_run in *. simpl. apply IH.
    now apply private_step_unique.
Qed.

Lemma stores_keep_ids_unique_witness :
  Trace.unique_ids
    (Trace.shared_run
       [ Trace.Store 1 Scenario.entry_old; Trace.Store 2 Scenario.entry_old;
         Trace.Store 3 Scenario.entry_new; Trace.Delete 4 "old";
         Trace.Store 5 Scenario.entry_old ]
       Scenario.shared_store).(Shared.data).
Proof.
  destruct (stores_keep_ids_unique
              [ Trace.Store 1 Scenario.entry_old;
                Trace.Store 2 Scenario.entry_old;
                Trace.Store 3 Scenario.entry_new; Trace.Delete 4 "old";
                Trace.Store 5 Scenario.entry_old ]) as [Hs _].
  apply Hs. constructor.
Defined.

(** X4.  [store] on a Shared Store never fails on a duplicate id: it
    returns [True], the record of the entry is then the one kept under
    its id, every other id keeps its record, and the order of the ids is
    unchanged when the id was already stored (the record is replaced in
    place) and extended by the new id at the end otherwise; one
    ["store"] record is logged. *)
Theorem shared_store_replaces_or_appends
    (s : Shared.SharedMemorySystem) (now : Z) (entry : MemoryEntry) :
  exists (s' : Shared.SharedMemorySystem) (r : LogRecord),
    Shared.store now entry s = (true, s')
    /\ dict_get entry.(id) s'.(Shared.data) = Some (record_of_entry entry)
    /\ (forall other, other <> entry.(id) ->
          dict_get other s'.(Shared.data) = dict_get other s.(Shared.data))
    /\ map fst s'.(Shared.data)
       = (if dict_mem entry.(id) s.(Shared.data)
          then map fst s.(Shared.data)
          else map fst s.(Shared.data) ++ [entry.(id)])
    /\ s'.(Shared.access_log) = s.(Shared.access_log) ++ [r]
    /\ r.(operation) = "store"
    /\ r.(log_agent_id) = VStr entry.(agent_id).
Proof.
  unfold Shared.store. eexists _, _. split; [reflexivity|]. simpl.
  split; [apply dict_get_set_eq|].
  split; [intros other Hne; now apply dict_set_other|].
  split; [|auto].
  destruct (dict_mem entry.(id) s.(Shared.data)) eqn:Hm.
  - now apply dict_set_keys.
  - now apply dict_set_keys_new.
Qed.

(** X5.  [delete] of a stored id on a Shared Store whose ids are
    distinct and whose record names a writer returns [True], removes the
    record of that id and no other, keeps the order of the remaining
    records, and logs one ["delete"] record under the writer of the
    deleted record; afterwards the id is unknown: a second [delete] and an
    [update] of it return [False] and change nothing. *)
Theorem shared_delete_removes_the_record
    (s : Shared.SharedMemorySystem) (now now' now'' : Z)
    (entry_id : string) (entry_data : record) (writer : value)
    (updates : dict value) :
  Trace.unique_ids s.(Shared.data) ->
  dict_get entry_id s.(Shared.data) = Some entry_data ->
  dict_get "agent_id" entry_data = Some writer ->
  exists (s' : Shared.SharedMemorySystem) (r : LogRecord),
    Shared.delete now entry_id s = (true, s')
    /\ dict_get entry_id s'.(Shared.data) = None
    /\ (forall other, other <> entry_id ->
          dict_get other s'.(Shared.data) = dict_get other s.(Shared.data))
    /\ map fst s'.(Shared.data)
       = List.filter (fun k => negb (String.eqb k entry_id))
                     (map fst s.(Shared.data))
    /\ s'.(Shared.access_log) = s.(Shared.access_log) ++ [r]
    /\ r.(operation) = "delete" /\ r.(log_agent_id) = writer
    /\ Shared.delete now' entry_id s' = (false, s')
    /\ Shared.update now' now'' entry_id updates s' = (false, s').
Proof.
  intros Hnd Hget Hw. unfold Shared.delete at 1. rewrite Hget.
  unfold dict_item. rewrite Hw.
  eexists _, _. split; [reflexivity|]. simpl.
  assert (Hgone : dict_get entry_id (dict_del entry_id s.(Shared.data)) = None)
    by now apply dict_get_del_eq.
  split; [assumption|].
  split; [intros other Hne; now apply dict_get_del_ne|].
  split.
  - clear Hget Hgone. unfold Trace.unique_ids in Hnd.
    induction s.(Shared.data) as [|[k0 v0] d IH]; simpl; [reflexivity|].
    simpl in Hnd. apply NoDup_cons in Hnd as [Hk Hd].
    destruct (String.eqb_spec entry_id k0) as [->|Hne]; simpl.
    + rewrite String.eqb_refl. simpl. symmetry.
      apply forallb_filter_id. apply forallb_forall. intros k Hin.
      destruct (String.eqb_spec k k0) as [->|_]; [|reflexivity].
      exfalso. apply Hk. now apply list_elem_of_In.
    + destruct (String.eqb_spec k0 entry_id); [congruence|]. simpl.
      f_equal. now apply IH.
  - split; [reflexivity|]. split; [reflexivity|]. split; [reflexivity|].
    unfold Shared.delete, Shared.update. simpl. rewrite Hgone. auto.
Qed.

Lemma shared_delete_removes_the_record_witness :
  (Shared.delete 2000 "X" Scenario.shared_store_X).1 = true
  /\ dict_get "X" (Shared.delete 2000 "X" Scenario.shared_store_X).2.(Shared.data)
     = None.
Proof.
  destruct (shared_delete_removes_the_record Scenario.shared_store_X
              2000 2001 2002 "X" (record_of_entry Scenario.entry_X)
              (VStr "qa_engineer") [])
    as (s' & r & Hdel & Hgone & _).
  - apply (bool_decide_unpack _). vm_compute. reflexivity.
  - reflexivity.
  - reflexivity.
  - rewrite Hdel. simpl. auto.
Defined.

Lemma dict_del_set_new {V} (k : string) (v : V) (d : dict V) :
  dict_mem k d = false -> dict_del k (dict_set k v d) = d.
Proof.
  unfold dict_mem. induction d as [|[k0 v0] d IH]; simpl.
  - now rewrite String.eqb_refl.
  - destruct (String.eqb k k0) eqn:E; [discriminate|]. simpl. rewrite E.
    intros H. now rewrite IH.
Qed.

(** X6.  On a Shared Store, and on a Private Store for an entry of the
    owner, [store] of an entry whose id is not yet stored followed by
    [delete] of that id gives back the records as they were before, in
    the same order; both calls return [True]. *)
Theorem store_then_delete_restores_records
    (now now' : Z) (entry : MemoryEntry) :
  (forall s : Shared.SharedMemorySystem,
      dict_mem entry.(id) s.(Shared.data) = false ->
      (Shared.store now entry s).1 = true
      /\ (Shared.delete now' entry.(id) (Shared.store now entry s).2).1 = true
      /\ (Shared.delete now' entry.(id) (Shared.store now entry s).2).2
           .(Shared.data) = s.(Shared.data))
  /\ (forall s : Private.PrivateMemorySystem,
      entry.(agent_id) = s.(Private.agent_id) ->
      dict_mem entry.(id) s.(Private.data) = false ->
      (Private.store now entry s).1 = true
      /\ (Private.delete now' entry.(id) (Private.store now entry s).2).1 = true
      /\ (Private.delete now' entry.(id) (Private.store now entry s).2).2
           .(Private.data) = s.(Private.data)).
Proof.
  split.
  - intros s Hnew. unfold Shared.store, Shared.delete. simpl.
    rewrite dict_get_set_eq. simpl.
    split; [reflexivity|]. split; [reflexivity|]. now apply dict_del_set_new.
  - intros s Hown Hnew. unfold Private.store, Private.delete.
    rewrite Hown, String.eqb_refl. simpl.
    rewrite dict_get_set_eq. simpl. rewrite Hown, String.eqb_refl. simpl.
    split; [reflexivity|]. split; [reflexivity|]. now apply dict_del_set_new.
Qed.

Lemma store_then_delete_restores_records_witness :
  (Shared.delete 2 "new" (Shared.store 1 Scenario.entry_new
                            Scenario.shared_store_X).2).2.(Shared.data)
  = Scenario.shared_store_X.(Shared.data).
Proof.
  destruct (store_then_delete_restores_records 1 2 Scenario.entry_new)
    as [Hs _].
  destruct (Hs Scenario.shared_store_X) as (_ & _ & Hd); [reflexivity|].
  exact Hd.
Defined.

(** ** What retrieve returns *)

Section StableSort.
Context {A : Type} (lt : A -> A -> bool).
Hypothesis lt_asym : forall x y, lt x y = true -> lt y x = false.
Hypothesis ge_trans :
  forall x y z, lt x y = false -> lt y z = false -> lt x z = false.

Lemma insert_desc_ordered (x : A) (l : list A) :
  StronglySorted (fun a b => lt a b = false) l ->
  StronglySorted (fun a b => lt a b = false) (insert_desc lt x l).
Proof.
  induction 1 as [|y l Hl IH Hy]; simpl.
  - repeat constructor.
  - destruct (lt x y) eqn:E.
    + constructor; [assumption|].
      apply Forall_forall. intros b Hb.
      apply list_elem_of_In, insert_desc_In in Hb.
      destruct Hb as [->|Hb]; [now apply lt_asym|].
      rewrite Forall_forall in Hy. apply Hy. now apply list_elem_of_In.
    + constructor; [now constructor|].
      constructor; [assumption|].
      eapply Forall_impl; [eassumption|]. simpl. intros b Hb.
      now apply (ge_trans x y b).
Qed.

Lemma sort_desc_ordered (l : list A) :
  StronglySorted (fun a b => lt a b = false) (sort_desc lt l).
Proof.
  induction l as [|x l IH]; simpl; [constructor|].
  now apply insert_desc_ordered.
Qed.

End StableSort.

Lemma sort_desc_of_ordered {A} (lt : A -> A -> bool) (l : list A) :
  StronglySorted (fun a b => lt a b = false) l -> sort_desc lt l = l.
Proof.
  induction 1 as [|x l Hl IH Hx]; [reflexivity|].
  simpl. fold (sort_desc lt l). rewrite IH.
  destruct l as [|y l]; [reflexivity|]. simpl.
  apply Forall_cons in Hx as [Hxy _]. now rewrite Hxy.
Qed.

Lemma StronglySorted_take {A} (R : A -> A -> Prop) (n : nat) (l : list A) :
  StronglySorted R l -> StronglySorted R (take n l).
Proof.
  intros H. revert n. induction H as [|x l Hl IH Hx]; intros [|n]; simpl;
    try constructor.
  - apply IH.
  - now apply Forall_take.
Qed.

Lemma StronglySorted_weaken {A} (R R' : A -> A -> Prop) (l : list A) :
  (forall x y, R x y -> R' x y) ->
  StronglySorted R l -> StronglySorted R' l.
Proof.
  intros HR. induction 1 as [|x l Hl IH Hx]; constructor; [assumption|].
  eapply Forall_impl; [eassumption|]. intros y. apply HR.
Qed.

Lemma StronglySorted_slice_to {A} (R : A -> A -> Prop) (limit : Z)
    (l : list A) :
  StronglySorted R l -> StronglySorted R (slice_to limit l).
Proof.
  intros H. unfold slice_to. destruct (0 <=? limit)%Z;
    now apply StronglySorted_take.
Qed.

Lemma slice_to_In {A} (limit : Z) (l : list A) (x : A) :
  In x (slice_to limit l) -> In x l.
Proof.
  intros H. destruct (slice_to_prefix limit l) as [rest Hl].
  rewrite Hl. apply in_or_app. now left.
Qed.

Lemma slice_to_length_le {A} (limit : Z) (l : list A) :
  (length (slice_to limit l) <= length l)%nat.
Proof.
  unfold slice_to. destruct (0 <=? limit)%Z; rewrite length_take; lia.
Qed.

Lemma entry_of_record_id (entry_id : string) (r : record) (e : MemoryEntry) :
  entry_of_record entry_id r = Ok e -> e.(id) = entry_id.
Proof.
  unfold entry_of_record, dict_item.
  destruct (dict_get "content" r) as [[c| | |]|]; simpl; try discriminate.
  destruct (dict_get "metadata" r) as [[| | |m]|]; simpl; try discriminate.
  destruct (dict_get "timestamp" r) as [[t| | |]|]; simpl; try discriminate.
  destruct (fromisoformat t) as [t'|]; simpl; try discriminate.
  destruct (dict_get "agent_id" r) as [[a| | |]|]; simpl; try discriminate.
  destruct (dict_get "tags" r) as [[| |g|]|]; simpl; try discriminate.
  destruct (dict_get "importance_score" r) as [[|i| |]|]; simpl;
    try discriminate.
  now intros [= <-].
Qed.

Lemma search_with_hits (m : string -> record -> exn bool) (q : string)
    (data : dict record) (results : list MemoryEntry) :
  Scenario.search_with m q data = Ok results ->
  (length results <= length data)%nat
  /\ forall e, In e results ->
       exists r, In (e.(id), r) data
                 /\ entry_of_record e.(id) r = Ok e /\ m q r = Ok true.
Proof.
  revert results. induction data as [|[k r] data IH]; simpl; intros results.
  - intros [= <-]. split; [simpl; lia|]. intros e [].
  - destruct (m q r) as [[|]|] eqn:Hm; simpl; try discriminate.
    + destruct (entry_of_record k r) as [e0|] eqn:He0; simpl; try discriminate.
      destruct (Scenario.search_with m q data) as [rs|]; simpl;
        try discriminate.
      intros [= <-]. destruct (IH rs eq_refl) as [Hlen Hin].
      split; [simpl; lia|]. intros e [<-|He].
      * pose proof (entry_of_record_id _ _ _ He0) as Hid.
        exists r. rewrite Hid. auto.
      * destruct (Hin e He) as (r' & Hr' & Hd & Hm'). exists r'. auto.
    + intros Hs. destruct (IH results Hs) as [Hlen Hin].
      split; [lia|]. intros e He.
      destruct (Hin e He) as (r' & Hr' & Hd & Hm'). exists r'. auto.
Qed.

Lemma shared_key_lt_asym (x y : MemoryEntry) :
  Shared.key_lt x y = true -> Shared.key_lt y x = false.
Proof.
  unfold Shared.key_lt. rewrite float_lt_spec, float_lt_false. lra.
Qed.

Lemma shared_key_ge_trans (x y z : MemoryEntry) :
  Shared.key_lt x y = false -> Shared.key_lt y z = false ->
  Shared.key_lt x z = false.
Proof.
  unfold Shared.key_lt. rewrite !float_lt_false. lra.
Qed.

Lemma search_entries_ok (m : string -> record -> exn bool) (q : string)
    (data : dict record) :
  (forall r, Scenario.is_entry r = true -> exists b, m q r = Ok b) ->
  Scenario.all_entries data ->
  exists found, Scenario.search_with m q data = Ok found.
Proof.
  intros Hm Hall.
  destruct (search_with_entries m q data Hm Hall) as (found & Hs & _).
  eauto.
Qed.

(** X7.  On a Shared Store without index whose records are entries,
    whatever the query, the requester and the limit, [retrieve] leaves
    the records unchanged and appends exactly one log record,
    ["retrieve"] under the requester, with the query, the number of
    results, the limit, and a [cross_agent_access] flag that tells
    whether a result was written by someone else; it returns no more
    entries than there are records and, for a non-negative limit, no
    more than the limit; every returned entry is read from a stored
    record under its id whose content contains the query or one of whose
    tags occurs in the query (up to case); and the results are in
    descending order of importance. *)
Theorem shared_retrieve_sound_sorted_bounded
    (s : Shared.SharedMemorySystem) (now : Z) (query requester : string)
    (limit : Z) :
  Scenario.all_entries s.(Shared.data) ->
  let results := (Shared.retrieve now query requester limit s).1 in
  let s' := (Shared.retrieve now query requester limit s).2 in
  s'.(Shared.data) = s.(Shared.data)
  /\ s'.(Shared.access_log)
     = s.(Shared.access_log)
       ++ [ {| log_timestamp := now;
               operation := "retrieve";
               log_agent_id := VStr requester;
               details :=
                 [ ("query", DStr query);
                   ("results_found", DInt (Z.of_nat (length results)));
                   ("cross_agent_access",
                    DBool (existsb
                             (fun e => negb (String.eqb e.(agent_id) requester))
                             results));
                   ("limit", DInt limit) ] |} ]
  /\ (length results <= length s.(Shared.data))%nat
  /\ ((0 <= limit)%Z -> (Z.of_nat (length results) <= limit)%Z)
  /\ (forall e, In e results ->
        exists r, In (e.(id), r) s.(Shared.data)
                  /\ entry_of_record e.(id) r = Ok e
                  /\ Shared.matches (lower query) r = Ok true)
  /\ StronglySorted
       (fun x y => (y.(importance_score) <= x.(importance_score))%Q) results.
Proof.
  intros Hall. unfold Shared.retrieve. rewrite shared_search_with.
  destruct (search_entries_ok Shared.matches (lower query) s.(Shared.data)
              (shared_matches_entry (lower query)) Hall) as [found Hs].
  rewrite Hs. simpl.
  destruct (search_with_hits _ _ _ _ Hs) as [Hlen Hin].
  split; [reflexivity|]. split; [reflexivity|]. split.
  { etransitivity; [apply slice_to_length_le|].
    now rewrite sort_desc_length. }
  split; [intros H; now apply slice_to_length|]. split.
  - intros e He. apply Hin. eapply sort_desc_In, slice_to_In. eassumption.
  - apply StronglySorted_slice_to.
    eapply StronglySorted_weaken;
      [|apply (sort_desc_ordered Shared.key_lt shared_key_lt_asym
                                 shared_key_ge_trans)].
    intros x y Hxy. now apply float_lt_false.
Qed.

Lemma shared_retrieve_sound_sorted_bounded_witness :
  let s := {| Shared.data := Scenario.records_tied;
              Shared.access_log := [] |} in
  (Shared.retrieve 9 "CACHE" "engineer" 3 s).1
  = [Scenario.entry_c; Scenario.entry_a; Scenario.entry_b]
  /\ (Z.of_nat (length (Shared.retrieve 9 "CACHE" "engineer" 3 s).1) <= 3)%Z
  /\ StronglySorted
       (fun x y => (y.(importance_score) <= x.(importance_score))%Q)
       (Shared.retrieve 9 "CACHE" "engineer" 3 s).1.
Proof.
  intros s. split; [vm_compute; reflexivity|].
  assert (Hall : Scenario.all_entries s.(Shared.data)) by repeat constructor.
  destruct (shared_retrieve_sound_sorted_bounded s 9 "CACHE" "engineer" 3 Hall)
    as (_ & _ & _ & Hb & _ & Hsorted).
  split; [apply Hb; lia|exact Hsorted].
Defined.

Lemma newer_key_ge_spec (x y : MemoryEntry) :
  Scenario.newer_key_lt x y = false
  <-> (y.(importance_score) <= x.(importance_score))%Q
      /\ ((x.(importance_score) == y.(importance_score))%Q ->
          (Scenario.instant y.(timestamp)
           <= Scenario.instant x.(timestamp))%Z).
Proof.
  unfold Scenario.newer_key_lt.
  rewrite orb_false_iff, float_lt_false, andb_false_iff, Z.ltb_ge.
  split.
  - intros [Hle [Hq|Ht]]; split; try assumption.
    + intros Heq. apply Qeq_bool_iff in Heq. congruence.
    + intros _. assumption.
  - intros [Hle Ht]. split; [assumption|].
    destruct (Qeq_bool x.(importance_score) y.(importance_score)) eqn:E;
      [right|now left].
    apply Ht. now apply Qeq_bool_iff.
Qed.

Lemma newer_key_lt_asym (x y : MemoryEntry) :
  Scenario.newer_key_lt x y = true -> Scenario.newer_key_lt y x = false.
Proof.
  intros H. apply newer_key_ge_spec. unfold Scenario.newer_key_lt in H.
  apply orb_true_iff in H as [H|H].
  - apply float_lt_spec in H. split; [lra|]. intros Heq. lra.
  - apply andb_true_iff in H as [Hq Ht].
    apply Qeq_bool_iff in Hq. apply Z.ltb_lt in Ht.
    split; [lra|]. intros _. lia.
Qed.

Lemma newer_key_ge_trans (x y z : MemoryEntry) :
  Scenario.newer_key_lt x y = false -> Scenario.newer_key_lt y z = false ->
  Scenario.newer_key_lt x z = false.
Proof.
  rewrite !newer_key_ge_spec. intros [H1 T1] [H2 T2].
  split; [lra|]. intros Heq.
  assert (Hxy : (x.(importance_score) == y.(importance_score))%Q) by lra.
  assert (Hyz : (y.(importance_score) == z.(importance_score))%Q) by lra.
  specialize (T1 Hxy). specialize (T2 Hyz). lia.
Qed.

Lemma key_ltb_same_awareness (x y : MemoryEntry) :
  aware x.(timestamp) = aware y.(timestamp) ->
  Private.key_ltb x y = Scenario.newer_key_lt x y.
Proof.
  unfold Private.key_ltb, Private.key_lt, Scenario.newer_key_lt. intros H.
  destruct (Qeq_bool x.(importance_score) y.(importance_score)) eqn:Heq;
    [|now rewrite andb_false_l, orb_false_r].
  apply Qeq_bool_iff in Heq.
  replace (float_lt x.(importance_score) y.(importance_score)) with false.
  2:{ symmetry. unfold float_lt. apply negb_false_iff, Qle_bool_iff.
      rewrite Heq. apply Qle_refl. }
  destruct x.(timestamp) as [tx|tx ox], y.(timestamp) as [ty|ty oy];
    simpl in *; try discriminate;
    match goal with
    | |- context [(?a =? ?b)%Z] =>
        destruct (Z.eqb_spec a b) as [->|_];
        [now rewrite Z.ltb_irrefl|reflexivity]
    end.
Qed.

Lemma private_sort_uniform (q : string) (data : dict record)
    (found : list MemoryEntry) :
  Scenario.uniform_timestamps data = true ->
  Scenario.search_with Private.matches q data = Ok found ->
  Private.sort_by_key found = Ok (sort_desc Scenario.newer_key_lt found).
Proof.
  intros Hu Hs.
  rewrite (sort_by_key_total found (uniform_results _ _ _ _ Hu Hs)).
  f_equal. apply sort_desc_ext. intros x y Hx Hy.
  apply key_ltb_same_awareness.
  destruct (search_with_sound _ _ _ _ Hs x Hx) as (kx & rx & Hinx & Hex).
  destruct (search_with_sound _ _ _ _ Hs y Hy) as (ky & ry & Hiny & Hey).
  apply orb_true_iff in Hu as [Hu|Hu];
    rewrite (timestamps_are_entry _ _ _ _ _ Hu Hinx Hex),
            (timestamps_are_entry _ _ _ _ _ Hu Hiny Hey); reflexivity.
Qed.

(** X8.  On a Private Store whose records are entries with timestamps
    that are all naive or all aware, whatever the query and the limit,
    [retrieve] by the owner leaves the records unchanged and appends
    exactly one log record, ["retrieve"] with the query, the number of
    results, [cross_agent_access] [False] and the limit; it returns no
    more entries than records and, for a non-negative limit, no more
    than the limit; every returned entry is read from a stored record
    under its id that the search condition accepts; and the results are
    in descending order of importance, entries of equal importance
    newest first. *)
Theorem private_retrieve_sound_sorted_bounded
    (s : Private.PrivateMemorySystem) (now : Z) (query : string)
    (limit : Z) :
  Scenario.all_entries s.(Private.data) ->
  Scenario.uniform_timestamps s.(Private.data) = true ->
  let results :=
    (Private.retrieve now query s.(Private.agent_id) limit s).1 in
  let s' := (Private.retrieve now query s.(Private.agent_id) limit s).2 in
  s'.(Private.data) = s.(Private.data)
  /\ s'.(Private.access_log)
     = s.(Private.access_log)
       ++ [ {| log_timestamp := now;
               operation := "retrieve";
               log_agent_id := VStr s.(Private.agent_id);
               details :=
                 [ ("query", DStr query);
                   ("results_found", DInt (Z.of_nat (length results)));
                   ("cross_agent_access", DBool false);
                   ("limit", DInt limit) ] |} ]
  /\ (length results <= length s.(Private.data))%nat
  /\ ((0 <= limit)%Z -> (Z.of_nat (length results) <= limit)%Z)
  /\ (forall e, In e results ->
        exists r, In (e.(id), r) s.(Private.data)
                  /\ entry_of_record e.(id) r = Ok e
                  /\ Private.matches (lower query) r = Ok true)
  /\ StronglySorted
       (fun x y =>
          (y.(importance_score) <= x.(importance_score))%Q
          /\ ((x.(importance_score) == y.(importance_score))%Q ->
              (Scenario.instant y.(timestamp)
               <= Scenario.instant x.(timestamp))%Z)) results.
Proof.
  intros Hall Hu. unfold Private.retrieve. rewrite String.eqb_refl. simpl.
  rewrite private_search_with.
  destruct (search_entries_ok Private.matches (lower query) s.(Private.data)
              (private_matches_entry (lower query)) Hall) as [found Hs].
  rewrite Hs. simpl. rewrite (private_sort_uniform _ _ _ Hu Hs). simpl.
  destruct (search_with_hits _ _ _ _ Hs) as [Hlen Hin].
  split; [reflexivity|]. split; [reflexivity|]. split.
  { etransitivity; [apply slice_to_length_le|].
    now rewrite sort_desc_length. }
  split; [intros H; now apply slice_to_length|]. split.
  - intros e He. apply Hin. eapply sort_desc_In, slice_to_In. eassumption.
  - apply StronglySorted_slice_to.
    eapply StronglySorted_weaken;
      [|apply (sort_desc_ordered Scenario.newer_key_lt newer_key_lt_asym
                                 newer_key_ge_trans)].
    intros x y Hxy. now apply newer_key_ge_spec.
Qed.

Lemma private_retrieve_sound_sorted_bounded_witness :
  let s := {| Private.agent_id := "qa_engineer";
              Private.data :=
                Scenario.records_old_new ++ Scenario.records_tied;
              Private.access_log := [] |} in
  (Private.retrieve 9 "CACHE" "qa_engineer" 4 s).1
  = [Scenario.entry_c; Scenario.entry_new; Scenario.entry_old;
     Scenario.entry_a]
  /\ (Z.of_nat (length (Private.retrieve 9 "CACHE" "qa_engineer" 4 s).1)
      <= 4)%Z.
Proof.
  intros s. split; [vm_compute; reflexivity|].
  assert (Hall : Scenario.all_entries s.(Private.data)) by repeat constructor.
  assert (Hu : Scenario.uniform_timestamps s.(Private.data) = true)
    by (vm_compute; reflexivity).
  destruct (private_retrieve_sound_sorted_bounded s 9 "CACHE" 4 Hall Hu)
    as (_ & _ & _ & Hb & _).
  apply Hb. lia.
Defined.

(** ** The insight filter applied twice *)

Lemma rate_idempotent (context : string) (i : Filter.Insight) :
  Filter.rate context (Filter.rate context i) = Filter.rate context i.
Proof. reflexivity. Qed.

Lemma combined_lt_asym (x y : Filter.Insight) :
  float_lt (Filter.combined_score x) (Filter.combined_score y) = true ->
  float_lt (Filter.combined_score y) (Filter.combined_score x) = false.
Proof. rewrite float_lt_spec, float_lt_false. lra. Qed.

Lemma combined_ge_trans (x y z : Filter.Insight) :
  float_lt (Filter.combined_score x) (Filter.combined_score y) = false ->
  float_lt (Filter.combined_score y) (Filter.combined_score z) = false ->
  float_lt (Filter.combined_score x) (Filter.combined_score z) = false.
Proof. rewrite !float_lt_false. lra. Qed.

Lemma filter_all {A} (f : A -> bool) (l : list A) :
  (forall x, In x l -> f x = true) -> List.filter f l = l.
Proof.
  induction l as [|x l IH]; intros H; simpl; [reflexivity|].
  rewrite (H x) by now left. f_equal. apply IH. intros y Hy. apply H. now right.
Qed.

Lemma map_fixed {A} (f : A -> A) (l : list A) :
  (forall x, In x l -> f x = x) -> map f l = l.
Proof.
  induction l as [|x l IH]; intros H; simpl; [reflexivity|].
  rewrite (H x) by now left. f_equal. apply IH. intros y Hy. apply H. now right.
Qed.

(** X9.  With a non-negative [max_insights], filtering the result of
    [filter_insights] again with the same context returns it unchanged:
    the same entries, in the same order, with the same scores. *)
Theorem filter_insights_idempotent
    (self : Filter.IntelligentInsightFilter) (insights : list Filter.Insight)
    (context : string) :
  (0 <= self.(Filter.max_insights))%Z ->
  Filter.filter_insights self (Filter.filter_insights self insights context)
                         context
  = Filter.filter_insights self insights context.
Proof.
  intros Hmax.
  set (F := Filter.filter_insights self insights context).
  set (clt := fun x y : Filter.Insight =>
                float_lt (Filter.combined_score x) (Filter.combined_score y)).
  set (keep := fun i : Filter.Insight =>
                 Qle_bool self.(Filter.min_quality_score)
                          i.(Filter.quality_score)).
  assert (HF : F = slice_to self.(Filter.max_insights)
                     (sort_desc clt
                        (List.filter keep
                           (map (Filter.rate context) insights))))
    by reflexivity.
  assert (Hin : forall x, In x F ->
                  In x (List.filter keep (map (Filter.rate context) insights))).
  { intros x Hx. rewrite HF in Hx.
    eapply sort_desc_In, slice_to_In. eassumption. }
  assert (Hsorted : StronglySorted (fun a b => clt a b = false) F).
  { rewrite HF. apply StronglySorted_slice_to.
    apply sort_desc_ordered.
    - intros x y. apply combined_lt_asym.
    - intros x y z. apply combined_ge_trans. }
  change (Filter.filter_insights self F context)
    with (slice_to self.(Filter.max_insights)
            (sort_desc clt
               (List.filter keep (map (Filter.rate context) F)))).
  rewrite map_fixed.
  - rewrite filter_all by (intros x Hx; apply Hin, filter_In in Hx; tauto).
    rewrite sort_desc_of_ordered by assumption.
    apply slice_to_all. rewrite HF. now apply slice_to_length.
  - intros x Hx. apply Hin, filter_In in Hx as [Hx _].
    apply in_map_iff in Hx as (i0 & <- & _). apply rate_idempotent.
Qed.

Lemma filter_insights_idempotent_witness :
  let f := {| Filter.min_quality_score := 0.1; Filter.max_insights := 1 |} in
  let l :=
    [ {| Filter.entry := Scenario.entry_old;
         Filter.quality_score := 0; Filter.context_similarity := 0;
         Filter.success_rate := None; Filter.usage_count := None |};
      {| Filter.entry := Scenario.entry_X;
         Filter.quality_score := 0; Filter.context_similarity := 0;
         Filter.success_rate := Some 0.5%Q;
         Filter.usage_count := Some 3%Z |} ] in
  Filter.filter_insights f (Filter.filter_insights f l "validate the input")
                         "validate the input"
  = Filter.filter_insights f l "validate the input".
Proof.
  intros f l. apply filter_insights_idempotent. simpl. lia.
Defined.

(** ** Context similarity *)

Section Similarity.
Local Open Scope Q_scope.

Lemma words_inter_comm (A B : gset string) : A ∩ B = B ∩ A.
Proof. apply leibniz_equiv. apply (comm (∩)). Qed.

Lemma words_union_comm (A B : gset string) : A ∪ B = B ∪ A.
Proof. apply leibniz_equiv. apply (comm (∪)). Qed.

Lemma words_inter_self (A : gset string) : A ∩ A = A.
Proof. apply leibniz_equiv. apply (idemp (∩)). Qed.

Lemma words_union_self (A : gset string) : A ∪ A = A.
Proof. apply leibniz_equiv. apply (idemp (∪)). Qed.

Lemma words_union_empty (A B : gset string) : A ∪ B = ∅ -> A ∩ B = ∅.
Proof.
  intros H. apply leibniz_equiv. apply equiv_empty. intros x Hx.
  apply elem_of_intersection in Hx as [Hx _].
  assert (Hxu : x ∈ A ∪ B) by (apply elem_of_union; now left).
  rewrite H in Hxu. now apply not_elem_of_empty in Hxu.
Qed.

Lemma words_size_pos (A : gset string) : A <> ∅ -> (0 < Z.of_nat (size A))%Z.
Proof.
  intros Hne. assert (size A <> 0%nat); [|lia].
  apply size_non_empty_iff. intros He. apply Hne. now apply leibniz_equiv.
Qed.

(** X10.  The context similarity is symmetric in its two texts; it is
    [1] for a text against itself when the text has a word, [0] when the
    two texts share no word, and positive when they share one. *)
Theorem context_similarity_symmetric_reflexive (a b : string) :
  Filter._calculate_context_similarity a b
  = Filter._calculate_context_similarity b a
  /\ (Filter.word_set a <> ∅ ->
      Filter._calculate_context_similarity a a == 1)
  /\ (Filter.word_set a ∩ Filter.word_set b = ∅ ->
      Filter._calculate_context_similarity a b == 0)
  /\ (Filter.word_set a ∩ Filter.word_set b <> ∅ ->
      0 < Filter._calculate_context_similarity a b).
Proof.
  split; [|split; [|split]].
  - unfold Filter._calculate_context_similarity.
    rewrite (words_inter_comm (Filter.word_set b)).
    rewrite (words_union_comm (Filter.word_set b)).
    destruct (decide (Filter.word_set a = ∅ \/ Filter.word_set b = ∅)),
             (decide (Filter.word_set b = ∅ \/ Filter.word_set a = ∅));
      tauto || reflexivity.
  - intros Hne. unfold Filter._calculate_context_similarity.
    destruct (decide _) as [[H|H]|_]; [contradiction|contradiction|].
    rewrite words_inter_self, words_union_self.
    destruct (decide _) as [H|_]; [contradiction|].
    apply Qmult_inv_r.
    pose proof (words_size_pos _ Hne) as Hpos.
    intros H0. change 0 with (inject_Z 0) in H0.
    apply (proj1 (inject_Z_injective _ _)) in H0. lia.
  - intros Hdis. unfold Filter._calculate_context_similarity.
    destruct (decide _); [reflexivity|].
    destruct (decide _); [reflexivity|].
    rewrite Hdis, size_empty. simpl. unfold Qdiv. ring.
  - intros Hcom. unfold Filter._calculate_context_similarity.
    destruct (decide _) as [[H|H]|_].
    { exfalso. apply Hcom. rewrite H. apply leibniz_equiv.
      apply (left_absorb ∅ (∩)). }
    { exfalso. apply Hcom. rewrite H. apply leibniz_equiv.
      apply (right_absorb ∅ (∩)). }
    destruct (decide _) as [H|Hu].
    { exfalso. apply Hcom. now apply words_union_empty. }
    pose proof (words_size_pos _ Hcom) as Hi.
    pose proof (words_size_pos _ Hu) as Hs.
    apply Qlt_shift_div_l.
    + change 0 with (inject_Z 0). now rewrite <- Zlt_Qlt.
    + rewrite Qmult_0_l. change 0 with (inject_Z 0). now rewrite <- Zlt_Qlt.
Qed.

End Similarity.

Lemma context_similarity_symmetric_reflexive_witness :
  (Filter._calculate_context_similarity "use HASH tables" "use HASH tables"
   == 1)%Q.
Proof.
  destruct (context_similarity_symmetric_reflexive
              "use HASH tables" "use HASH tables") as (_ & Hrefl & _ & _).
  apply Hrefl. intros H.
  assert (E : size (Filter.word_set "use HASH tables") = 0%nat)
    by (rewrite H; reflexivity).
  vm_compute in E. discriminate.
Defined.

(** ** The range of the classification *)

Lemma lower_ascii_idempotent (c : ascii) :
  lower_ascii (lower_ascii c) = lower_ascii c.
Proof.
  destruct c as [[] [] [] [] [] [] [] []]; vm_compute; reflexivity.
Qed.

Lemma lower_idempotent (s : string) : lower (lower s) = lower s.
Proof.
  induction s as [|c s IH]; simpl; [reflexivity|].
  now rewrite lower_ascii_idempotent, IH.
Qed.

(** X11.  [classify_domain] always returns one of seven names,
    ["general"] or one of the six declared domains, and it ignores
    letter case: a text and its lower-cased form, and any two texts
    equal up to case, are classified alike. *)
Theorem classify_domain_range_and_case (text : string) :
  In (Domain.classify_domain text)
     [ "general"; "algorithms"; "data_structures"; "string_processing";
       "mathematics"; "validation"; "optimization" ]
  /\ Domain.classify_domain (lower text) = Domain.classify_domain text
  /\ (forall text', lower text' = lower text ->
        Domain.classify_domain text' = Domain.classify_domain text).
Proof.
  split; [|split].
  - destruct (classify_table Domain.domain_patterns (lower text))
      as [[Hg _]|(before & d & ps & after & Ht & Hd & _)].
    + apply (bool_decide_unpack _). vm_compute. reflexivity.
    + left. symmetry. exact Hg.
    + right. change (Domain.classify_domain text = d) in Hd. rewrite Hd.
      assert (Hin : In d (map fst Domain.domain_patterns)).
      { rewrite Ht, map_app. apply in_or_app. right. now left. }
      exact Hin.
  - unfold Domain.classify_domain. now rewrite lower_idempotent.
  - intros text' H. unfold Domain.classify_domain. now rewrite H.
Qed.

(** ** The router: retrieval across partitions *)

Lemma shared_retrieve_results (now : Z) (query requester : string)
    (limit : Z) (s : Shared.SharedMemorySystem) :
  (Shared.retrieve now query requester limit s).1
  = match Scenario.search_with Shared.matches (lower query) s.(Shared.data) with
    | Ok found => slice_to limit (sort_desc Shared.key_lt found)
    | Raise _ => []
    end.
Proof.
  unfold Shared.retrieve. rewrite shared_search_with.
  now destruct (Scenario.search_with _ _ _).
Qed.

Lemma shared_retrieve_sound_sorted_bounded_aux (data : dict record)
    (now : Z) (query requester : string) (limit : Z) (e : MemoryEntry) :
  In e (Shared.retrieve now query requester limit
          {| Shared.data := data; Shared.access_log := [] |}).1 ->
  exists r, In (e.(id), r) data
            /\ entry_of_record e.(id) r = Ok e
            /\ Shared.matches (lower query) r = Ok true.
Proof.
  rewrite shared_retrieve_results. simpl.
  destruct (Scenario.search_with Shared.matches (lower query) data)
    as [found|] eqn:Hs; [|intros []].
  intros He. destruct (search_with_hits _ _ _ _ Hs) as [_ Hin].
  apply Hin. eapply sort_desc_In, slice_to_In. eassumption.
Qed.

Lemma get_domain_memory_spec (domain : string)
    (pool : Domain.DomainSpecificMemory) :
  let m := (Domain.get_domain_memory domain pool).1 in
  let pool1 := (Domain.get_domain_memory domain pool).2 in
  m.(Shared.data) = Trace.partition domain pool
  /\ pool1.(Domain.base_path) = pool.(Domain.base_path)
  /\ dict_get domain pool1.(Domain.domain_memories) = Some m
  /\ forall d', Trace.partition d' pool1 = Trace.partition d' pool.
Proof.
  unfold Domain.get_domain_memory, Trace.partition.
  destruct (dict_get domain pool.(Domain.domain_memories)) as [m|] eqn:Hm;
    simpl.
  - rewrite Hm. auto.
  - split; [reflexivity|]. split; [reflexivity|].
    split; [apply dict_get_set_eq|].
    intros d'. rewrite dict_get_set.
    destruct (String.eqb_spec d' domain) as [->|_]; [|reflexivity].
    now rewrite Hm.
Qed.

Lemma write_back_partition (domain : string)
    (pool : Domain.DomainSpecificMemory) (m m' : Shared.SharedMemorySystem) :
  dict_get domain pool.(Domain.domain_memories) = Some m ->
  m'.(Shared.data) = m.(Shared.data) ->
  forall d',
    Trace.partition d'
      {| Domain.base_path := pool.(Domain.base_path);
         Domain.domain_memories :=
           dict_set domain m' pool.(Domain.domain_memories) |}
    = Trace.partition d' pool.
Proof.
  intros Hm Hdata d'. unfold Trace.partition. simpl. rewrite dict_get_set.
  destruct (String.eqb_spec d' domain) as [->|_]; [|reflexivity].
  now rewrite Hm.
Qed.

Lemma retrieve_domain_insights_primary_then_general_aux
    (pool : Domain.DomainSpecificMemory) (now now' : Z)
    (query requester : string) (limit : Z) :
  let d := Domain.classify_domain query in
  (Router.retrieve_domain_insights now now' query requester limit pool).1
  = slice_to limit
      ((Shared.retrieve now query requester limit
          {| Shared.data := Trace.partition d pool;
             Shared.access_log := [] |}).1
       ++ if String.eqb d "general" then []
          else (Shared.retrieve now' query requester (limit / 2)
                  {| Shared.data := Trace.partition "general" pool;
                     Shared.access_log := [] |}).1)
  /\ (forall d',
        Trace.partition d'
          (Router.retrieve_domain_insights now now' query requester limit
             pool).2
        = Trace.partition d' pool)
  /\ (Router.retrieve_domain_insights now now' query requester limit pool).2
       .(Domain.base_path) = pool.(Domain.base_path).
Proof.
  intros d.
  set (primary :=
    (Shared.retrieve now query requester limit
       {| Shared.data := Trace.partition d pool; Shared.access_log := [] |}).1).
  set (general :=
    (Shared.retrieve now' query requester (limit / 2)
       {| Shared.data := Trace.partition "general" pool;
          Shared.access_log := [] |}).1).
  unfold Router.retrieve_domain_insights. fold d.
  pose proof (get_domain_memory_spec d pool) as (Hd1 & Hb1 & Hg1 & Hp1).
  destruct (Domain.get_domain_memory d pool) as [m1 pool1]. simpl in *.
  pose proof (shared_retrieve_results now query requester limit m1) as Hr1.
  pose proof (shared_retrieve_data now query requester limit m1) as Hdata1.
  destruct (Shared.retrieve now query requester limit m1) as [res1 m1'].
  simpl in *.
  assert (Hprim : res1 = primary).
  { unfold primary. rewrite shared_retrieve_results. simpl.
    now rewrite Hr1, Hd1. }
  set (pool2 := {| Domain.base_path := pool1.(Domain.base_path);
                   Domain.domain_memories :=
                     dict_set d m1' pool1.(Domain.domain_memories) |}).
  assert (Hp2 : forall d', Trace.partition d' pool2 = Trace.partition d' pool).
  { intros d'. unfold pool2.
    rewrite (write_back_partition d pool1 m1 m1' Hg1 Hdata1). apply Hp1. }
  destruct (String.eqb d "general") eqn:Hgen; simpl.
  - rewrite app_nil_r, Hprim. auto.
  - pose proof (get_domain_memory_spec "general" pool2)
      as (Hd3 & Hb3 & Hg3 & Hp3).
    destruct (Domain.get_domain_memory "general" pool2) as [m3 pool3].
    simpl in *.
    pose proof (shared_retrieve_results now' query requester (limit / 2) m3)
      as Hr3.
    pose proof (shared_retrieve_data now' query requester (limit / 2) m3)
      as Hdata3.
    destruct (Shared.retrieve now' query requester (limit / 2) m3)
      as [res3 m3']. simpl in *.
    assert (Hgenr : res3 = general).
    { unfold general. rewrite shared_retrieve_results. simpl.
      now rewrite Hr3, Hd3, Hp2. }
    rewrite Hprim, Hgenr. split; [reflexivity|]. split.
    + intros d'.
      rewrite (write_back_partition "general" pool3 m3 m3' Hg3 Hdata3).
      rewrite Hp3. apply Hp2.
    + now rewrite Hb3.
Qed.

Lemma shared_retrieve_complete (data : dict record) (now : Z)
    (query requester : string) (limit : Z) (entry_id : string) (r : record)
    (e : MemoryEntry) :
  Scenario.all_entries data ->
  (Z.of_nat (length data) <= limit)%Z ->
  In (entry_id, r) data ->
  Shared.matches (lower query) r = Ok true ->
  entry_of_record entry_id r = Ok e ->
  In e (Shared.retrieve now query requester limit
          {| Shared.data := data; Shared.access_log := [] |}).1.
Proof.
  intros Hall Hlim Hin Hm Hdec. rewrite shared_retrieve_results. simpl.
  destruct (search_with_entries Shared.matches (lower query) data
              (shared_matches_entry (lower query)) Hall)
    as (found & Hs & Hlen & Hfound).
  rewrite Hs. rewrite slice_to_all by (rewrite sort_desc_length; lia).
  apply sort_desc_In. eapply Hfound; eassumption.
Qed.

Lemma shared_retrieve_length (data : dict record) (now : Z)
    (query requester : string) (limit : Z) :
  (length (Shared.retrieve now query requester limit
             {| Shared.data := data; Shared.access_log := [] |}).1
   <= length data)%nat.
Proof.
  rewrite shared_retrieve_results. simpl.
  destruct (Scenario.search_with Shared.matches (lower query) data)
    as [found|] eqn:Hs; [|simpl; lia].
  destruct (search_with_hits _ _ _ _ Hs) as [Hlen _].
  etransitivity; [apply slice_to_length_le|]. now rewrite sort_desc_length.
Qed.

Lemma slice_to_app_In {A} (limit : Z) (p g : list A) (x : A) :
  (Z.of_nat (length p) <= limit)%Z -> In x p -> In x (slice_to limit (p ++ g)).
Proof.
  intros Hlen Hin. unfold slice_to.
  destruct (Z.leb_spec 0 limit); [|lia].
  rewrite take_app. apply in_or_app. left.
  rewrite take_ge by lia. assumption.
Qed.

(** X12.  When the records of the partition of the query's domain and
    of the ["general"] partition are entries, [retrieve_domain_insights]
    returns the results of the keyword search in the partition of the
    query's domain, with the given limit, followed, when that domain is
    not ["general"], by those of the ["general"] partition with half the
    limit (rounded down), the whole cut to the limit.  So for a
    non-negative limit it returns at most [limit] entries, each read
    from a record of one of these two partitions that the search
    condition accepts; with a limit of at least the number of records of
    the query's partition, it returns every entry of that partition that
    the search condition accepts; and it changes the records of no
    partition. *)
Theorem retrieve_domain_insights_primary_then_general
    (pool : Domain.DomainSpecificMemory) (now now' : Z)
    (query requester : string) (limit : Z) :
  let d := Domain.classify_domain query in
  let results :=
    (Router.retrieve_domain_insights now now' query requester limit pool).1 in
  let pool' :=
    (Router.retrieve_domain_insights now now' query requester limit pool).2 in
  let primary :=
    (Shared.retrieve now query requester limit
       {| Shared.data := Trace.partition d pool; Shared.access_log := [] |}).1 in
  let general :=
    (Shared.retrieve now' query requester (limit / 2)
       {| Shared.data := Trace.partition "general" pool;
          Shared.access_log := [] |}).1 in
  Scenario.all_entries (Trace.partition d pool) ->
  Scenario.all_entries (Trace.partition "general" pool) ->
  results = slice_to limit
              (primary ++ if String.eqb d "general" then [] else general)
  /\ (forall d', Trace.partition d' pool' = Trace.partition d' pool)
  /\ pool'.(Domain.base_path) = pool.(Domain.base_path)
  /\ ((0 <= limit)%Z -> (Z.of_nat (length results) <= limit)%Z)
  /\ (forall e, In e results ->
        exists r,
          (In (e.(id), r) (Trace.partition d pool)
           \/ d <> "general" /\ In (e.(id), r) (Trace.partition "general" pool))
          /\ entry_of_record e.(id) r = Ok e
          /\ Shared.matches (lower query) r = Ok true)
  /\ ((Z.of_nat (length (Trace.partition d pool)) <= limit)%Z ->
      forall entry_id r e,
        In (entry_id, r) (Trace.partition d pool) ->
        Shared.matches (lower query) r = Ok true ->
        entry_of_record entry_id r = Ok e ->
        In e results).
Proof.
  intros d results pool' primary general Hall Hallg.
  destruct (retrieve_domain_insights_primary_then_general_aux
              pool now now' query requester limit) as (Hres & Hparts & Hbase).
  fold d in Hres. fold results in Hres. fold primary in Hres.
  fold general in Hres. fold pool' in Hparts, Hbase.
  split; [assumption|]. split; [assumption|]. split; [assumption|].
  split; [|split].
  - intros Hl. rewrite Hres. now apply slice_to_length.
  - intros e He. rewrite Hres in He. apply slice_to_In in He.
    apply in_app_or in He as [He|He].
    + destruct (shared_retrieve_sound_sorted_bounded_aux
                  (Trace.partition d pool) now query requester limit e He)
        as (r & Hin & Hdec & Hm).
      exists r. auto.
    + destruct (String.eqb_spec d "general") as [_|Hne]; [destruct He|].
      destruct (shared_retrieve_sound_sorted_bounded_aux
                  (Trace.partition "general" pool) now' query requester
                  (limit / 2) e He)
        as (r & Hin & Hdec & Hm).
      exists r. auto.
  - intros Hlim entry_id r e Hin Hm Hdec. rewrite Hres.
    apply slice_to_app_In.
    + pose proof (shared_retrieve_length (Trace.partition d pool) now query
                    requester limit) as Hlen.
      fold primary in Hlen. lia.
    + unfold primary. eapply shared_retrieve_complete; eassumption.
Qed.

Lemma retrieve_domain_insights_primary_then_general_witness :
  let pool :=
    (Domain.store_domain_insight 1 Scenario.insight_halve
       (Domain.store_domain_insight 0 Scenario.insight_search
          Scenario.fresh_pool).2).2 in
  (Router.retrieve_domain_insights 2 3 "binary search" "agentX" 5 pool).1
  = [Scenario.insight_search.(Domain.base);
     Scenario.insight_halve.(Domain.base)]
  /\ (Z.of_nat
        (length (Router.retrieve_domain_insights 2 3 "binary search" "agentX"
                   5 pool).1) <= 5)%Z.
Proof.
  intros pool. split; [vm_compute; reflexivity|].
  pose proof (retrieve_domain_insights_primary_then_general
                pool 2 3 "binary search" "agentX" 5) as H.
  cbv zeta in H.
  destruct H as (_ & _ & _ & Hb & _).
  - vm_compute. repeat constructor.
  - vm_compute. repeat constructor.
  - apply Hb. lia.
Defined.

Lemma store_domain_insight_partition (now : Z)
    (insight : Domain.EnhancedMemoryEntry) (pool : Domain.DomainSpecificMemory) :
  let d := Domain.classify_domain insight.(Domain.base).(content) in
  let pool' := (Domain.store_domain_insight now insight pool).2 in
  (Domain.store_domain_insight now insight pool).1.1 = true
  /\ Trace.partition d pool'
     = dict_set insight.(Domain.base).(id)
         (record_of_entry insight.(Domain.base)) (Trace.partition d pool)
  /\ forall d', d' <> d -> Trace.partition d' pool' = Trace.partition d' pool.
Proof.
  intros d. unfold Domain.store_domain_insight. fold d.
  pose proof (get_domain_memory_spec d pool) as (Hd1 & Hb1 & Hg1 & Hp1).
  destruct (Domain.get_domain_memory d pool) as [m1 pool1]. simpl in *.
  split; [reflexivity|]. split.
  - unfold Trace.partition. simpl. rewrite dict_get_set_eq. simpl.
    now rewrite Hd1.
  - intros d' Hne. rewrite <- Hp1. unfold Trace.partition. simpl.
    now rewrite dict_get_set_ne by congruence.
Qed.

(** X13.  An insight stored through the router is found again through
    the router: after [store_domain_insight], a
    [retrieve_domain_insights] whose query is classified into the domain
    of the insight's content and matches its content or one of its tags
    returns the stored entry, provided the records of that partition are
    entries and the limit is at least their number. *)
Theorem store_domain_insight_then_retrieve
    (pool : Domain.DomainSpecificMemory) (insight : Domain.EnhancedMemoryEntry)
    (now now1 now2 : Z) (query requester : string) (limit : Z) :
  let d := Domain.classify_domain insight.(Domain.base).(content) in
  let pool' := (Domain.store_domain_insight now insight pool).2 in
  Domain.classify_domain query = d ->
  Scenario.query_matches query insight.(Domain.base) ->
  Scenario.all_entries (Trace.partition d pool) ->
  (Z.of_nat (length (Trace.partition d pool')) <= limit)%Z ->
  In insight.(Domain.base)
     (Router.retrieve_domain_insights now1 now2 query requester limit pool').1.
Proof.
  intros d pool' Hq Hmatch Hall Hlim.
  destruct (store_domain_insight_partition now insight pool)
    as (_ & Hpart & _). fold d in Hpart. fold pool' in Hpart.
  destruct (retrieve_domain_insights_primary_then_general_aux
              pool' now1 now2 query requester limit) as [Hres _].
  rewrite Hres, Hq.
  assert (Hprim :
    In insight.(Domain.base)
       (Shared.retrieve now1 query requester limit
          {| Shared.data := Trace.partition d pool';
             Shared.access_log := [] |}).1).
  { apply (shared_retrieve_complete _ _ _ _ _ insight.(Domain.base).(id)
             (record_of_entry insight.(Domain.base))).
    - rewrite Hpart. apply all_entries_set;
        [apply is_entry_record_of_entry|assumption].
    - assumption.
    - rewrite Hpart. apply dict_set_In.
    - now apply shared_matches_stored.
    - apply entry_of_record_of_entry. }
  apply slice_to_app_In; [|assumption].
  rewrite shared_retrieve_results. simpl.
  destruct (Scenario.search_with Shared.matches (lower query)
              (Trace.partition d pool')) as [found|] eqn:Hs; [|simpl; lia].
  destruct (search_with_hits _ _ _ _ Hs) as [Hlen _].
  pose proof (slice_to_length_le limit (sort_desc Shared.key_lt found)).
  rewrite sort_desc_length in H. lia.
Qed.

Lemma store_domain_insight_then_retrieve_witness :
  In Scenario.insight_search.(Domain.base)
     (Router.retrieve_domain_insights 1 2 "binary search" "agentX" 5
        (Domain.store_domain_insight 0 Scenario.insight_search
           Scenario.fresh_pool).2).1.
Proof.
  apply (store_domain_insight_then_retrieve Scenario.fresh_pool
           Scenario.insight_search 0 1 2 "binary search" "agentX" 5).
  - vm_compute. reflexivity.
  - left. vm_compute. reflexivity.
  - constructor.
  - vm_compute. discriminate.
Defined.

(** ** Sharing knowledge between two Private Stores *)

Lemma shared_entry_of_entry (u : string) (now : Z)
    (self_agent target_agent entry_id : string) (r : record) (e0 : MemoryEntry) :
  entry_of_record entry_id r = Ok e0 ->
  Sharing.shared_entry u now self_agent target_agent entry_id r
  = Ok {| id := "shared_" ++ u ++ "_" ++ entry_id;
          content := "[SHARED FROM " ++ self_agent ++ "] " ++ e0.(content);
          metadata :=
            dict_set "original_id" (SStr entry_id)
              (dict_set "shared_from" (SStr self_agent) e0.(metadata));
          timestamp := now;
          agent_id := target_agent;
          tags := e0.(tags) ++ ["shared_knowledge"];
          importance_score := (e0.(importance_score) * 0.8)%Q |}.
Proof.
  unfold entry_of_record, Sharing.shared_entry, dict_item.
  destruct (dict_get "content" r) as [[c| | |]|]; simpl; try discriminate.
  destruct (dict_get "metadata" r) as [[| | |m]|]; simpl; try discriminate.
  destruct (dict_get "timestamp" r) as [[t| | |]|]; simpl; try discriminate.
  destruct (fromisoformat t) as [t'|]; simpl; try discriminate.
  destruct (dict_get "agent_id" r) as [[a| | |]|]; simpl; try discriminate.
  destruct (dict_get "tags" r) as [[| |g|]|]; simpl; try discriminate.
  destruct (dict_get "importance_score" r) as [[|i| |]|]; simpl;
    try discriminate.
  now intros [= <-].
Qed.

Lemma all_entries_In (data : dict record) (k : string) (r : record) :
  Scenario.all_entries data -> In (k, r) data -> Scenario.is_entry r = true.
Proof.
  unfold Scenario.all_entries. rewrite Forall_forall. intros H Hin.
  apply (H (k, r)). now apply list_elem_of_In.
Qed.

Lemma present_count_cons (data : dict record) (entry_id : string)
    (entry_ids : list string) :
  Trace.present_count data (entry_id :: entry_ids)
  = ((if dict_mem entry_id data then 1 else 0)
     + Trace.present_count data entry_ids)%Z.
Proof.
  unfold Trace.present_count. simpl.
  destruct (dict_mem entry_id data); simpl; lia.
Qed.

Lemma share_loop_spec (uuid8 : nat -> string) (clock : nat -> Z)
    (self_agent : string) (data : dict record) :
  Scenario.all_entries data ->
  forall (entry_ids : list string) (n : nat)
         (t : Private.PrivateMemorySystem) (count : Z),
  exists t',
    Sharing.share_loop uuid8 clock self_agent data n entry_ids t count
    = (Ok (count + Trace.present_count data entry_ids)%Z, t')
    /\ t'.(Private.agent_id) = t.(Private.agent_id)
    /\ (Trace.owned_by t.(Private.agent_id) t.(Private.data) ->
        Trace.owned_by t.(Private.agent_id) t'.(Private.data))
    /\ (Scenario.all_entries t.(Private.data) ->
        Scenario.all_entries t'.(Private.data))
    /\ (forall k,
          (forall i entry_id, nth_error entry_ids i = Some entry_id ->
             k <> Trace.shared_id uuid8 (n + i) entry_id) ->
          dict_get k t'.(Private.data) = dict_get k t.(Private.data))
    /\ (forall i entry_id r e0,
          nth_error entry_ids i = Some entry_id ->
          dict_get entry_id data = Some r ->
          entry_of_record entry_id r = Ok e0 ->
          (forall j entry_id', (i < j)%nat ->
             nth_error entry_ids j = Some entry_id' ->
             Trace.shared_id uuid8 (n + j) entry_id'
             <> Trace.shared_id uuid8 (n + i) entry_id) ->
          dict_get (Trace.shared_id uuid8 (n + i) entry_id) t'.(Private.data)
          = Some (record_of_entry
                    {| id := Trace.shared_id uuid8 (n + i) entry_id;
                       content := "[SHARED FROM " ++ self_agent ++ "] "
                                  ++ e0.(content);
                       metadata :=
                         dict_set "original_id" (SStr entry_id)
                           (dict_set "shared_from" (SStr self_agent)
                                     e0.(metadata));
                       timestamp := clock (2 * (n + i))%nat;
                       agent_id := t.(Private.agent_id);
                       tags := e0.(tags) ++ ["shared_knowledge"];
                       importance_score :=
                         (e0.(importance_score) * 0.8)%Q |})).
Proof.
  intros Hall. induction entry_ids as [|entry_id entry_ids IH];
    intros n t count.
  - exists t. simpl. split; [f_equal; f_equal; unfold Trace.present_count;
                               simpl; lia|].
    repeat split; auto.
    intros [|i] ? ? ? H; discriminate.
  - cbn [Sharing.share_loop]. rewrite present_count_cons.
    unfold dict_mem.
    destruct (dict_get entry_id data) as [r|] eqn:Hget.
    + assert (Hr : Scenario.is_entry r = true)
        by (apply (all_entries_In data entry_id r Hall), dict_get_In, Hget).
      destruct (is_entry_fields r entry_id Hr) as (e0 & Hdec & _).
      rewrite (shared_entry_of_entry _ _ _ _ _ _ _ Hdec).
      set (c := {| id := "shared_" ++ uuid8 n ++ "_" ++ entry_id;
                   content := _; metadata := _; timestamp := _;
                   agent_id := t.(Private.agent_id); tags := _;
                   importance_score := _ |}).
      unfold Private.store. simpl. rewrite String.eqb_refl. simpl.
      match goal with
      | |- context [Sharing.share_loop _ _ _ _ _ _ ?s _] => set (t1 := s)
      end.
      destruct (IH (S n) t1 (count + 1)%Z)
        as (t' & Hloop & Hag & Hown & Hent & Hother & Hnew).
      exists t'. split; [rewrite Hloop; f_equal; f_equal; lia|].
      split; [exact Hag|]. split; [|split; [|split]].
      * intros Ho. apply Hown. unfold t1. simpl.
        intros k r' Hin. apply dict_set_In_inv in Hin as [[= -> ->]|Hin];
          [reflexivity|eapply Ho; eassumption].
      * intros He. apply Hent. unfold t1. simpl.
        apply all_entries_set; [apply is_entry_record_of_entry|assumption].
      * intros k Hk. rewrite Hother.
        -- unfold t1. simpl. apply dict_get_set_ne.
           specialize (Hk 0%nat entry_id eq_refl).
           rewrite Nat.add_0_r in Hk. unfold Trace.shared_id in Hk.
           simpl. congruence.
        -- intros i id' Hi. replace (S n + i)%nat with (n + S i)%nat by lia.
           now apply (Hk (S i)).
      * intros [|i] id' r' e' Hi Hg' Hd' Hfresh.
        -- simpl in Hi. injection Hi as <-.
           rewrite Hget in Hg'. injection Hg' as <-.
           rewrite Hdec in Hd'. injection Hd' as <-.
           rewrite Nat.add_0_r. rewrite Hother.
           ++ unfold t1. simpl. apply dict_get_set_eq.
           ++ intros j id'' Hj Heq.
              apply (Hfresh (S j) id''); [lia|exact Hj|].
              replace (n + S j)%nat with (S n + j)%nat by lia.
              rewrite Nat.add_0_r. now symmetry.
        -- simpl in Hi.
           replace (n + S i)%nat with (S n + i)%nat by lia.
           apply (Hnew i id' r' e' Hi Hg' Hd').
           intros j id'' Hj Hnth.
           replace (S n + j)%nat with (n + S j)%nat by lia.
           replace (S n + i)%nat with (n + S i)%nat by lia.
           apply (Hfresh (S j) id''); [lia|exact Hnth].
    + destruct (IH (S n) t count)
        as (t' & Hloop & Hag & Hown & Hent & Hother & Hnew).
      exists t'. split; [rewrite Hloop; f_equal; f_equal; lia|].
      split; [exact Hag|]. split; [exact Hown|]. split; [exact Hent|].
      split.
      * intros k Hk. apply Hother.
        intros i id' Hi. replace (S n + i)%nat with (n + S i)%nat by lia.
        now apply (Hk (S i)).
      * intros [|i] id' r' e' Hi Hg' Hd' Hfresh.
        -- simpl in Hi. injection Hi as <-. congruence.
        -- simpl in Hi.
           replace (n + S i)%nat with (S n + i)%nat by lia.
           apply (Hnew i id' r' e' Hi Hg' Hd').
           intros j id'' Hj Hnth.
           replace (S n + j)%nat with (n + S j)%nat by lia.
           replace (S n + i)%nat with (n + S i)%nat by lia.
           apply (Hfresh (S j) id''); [lia|exact Hnth].
Qed.

(** X14.  When the records of the sharing store are entries,
    [share_knowledge] never raises and never changes the sharing store's
    records: it returns [True] exactly when at least one requested id is
    stored there, and logs one ["share_knowledge"] record giving the
    target, the number of entries shared (the number of requested ids
    that are stored) and the number requested.  The target keeps its
    owner, still holds only records naming its owner if it did before,
    and keeps the record of every id that is not an id generated for a
    copy. *)
Theorem share_knowledge_copies_for_the_target
    (uuid8 : nat -> string) (clock : nat -> Z) (now_log : Z)
    (entry_ids : list string) (self target : Private.PrivateMemorySystem) :
  Scenario.all_entries self.(Private.data) ->
  let shared := Trace.present_count self.(Private.data) entry_ids in
  exists (target' : Private.PrivateMemorySystem) (r : LogRecord),
    Sharing.share_knowledge uuid8 clock now_log entry_ids self target
    = ((0 <? shared)%Z,
       {| Private.agent_id := self.(Private.agent_id);
          Private.data := self.(Private.data);
          Private.access_log := self.(Private.access_log) ++ [r] |},
       target')
    /\ ((0 <? shared)%Z = true
        <-> exists entry_id,
              In entry_id entry_ids
              /\ dict_mem entry_id self.(Private.data) = true)
    /\ r.(operation) = "share_knowledge"
    /\ r.(log_agent_id) = VStr self.(Private.agent_id)
    /\ dict_get "target_agent" r.(details)
       = Some (DStr target.(Private.agent_id))
    /\ dict_get "entries_shared" r.(details) = Some (DInt shared)
    /\ dict_get "total_requested" r.(details)
       = Some (DInt (Z.of_nat (length entry_ids)))
    /\ target'.(Private.agent_id) = target.(Private.agent_id)
    /\ (Trace.owned_by target.(Private.agent_id) target.(Private.data) ->
        Trace.owned_by target.(Private.agent_id) target'.(Private.data))
    /\ (forall k,
          (forall i entry_id, nth_error entry_ids i = Some entry_id ->
             k <> Trace.shared_id uuid8 i entry_id) ->
          dict_get k target'.(Private.data) = dict_get k target.(Private.data)).
Proof.
  intros Hall shared.
  destruct (share_loop_spec uuid8 clock self.(Private.agent_id)
              self.(Private.data) Hall entry_ids 0 target 0%Z)
    as (t' & Hloop & Hag & Hown & _ & Hother & _).
  unfold Sharing.share_knowledge. rewrite Hloop. simpl.
  exists t'. eexists. split; [reflexivity|]. simpl.
  split; [|repeat split; auto].
  unfold shared, Trace.present_count. rewrite Z.ltb_lt. split.
  - intros Hpos.
    destruct (List.filter _ entry_ids) as [|k l] eqn:Hf; [simpl in Hpos; lia|].
    assert (Hin : In k (List.filter
                          (fun entry_id => dict_mem entry_id self.(Private.data))
                          entry_ids)) by (rewrite Hf; now left).
    apply filter_In in Hin. exists k. exact Hin.
  - intros (k & Hin & Hm).
    assert (Hk : In k (List.filter
                         (fun entry_id => dict_mem entry_id self.(Private.data))
                         entry_ids)) by (apply filter_In; auto).
    destruct (List.filter _ entry_ids); [destruct Hk|simpl; lia].
Qed.

Lemma share_knowledge_copies_for_the_target_witness :
  (Sharing.share_knowledge Trace.uuid8 Scenario.clock 9000 ["X"; "missing"]
     Scenario.qa_store_X Trace.engineer_store).1.1 = true.
Proof.
  destruct (share_knowledge_copies_for_the_target Trace.uuid8 Scenario.clock
              9000 ["X"; "missing"] Scenario.qa_store_X Trace.engineer_store)
    as (t' & r & Hsk & _).
  - repeat constructor.
  - rewrite Hsk. reflexivity.
Defined.

Lemma private_retrieve_complete (s : Private.PrivateMemorySystem)
    (now : Z) (query : string) (limit : Z) (entry_id : string)
    (r : record) (e : MemoryEntry) :
  Scenario.all_entries s.(Private.data) ->
  Scenario.uniform_timestamps s.(Private.data) = true ->
  (Z.of_nat (length s.(Private.data)) <= limit)%Z ->
  In (entry_id, r) s.(Private.data) ->
  Private.matches (lower query) r = Ok true ->
  entry_of_record entry_id r = Ok e ->
  In e (Private.retrieve now query s.(Private.agent_id) limit s).1.
Proof.
  intros Hall Hu Hlim Hin Hm Hdec. unfold Private.retrieve.
  rewrite String.eqb_refl. simpl. rewrite private_search_with.
  destruct (search_with_entries Private.matches (lower query) s.(Private.data)
              (private_matches_entry (lower query)) Hall)
    as (found & Hs & Hlen & Hfound).
  rewrite Hs. simpl. rewrite (private_sort_uniform _ _ _ Hu Hs). simpl.
  rewrite slice_to_all by (rewrite sort_desc_length; lia).
  apply sort_desc_In. eapply Hfound; eassumption.
Qed.

Lemma timestamps_are_set (a : bool) (k : string) (e : MemoryEntry)
    (data : dict record) :
  aware e.(timestamp) = a ->
  Scenario.timestamps_are a data = true ->
  Scenario.timestamps_are a (dict_set k (record_of_entry e) data) = true.
Proof.
  intros He. unfold Scenario.timestamps_are.
  assert (Hr : match Scenario.record_aware (record_of_entry e) with
               | Some b => Bool.eqb a b
               | None => false
               end = true).
  { rewrite (record_aware_entry _ _ _ (entry_of_record_of_entry e)), He.
    apply Bool.eqb_reflx. }
  induction data as [|[k' r'] data IH]; simpl.
  - intros _. now rewrite Hr.
  - intros H. apply andb_true_iff in H as [H1 H2].
    destruct (String.eqb k k'); simpl.
    + now rewrite Hr.
    + rewrite H1. now apply IH.
Qed.

Lemma shared_entry_naive (u : string) (now : Z)
    (self_agent target_agent entry_id : string) (r : record) (c : MemoryEntry) :
  Sharing.shared_entry u now self_agent target_agent entry_id r = Ok c ->
  aware c.(timestamp) = false.
Proof.
  unfold Sharing.shared_entry.
  destruct (bind (dict_item "content" r) as_str); simpl; try discriminate.
  destruct (bind (dict_item "metadata" r) as_dict); simpl; try discriminate.
  destruct (bind (dict_item "tags" r) as_list); simpl; try discriminate.
  destruct (bind (dict_item "importance_score" r) as_float); simpl;
    try discriminate.
  now intros [= <-].
Qed.

Lemma share_loop_naive (uuid8 : nat -> string) (clock : nat -> Z)
    (self_agent : string) (data : dict record) (entry_ids : list string) :
  forall (n : nat) (t : Private.PrivateMemorySystem) (count : Z),
  Scenario.timestamps_are false t.(Private.data) = true ->
  Scenario.timestamps_are false
    (Sharing.share_loop uuid8 clock self_agent data n entry_ids t count).2
      .(Private.data) = true.
Proof.
  induction entry_ids as [|entry_id entry_ids IH]; intros n t count Ht;
    [exact Ht|].
  cbn [Sharing.share_loop].
  destruct (dict_get entry_id data) as [r|]; [|now apply IH].
  destruct (Sharing.shared_entry _ _ _ _ _ r) as [c|] eqn:Hc; [|exact Ht].
  unfold Private.store. destruct (negb _); simpl; apply IH; simpl;
    [exact Ht|].
  apply timestamps_are_set; [|exact Ht].
  eapply shared_entry_naive. eassumption.
Qed.

(** X15.  The copy made by [share_knowledge] can be read by the target's
    owner.  If the sharing store's and the target's records are
    entries, the timestamps of the target's records are naive (as that
    of the copy is), the [i]-th requested id is stored in the sharing
    store, and no later round generates the same copy id, then a
    [retrieve] of ["shared_knowledge"] by the target's owner, with a
    limit of at least the number of the target's records, returns an
    entry with the generated id, the target's owner as writer, the
    original content behind the prefix ["[SHARED FROM <sharer>] "], the
    original tags followed by ["shared_knowledge"], 0.8 times the
    original importance, and metadata naming the sharer and the original
    id. *)
Theorem shared_copy_is_retrieved_by_target_owner
    (uuid8 : nat -> string) (clock : nat -> Z) (now_log now : Z)
    (entry_ids : list string) (self target : Private.PrivateMemorySystem)
    (i : nat) (entry_id : string) (r : record) (e0 : MemoryEntry) (limit : Z) :
  let target' :=
    (Sharing.share_knowledge uuid8 clock now_log entry_ids self target).2 in
  Scenario.all_entries self.(Private.data) ->
  Scenario.all_entries target.(Private.data) ->
  Scenario.timestamps_are false target.(Private.data) = true ->
  nth_error entry_ids i = Some entry_id ->
  dict_get entry_id self.(Private.data) = Some r ->
  entry_of_record entry_id r = Ok e0 ->
  (forall j entry_id', (i < j)%nat -> nth_error entry_ids j = Some entry_id' ->
     Trace.shared_id uuid8 j entry_id' <> Trace.shared_id uuid8 i entry_id) ->
  (Z.of_nat (length target'.(Private.data)) <= limit)%Z ->
  exists c,
    In c (Private.retrieve now "shared_knowledge" target.(Private.agent_id)
            limit target').1
    /\ c.(id) = Trace.shared_id uuid8 i entry_id
    /\ c.(agent_id) = target.(Private.agent_id)
    /\ c.(content)
       = ("[SHARED FROM " ++ self.(Private.agent_id) ++ "] "
          ++ e0.(content))%string
    /\ c.(tags) = e0.(tags) ++ ["shared_knowledge"]
    /\ c.(importance_score) = (e0.(importance_score) * 0.8)%Q
    /\ c.(timestamp) = Naive (clock (2 * i)%nat)
    /\ dict_get "shared_from" c.(metadata)
       = Some (SStr self.(Private.agent_id))
    /\ dict_get "original_id" c.(metadata) = Some (SStr entry_id).
Proof.
  intros target' Hall Hallt Hnaive Hnth Hget Hdec Hfresh Hlim.
  pose proof (share_loop_naive uuid8 clock self.(Private.agent_id)
                self.(Private.data) entry_ids 0 target 0%Z Hnaive) as Hn'.
  destruct (share_loop_spec uuid8 clock self.(Private.agent_id)
              self.(Private.data) Hall entry_ids 0 target 0%Z)
    as (t' & Hloop & Hag & _ & Hent & _ & Hnew).
  rewrite Hloop in Hn'. simpl in Hn'.
  assert (Ht' : target' = t').
  { unfold target', Sharing.share_knowledge. now rewrite Hloop. }
  rewrite Ht' in *. clear Ht'.
  specialize (Hnew i entry_id r e0 Hnth Hget Hdec Hfresh). simpl in Hnew.
  eexists. split.
  - rewrite <- Hag.
    eapply (private_retrieve_complete t' now "shared_knowledge" limit).
    + now apply Hent.
    + unfold Scenario.uniform_timestamps. now rewrite Hn'.
    + assumption.
    + apply dict_get_In. exact Hnew.
    + apply private_matches_stored. right. exists "shared_knowledge".
      split; [apply in_or_app; right; now left|].
      vm_compute. reflexivity.
    + apply entry_of_record_of_entry.
  - simpl. repeat split; try reflexivity.
    + rewrite dict_get_set_ne by discriminate. apply dict_get_set_eq.
    + apply dict_get_set_eq.
Qed.

Lemma shared_copy_is_retrieved_by_target_owner_witness :
  let target :=
    {| Private.agent_id := "engineer";
       Private.data :=
         [("e1", record_of_entry
                   {| id := "e1"; content := "reuse shared_knowledge first";
                      metadata := []; timestamp := 7%Z;
                      agent_id := "engineer"; tags := [];
                      importance_score := 0.4 |})];
       Private.access_log := [] |} in
  exists c,
    In c (Private.retrieve 9001 "shared_knowledge" "engineer" 10
            (Sharing.share_knowledge Trace.uuid8 Scenario.clock 9000
               ["X"; "missing"] Scenario.qa_store_X target).2).1
    /\ c.(content) = "[SHARED FROM qa_engineer] validate input before processing".
Proof.
  intros target.
  destruct (shared_copy_is_retrieved_by_target_owner Trace.uuid8 Scenario.clock
              9000 9001 ["X"; "missing"] Scenario.qa_store_X
              target 0 "X" (record_of_entry Scenario.entry_X)
              Scenario.entry_X 10)
    as (c & Hin & _ & _ & Hc & _).
  - repeat constructor.
  - repeat constructor.
  - reflexivity.
  - reflexivity.
  - reflexivity.
  - vm_compute. reflexivity.
  - intros [|[|[|j]]] id' Hj Hn; try lia; simpl in Hn; discriminate.
  - vm_compute. discriminate.
  - exists c. split; [exact Hin|exact Hc].
Defined.

(** ** Access statistics *)

Lemma total_count_dict_set (k : string) (d : dict Z) :
  Trace.total_count (dict_set k (default 0 (dict_get k d) + 1)%Z d)
  = (Trace.total_count d + 1)%Z.
Proof.
  unfold Trace.total_count.
  induction d as [|[k' n] d IH]; simpl; [lia|].
  destruct (String.eqb k k') eqn:E; simpl; [lia|].
  rewrite IH. lia.
Qed.

Lemma total_count_bump (a : value) (agents : list (value * Z)) :
  Trace.total_count (Metrics.bump a agents) = (Trace.total_count agents + 1)%Z.
Proof.
  unfold Trace.total_count.
  induction agents as [|[a' n] agents IH]; simpl; [lia|].
  destruct (Metrics.key_eqb a a'); simpl; [lia|]. rewrite IH. lia.
Qed.

Lemma count_operation_cons (op : string) (log : LogRecord)
    (logs : list LogRecord) :
  Trace.count_operation op (log :: logs)
  = ((if String.eqb log.(operation) op then 1 else 0)
     + Trace.count_operation op logs)%Z.
Proof.
  unfold Trace.count_operation. simpl.
  destruct (String.eqb log.(operation) op); simpl; lia.
Qed.

Lemma tally_spec (logs : list LogRecord) :
  forall (operations : dict Z) (agents : list (value * Z)),
    Forall (fun log => Metrics.hashable log.(log_agent_id) = true) logs ->
    NoDup (map fst operations) ->
    exists operations' agents',
      Metrics.tally logs operations agents = Ok (operations', agents')
      /\ Trace.total_count operations'
         = (Trace.total_count operations + Z.of_nat (length logs))%Z
      /\ Trace.total_count agents'
         = (Trace.total_count agents + Z.of_nat (length logs))%Z
      /\ NoDup (map fst operations')
      /\ forall op,
           default 0%Z (dict_get op operations')
           = (default 0 (dict_get op operations)
              + Trace.count_operation op logs)%Z.
Proof.
  induction logs as [|log logs IH]; intros operations agents Hh Hnd.
  - exists operations, agents. simpl. split; [reflexivity|].
    split; [lia|]. split; [lia|]. split; [assumption|].
    intros op. unfold Trace.count_operation. simpl. lia.
  - apply Forall_cons in Hh as [Hlog Hh]. simpl. rewrite Hlog.
    destruct (IH (dict_set log.(operation)
                    (default 0 (dict_get log.(operation) operations) + 1)%Z
                    operations)
                 (Metrics.bump log.(log_agent_id) agents) Hh)
      as (ops' & ags' & Ht & Hops & Hags & Hnd' & Hcount).
    { now apply dict_set_NoDup. }
    exists ops', ags'. split; [exact Ht|].
    rewrite total_count_dict_set in Hops. rewrite total_count_bump in Hags.
    split; [simpl length; lia|]. split; [simpl length; lia|].
    split; [assumption|].
    intros op. rewrite Hcount, count_operation_cons, dict_get_set.
    rewrite (String.eqb_sym op).
    destruct (String.eqb_spec log.(operation) op) as [->|_]; simpl; lia.
Qed.

Lemma tally_unhashable (logs : list LogRecord) :
  forall (operations : dict Z) (agents : list (value * Z)),
    Exists (fun log => Metrics.hashable log.(log_agent_id) = false) logs ->
    Metrics.tally logs operations agents = Raise "TypeError".
Proof.
  induction logs as [|log logs IH]; intros operations agents Hex.
  - inversion Hex.
  - simpl. destruct (Metrics.hashable log.(log_agent_id)) eqn:Hh.
    + apply IH. inversion Hex as [? ? H|? ? H]; subst; [congruence|assumption].
    + reflexivity.
Qed.

(** X16.  When every logged caller is hashable (a string or a number),
    [get_access_stats] returns the log itself with its length as
    [total_accesses], and the counts add up: the per-operation counts
    and the per-agent counts each sum to the total, every operation
    appears once as a key, and the count kept for an operation is the
    number of log records of that operation.  When a logged caller is a
    list or a dict the call raises [TypeError]. *)
Theorem access_stats_counts_add_up (access_log : list LogRecord) :
  (Forall (fun log => Metrics.hashable log.(log_agent_id) = true) access_log ->
   exists stats,
     Metrics.get_access_stats access_log = Ok stats
     /\ stats.(Metrics.access_log) = access_log
     /\ stats.(Metrics.total_accesses) = Z.of_nat (length access_log)
     /\ Trace.total_count stats.(Metrics.operations)
        = stats.(Metrics.total_accesses)
     /\ Trace.total_count stats.(Metrics.agents)
        = stats.(Metrics.total_accesses)
     /\ NoDup (map fst stats.(Metrics.operations))
     /\ forall op,
          default 0%Z (dict_get op stats.(Metrics.operations))
          = Trace.count_operation op access_log)
  /\ (Exists (fun log => Metrics.hashable log.(log_agent_id) = false)
             access_log ->
      Metrics.get_access_stats access_log = Raise "TypeError").
Proof.
  split.
  - intros Hh.
    destruct (tally_spec access_log [] [] Hh) as (ops & ags & Ht & Ho & Ha & Hnd & Hc);
      [constructor|].
    unfold Metrics.get_access_stats. rewrite Ht. simpl.
    eexists. split; [reflexivity|]. simpl.
    split; [reflexivity|]. split; [reflexivity|].
    split; [exact Ho|]. split; [exact Ha|]. split; [exact Hnd|].
    intros op. rewrite Hc. simpl. lia.
  - intros Hex. unfold Metrics.get_access_stats.
    now rewrite tally_unhashable.
Qed.

Lemma access_stats_counts_add_up_witness :
  exists stats,
    Metrics.get_access_stats Scenario.qa_store_foreign.(Private.access_log)
    = Ok stats
    /\ stats.(Metrics.total_accesses) = 2%Z.
Proof.
  destruct (access_stats_counts_add_up
              Scenario.qa_store_foreign.(Private.access_log)) as [Hok _].
  destruct Hok as (stats & Hs & _ & Ht & _).
  - repeat constructor.
  - exists stats. split; [exact Hs|]. rewrite Ht. reflexivity.
Defined.

(** ** Metrics over the logs of the stores *)

Section MetricsFacts.
Local Open Scope Q_scope.

Lemma count_successful_bounds (logs : list LogRecord) (n : Z) :
  Metrics.count_successful logs = Ok n ->
  (0 <= n <= Z.of_nat (length logs))%Z.
Proof.
  revert n. induction logs as [|log logs IH]; simpl; intros n.
  - intros [= <-]. lia.
  - destruct (Metrics.positive _) as [hit|]; simpl; [|discriminate].
    destruct (Metrics.count_successful logs) as [m|]; simpl; [|discriminate].
    specialize (IH m eq_refl). intros [= <-]. destruct hit; lia.
Qed.

Lemma count_cross_agent_bounds (logs : list LogRecord) (cross total : Z) :
  (0 <= cross <= total)%Z ->
  (0 <= (Metrics.count_cross_agent logs cross total).1
   <= (Metrics.count_cross_agent logs cross total).2)%Z.
Proof.
  revert cross total. induction logs as [|log logs IH]; intros cross total H;
    simpl; [assumption|].
  destruct (String.eqb log.(operation) "retrieve"); [|now apply IH].
  destruct (Metrics.truthy _); apply IH; lia.
Qed.

(** X17.  Both log metrics are percentages: whenever
    [calculate_redundancy_reduction] returns, its value lies between 0
    and 100, and [calculate_knowledge_reuse_rate] always returns a value
    between 0 and 100; on a log without a ["retrieve"] record both are
    0. *)
Theorem log_metrics_are_percentages (access_logs : list LogRecord) :
  (forall q, Metrics.calculate_redundancy_reduction access_logs = Ok q ->
             0 <= q <= 100)
  /\ 0 <= Metrics.calculate_knowledge_reuse_rate access_logs <= 100
  /\ (Trace.count_operation "retrieve" access_logs = 0%Z ->
      Metrics.calculate_redundancy_reduction access_logs = Ok 0
      /\ Metrics.calculate_knowledge_reuse_rate access_logs == 0).
Proof.
  split; [|split].
  - intros q. unfold Metrics.calculate_redundancy_reduction.
    set (rq := List.filter _ access_logs).
    destruct rq as [|log rq'] eqn:Hrq; [intros [= <-]; lra|].
    rewrite <- Hrq.
    destruct (Metrics.count_successful rq) as [n|] eqn:Hn; simpl;
      [|discriminate].
    intros [= <-]. apply count_successful_bounds in Hn.
    assert (Hlen : (0 < Z.of_nat (length rq))%Z) by (rewrite Hrq; simpl; lia).
    pose proof (ratio_bounds n (Z.of_nat (length rq)) Hn Hlen) as [? ?].
    split; nra.
  - unfold Metrics.calculate_knowledge_reuse_rate.
    pose proof (count_cross_agent_bounds access_logs 0 0 ltac:(lia)) as Hb.
    destruct (Metrics.count_cross_agent access_logs 0 0) as [c t].
    simpl in Hb. destruct (Z.ltb_spec 0 t) as [Ht|_]; [|lra].
    pose proof (ratio_bounds c t Hb Ht) as [? ?]. split; nra.
  - unfold Trace.count_operation, Metrics.calculate_redundancy_reduction.
    intros H0.
    destruct (List.filter _ access_logs) as [|log rq] eqn:Hrq;
      [|simpl in H0; lia].
    split; [reflexivity|].
    unfold Metrics.calculate_knowledge_reuse_rate.
    assert (Hno : forall cross total,
               Metrics.count_cross_agent access_logs cross total
               = (cross, total)).
    { clear H0. induction access_logs as [|l ls IH]; intros cross total;
        [reflexivity|].
      simpl in *. destruct (String.eqb l.(operation) "retrieve");
        [discriminate|]. now apply IH. }
    rewrite Hno. simpl. reflexivity.
Qed.

Lemma log_metrics_are_percentages_witness :
  exists q,
    Metrics.calculate_redundancy_reduction
      (Shared.retrieve 9 "validate" "engineer" 5 Scenario.shared_store_X).2
        .(Shared.access_log) = Ok q
    /\ 0 <= q <= 100.
Proof.
  destruct (log_metrics_are_percentages
              (Shared.retrieve 9 "validate" "engineer" 5
                 Scenario.shared_store_X).2.(Shared.access_log)) as [Hq _].
  eexists. split; [vm_compute; reflexivity|].
  apply Hq. vm_compute. reflexivity.
Defined.

End MetricsFacts.

Section BaselineAndReuse.
Local Open Scope Q_scope.

Lemma count_cross_agent_quiet (logs : list LogRecord) (cross total : Z) :
  Forall (fun r => r.(operation) = "retrieve" ->
                   Metrics.truthy
                     (default (DBool false)
                        (dict_get "cross_agent_access" r.(details))) = false)
         logs ->
  (Metrics.count_cross_agent logs cross total).1 = cross.
Proof.
  intros H. revert cross total.
  induction H as [|r logs Hr _ IH]; intros cross total; [reflexivity|].
  simpl. destruct (String.eqb_spec r.(operation) "retrieve") as [Hop|_];
    [|apply IH].
  rewrite (Hr Hop). apply IH.
Qed.

Lemma reuse_rate_quiet (logs : list LogRecord) :
  Forall (fun r => r.(operation) = "retrieve" ->
                   Metrics.truthy
                     (default (DBool false)
                        (dict_get "cross_agent_access" r.(details))) = false)
         logs ->
  Metrics.calculate_knowledge_reuse_rate logs == 0.
Proof.
  intros H. unfold Metrics.calculate_knowledge_reuse_rate.
  pose proof (count_cross_agent_quiet logs 0 0 H) as Hc.
  destruct (Metrics.count_cross_agent logs 0 0) as [c t]. simpl in Hc.
  subst c. destruct (0 <? t)%Z; [|reflexivity].
  unfold Qdiv. change (inject_Z 0) with 0. ring.
Qed.

Lemma count_successful_none (logs : list LogRecord) :
  Forall (fun r => dict_get "results_found" r.(details) = None) logs ->
  Metrics.count_successful logs = Ok 0%Z.
Proof.
  induction 1 as [|r logs Hr _ IH]; [reflexivity|].
  simpl. rewrite Hr, IH. reflexivity.
Qed.

Lemma nomemory_step_log (s : NoMemory.NoMemorySystem) (c : Trace.call) :
  exists added,
    (Trace.nomemory_step s c).(NoMemory.access_log)
    = s.(NoMemory.access_log) ++ added
    /\ Forall Trace.baseline_record added
    /\ Trace.count_operation "retrieve" added
       = (if Trace.is_retrieve c then 1 else 0)%Z.
Proof.
  destruct c; simpl.
  - eexists [_]. split; [reflexivity|]. split; [|reflexivity].
    constructor; [|constructor].
    split; [left; reflexivity|]. split; [eexists; reflexivity|].
    split; reflexivity.
  - eexists [_]. split; [reflexivity|]. split; [|reflexivity].
    constructor; [|constructor].
    split; [right; reflexivity|]. split; [eexists; reflexivity|].
    split; reflexivity.
  - exists []. rewrite app_nil_r.
    split; [reflexivity|]. split; [constructor|reflexivity].
  - exists []. rewrite app_nil_r.
    split; [reflexivity|]. split; [constructor|reflexivity].
Qed.

Lemma count_operation_app (op : string) (l1 l2 : list LogRecord) :
  Trace.count_operation op (l1 ++ l2)
  = (Trace.count_operation op l1 + Trace.count_operation op l2)%Z.
Proof.
  unfold Trace.count_operation. rewrite List.filter_app, length_app. lia.
Qed.

Lemma nomemory_run_log (calls : list Trace.call) (s : NoMemory.NoMemorySystem) :
  Forall Trace.baseline_record s.(NoMemory.access_log) ->
  Forall Trace.baseline_record
    (Trace.nomemory_run calls s).(NoMemory.access_log)
  /\ Trace.count_operation "retrieve"
       (Trace.nomemory_run calls s).(NoMemory.access_log)
     = (Trace.count_operation "retrieve" s.(NoMemory.access_log)
        + Z.of_nat (length (List.filter Trace.is_retrieve calls)))%Z.
Proof.
  revert s. induction calls as [|c calls IH]; intros s Hs.
  - split; [assumption|]. simpl. lia.
  - unfold Trace.nomemory_run in *. simpl.
    destruct (nomemory_step_log s c) as (added & Hlog & Hadd & Hcnt).
    destruct (IH (Trace.nomemory_step s c)) as [Hall Hcount].
    { rewrite Hlog. apply Forall_app. now split. }
    split; [assumption|].
    rewrite Hcount, Hlog, count_operation_app, Hcnt.
    destruct (Trace.is_retrieve c); simpl; lia.
Qed.

Lemma baseline_no_store (logs : list LogRecord) :
  Forall Trace.baseline_record logs -> Trace.count_operation "store" logs = 0%Z.
Proof.
  unfold Trace.count_operation.
  induction 1 as [|r logs Hr _ IH]; [reflexivity|]. simpl.
  destruct Hr as ([Hop|Hop] & _); rewrite Hop; simpl; exact IH.
Qed.

(** X18.  The baseline store never remembers and never scores: after
    any sequence of calls on a fresh [NoMemorySystem] the log holds only
    ["store_attempted"] and ["retrieve"] records, the redundancy reduction
    and the knowledge reuse rate computed from it are 0, and its
    utilization counts no write: the read/write ratio is 0 and the number
    of operations is the number of [retrieve] calls. *)
Theorem baseline_store_scores_zero (calls : list Trace.call) :
  let log := (Trace.nomemory_run calls Trace.baseline).(NoMemory.access_log) in
  Forall Trace.baseline_record log
  /\ (exists q, Metrics.calculate_redundancy_reduction log = Ok q /\ q == 0)
  /\ Metrics.calculate_knowledge_reuse_rate log == 0
  /\ exists u,
       Metrics.calculate_memory_utilization log = Ok u
       /\ u.(Metrics.read_write_ratio) = 0
       /\ u.(Metrics.total_operations)
          = Z.of_nat (length (List.filter Trace.is_retrieve calls)).
Proof.
  intros log.
  destruct (nomemory_run_log calls Trace.baseline) as [Hall Hcount];
    [constructor|]. fold log in Hall, Hcount.
  split; [assumption|]. split; [|split].
  - unfold Metrics.calculate_redundancy_reduction.
    set (rq := List.filter _ log).
    assert (Hrq : Forall (fun r => dict_get "results_found" r.(details) = None)
                         rq).
    { apply Forall_forall. intros r Hr. apply list_elem_of_In in Hr.
      unfold rq in Hr. apply filter_In in Hr as [Hr _].
      rewrite Forall_forall in Hall. apply list_elem_of_In in Hr.
      now destruct (Hall r Hr) as (_ & _ & H & _). }
    destruct rq as [|r rq'] eqn:E; [eexists; split; [reflexivity|lra]|].
    rewrite <- E in *. rewrite (count_successful_none rq Hrq). simpl.
    eexists. split; [reflexivity|].
    unfold Qdiv. change (inject_Z 0) with 0. ring.
  - apply reuse_rate_quiet.
    eapply Forall_impl; [exact Hall|]. simpl.
    intros r (_ & _ & _ & Hflag) _. now rewrite Hflag.
  - unfold Metrics.calculate_memory_utilization, Metrics.get_access_stats.
    destruct (tally_spec log [] []) as (ops & ags & Ht & _ & _ & _ & Hc).
    { eapply Forall_impl; [exact Hall|]. simpl.
      intros r (_ & [a Ha] & _). now rewrite Ha. }
    { constructor. }
    rewrite Ht. simpl. eexists. split; [reflexivity|]. simpl.
    rewrite !Hc. simpl. rewrite (baseline_no_store log Hall), Hcount.
    simpl. split; [reflexivity|].
    unfold Trace.count_operation. simpl. lia.
Qed.

Lemma private_step_log (s : Private.PrivateMemorySystem) (c : Trace.call) :
  exists added,
    (Trace.private_step s c).(Private.access_log)
    = s.(Private.access_log) ++ added
    /\ Forall Trace.no_cross_agent added.
Proof.
  destruct c as [now e|now q a lim|now nl k u|now k]; simpl.
  - unfold Private.store. destruct (negb _); simpl;
      (eexists [_]; split; [reflexivity|]);
      repeat constructor; intros H; discriminate H.
  - unfold Private.retrieve. destruct (negb _); simpl.
    + eexists [_]. split; [reflexivity|].
      repeat constructor. intros H. discriminate H.
    + destruct (Private.search _ _) as [results|]; simpl;
        [destruct (Private.sort_by_key results); simpl|];
        (eexists [_]; split; [reflexivity|]);
        (constructor; [|constructor]).
      * intros _. reflexivity.
      * intros H. discriminate H.
      * intros H. discriminate H.
  - unfold Private.update.
    destruct (dict_get _ _);
      [|exists []; rewrite app_nil_r; split; [reflexivity|constructor]].
    destruct (dict_item _ _);
      [|exists []; rewrite app_nil_r; split; [reflexivity|constructor]].
    destruct (negb _); simpl;
      [exists []; rewrite app_nil_r; split; [reflexivity|constructor]|].
    eexists [_]. split; [reflexivity|].
    repeat constructor. intros H. discriminate H.
  - unfold Private.delete.
    destruct (dict_get _ _);
      [|exists []; rewrite app_nil_r; split; [reflexivity|constructor]].
    destruct (dict_item _ _);
      [|exists []; rewrite app_nil_r; split; [reflexivity|constructor]].
    destruct (negb _); simpl;
      [exists []; rewrite app_nil_r; split; [reflexivity|constructor]|].
    eexists [_]. split; [reflexivity|].
    repeat constructor. intros H. discriminate H.
Qed.

(** X19.  A Private Store never reports knowledge reuse: if no
    ["retrieve"] record of its log is flagged as crossing agents, which
    holds for an empty log, then after any sequence of [store],
    [retrieve], [update] and [delete] calls, by any identities, the same
    holds and the knowledge reuse rate computed from its log is 0. *)
Theorem private_store_reuse_rate_is_zero
    (calls : list Trace.call) (s : Private.PrivateMemorySystem) :
  Forall Trace.no_cross_agent s.(Private.access_log) ->
  Forall Trace.no_cross_agent (Trace.private_run calls s).(Private.access_log)
  /\ Metrics.calculate_knowledge_reuse_rate
       (Trace.private_run calls s).(Private.access_log) == 0.
Proof.
  intros Hs.
  assert (Hall : Forall Trace.no_cross_agent
                   (Trace.private_run calls s).(Private.access_log)).
  { revert s Hs. induction calls as [|c calls IH]; intros s Hs; [assumption|].
    unfold Trace.private_run in *. simpl. apply IH.
    destruct (private_step_log s c) as (added & Hlog & Hadd).
    rewrite Hlog. apply Forall_app. now split. }
  split; [assumption|].
  apply reuse_rate_quiet. eapply Forall_impl; [exact Hall|]. simpl.
  intros r Hr Hop. now rewrite (Hr Hop).
Qed.

Lemma private_store_reuse_rate_is_zero_witness :
  Metrics.calculate_knowledge_reuse_rate
    (Trace.private_run
       [ Trace.Store 1 Scenario.entry_old;
         Trace.Retrieve 2 "cache" "qa_engineer" 10;
         Trace.Retrieve 3 "cache" "engineer" 10 ]
       Scenario.qa_store).(Private.access_log) == 0.
Proof.
  apply private_store_reuse_rate_is_zero. constructor.
Defined.

End BaselineAndReuse.

(** X20.  [get_agent_memory] gets or creates: in a manager whose stores
    are each kept under the identity they are bound to, the store it
    returns is bound to the requested agent, the manager keeps that
    property, asking again returns the same store without changing the
    manager, and the stores of the other agents are untouched. *)
Theorem get_agent_memory_gets_or_creates
    (agent_id : string) (m : Sharing.PrivateMemoryManager) :
  Trace.bound_stores m ->
  let s := (Sharing.get_agent_memory agent_id m).1 in
  let m' := (Sharing.get_agent_memory agent_id m).2 in
  s.(Private.agent_id) = agent_id
  /\ Trace.bound_stores m'
  /\ Sharing.get_agent_memory agent_id m' = (s, m')
  /\ forall other, other <> agent_id ->
       dict_get other m'.(Sharing.agent_memories)
       = dict_get other m.(Sharing.agent_memories).
Proof.
  intros Hb. unfold Sharing.get_agent_memory.
  destruct (dict_get agent_id m.(Sharing.agent_memories)) as [s0|] eqn:E;
    cbv zeta; simpl.
  - split; [exact (Hb _ _ E)|]. split; [exact Hb|].
    split; [now rewrite E|]. reflexivity.
  - split; [reflexivity|]. split; [|split].
    + intros a s. simpl. rewrite dict_get_set.
      destruct (String.eqb_spec a agent_id) as [->|_].
      * intros [= <-]. reflexivity.
      * apply Hb.
    + now rewrite dict_get_set_eq.
    + intros other Hne. apply dict_get_set_ne. congruence.
Qed.

Lemma get_agent_memory_gets_or_creates_witness :
  let m := {| Sharing.storage_path := [];
              Sharing.agent_memories :=
                [("qa_engineer", Scenario.qa_store)] |} in
  (Sharing.get_agent_memory "engineer" m).1.(Private.agent_id) = "engineer"
  /\ (Sharing.get_agent_memory "qa_engineer" m).1 = Scenario.qa_store.
Proof.
  intros m.
  assert (Hb : Trace.bound_stores m).
  { intros a s. simpl.
    destruct (String.eqb_spec a "qa_engineer") as [->|_]; [|discriminate].
    intros [= <-]. reflexivity. }
  split.
  - exact (proj1 (get_agent_memory_gets_or_creates "engineer" m Hb)).
  - reflexivity.
Defined.

Section UsageBookkeeping.
Local Open Scope Q_scope.

(** X21.  The usage bookkeeping counts every use as a success and
    keeps the success rate a fraction: on an insight used [n >= 0] times
    with a success rate [r] between 0 and 1, one more use succeeds,
    keeps the entry and its scores, raises the count to [n + 1] and
    gives a rate that is again between 0 and 1; the rate is 1 at the
    first use, and a rate of 1 stays 1.  With a count of -1 the division
    is by zero. *)
Theorem record_use_keeps_the_rate_a_fraction
    (insight : Filter.Insight) (n : Z) (r : Q) :
  insight.(Filter.usage_count) = Some n ->
  insight.(Filter.success_rate) = Some r ->
  (n = (-1)%Z -> Router.record_use insight = Raise "ZeroDivisionError")
  /\ ((0 <= n)%Z -> 0 <= r <= 1 ->
      exists insight' r',
        Router.record_use insight = Ok insight'
        /\ insight'.(Filter.usage_count) = Some (n + 1)%Z
        /\ insight'.(Filter.success_rate) = Some r'
        /\ insight'.(Filter.entry) = insight.(Filter.entry)
        /\ insight'.(Filter.quality_score) = insight.(Filter.quality_score)
        /\ insight'.(Filter.context_similarity)
           = insight.(Filter.context_similarity)
        /\ 0 <= r' <= 1
        /\ (n = 0%Z -> r' == 1)
        /\ (r == 1 -> r' == 1)).
Proof.
  intros Hn Hr. unfold Router.record_use. rewrite Hn, Hr. cbv zeta. split.
  - intros ->. reflexivity.
  - intros Hn0 [Hr0 Hr1].
    destruct (Z.eqb_spec (n + 1) 0) as [Hz|_]; [lia|].
    eexists _, _. split; [reflexivity|]. simpl.
    split; [reflexivity|]. split; [reflexivity|]. split; [reflexivity|].
    split; [reflexivity|]. split; [reflexivity|].
    replace (n + 1 - 1)%Z with n by lia.
    assert (Hq0 : 0 <= inject_Z n).
    { change 0 with (inject_Z 0). rewrite <- Zle_Qle. exact Hn0. }
    assert (Hq1 : inject_Z (n + 1) == inject_Z n + 1).
    { rewrite inject_Z_plus. reflexivity. }
    assert (Hpos : 0 < inject_Z (n + 1)) by (rewrite Hq1; lra).
    split; [split|split].
    + apply Qle_shift_div_l; [exact Hpos|]. nra.
    + apply Qle_shift_div_r; [exact Hpos|]. rewrite Hq1. nra.
    + intros ->. change (inject_Z (0 + 1)) with 1.
      change (inject_Z 0) with 0. field.
    + intros H1. rewrite H1, Hq1. field. lra.
Qed.

Lemma record_use_keeps_the_rate_a_fraction_witness :
  let insight := {| Filter.entry := Scenario.entry_old;
                    Filter.quality_score := 0.5;
                    Filter.context_similarity := 0;
                    Filter.success_rate := Some 0.5;
                    Filter.usage_count := Some 1%Z |} in
  exists insight' r',
    Router.record_use insight = Ok insight'
    /\ Filter.usage_count insight' = Some 2%Z
    /\ Filter.success_rate insight' = Some r'
    /\ Filter.entry insight' = Scenario.entry_old
    /\ Filter.quality_score insight' = 0.5
    /\ Filter.context_similarity insight' = 0
    /\ 0 <= r' <= 1
    /\ (1%Z = 0%Z -> r' == 1)
    /\ (0.5 == 1 -> r' == 1).
Proof.
  intros insight.
  apply (record_use_keeps_the_rate_a_fraction insight 1%Z 0.5
           eq_refl eq_refl).
  - lia.
  - split; lra.
Defined.

End UsageBookkeeping.
